(** * A shallow embedding of the yt-dlp metadata harvester

    The development follows the four source files:
    - [core/cookie_manager.py]  : [CookieRotationManager]
    - [utils/utils.py]          : caption helper and JSON3 parsing
    - [core/yt_dlp_fetcher.py]  : [fetch_from_ytdlp]
    - [main_yt_dlp.py]          : progress, shards and the batch loop

    Python [str] values are modelled by [string] (code points 0..255),
    Python [int] by [Z], Python [float] by the rational it denotes ([Q]),
    dictionaries by association lists in insertion order, [set] by [gset].
    Calls that leave the process (yt-dlp, the file system, the dataset
    store, the clocks) go through an interface [Env] over an abstract
    world [W]; exceptions are values of [Outcome]. *)

From Stdlib Require Import QArith Qround.
From stdpp Require Import gmap strings list sorting.
From Stdlib Require Import Ascii String DecimalString DecimalNat.

Set Warnings "-register-all".
Close Scope Q_scope.
Open Scope string_scope.

(* ===================================================================== *)
(** * Python strings *)
(* ===================================================================== *)

Module PyStr.

Definition code (c : ascii) : N := N_of_ascii c.

(** [str.isdecimal] / regex [\d] on code points below 256. *)
Definition is_digit (c : ascii) : bool :=
  ((48 <=? code c) && (code c <=? 57))%N.

(** [str.lower] on one code point below 256: [A-Z] and the Latin-1
    capitals U+00C0..U+00DE (U+00D7 is the multiplication sign). *)
Definition lower_char (c : ascii) : ascii :=
  let n := code c in
  if (((65 <=? n) && (n <=? 90))
      || ((192 <=? n) && (n <=? 222) && negb (n =? 215)))%N
  then ascii_of_N (n + 32) else c.

Fixpoint lower (s : string) : string :=
  match s with
  | EmptyString => EmptyString
  | String c t => String (lower_char c) (lower t)
  end.

(** [hay.startswith(needle)] *)
Fixpoint startswith (needle hay : string) : bool :=
  match needle, hay with
  | EmptyString, _ => true
  | String a n', String b h' => Ascii.eqb a b && startswith n' h'
  | String _ _, EmptyString => false
  end.

(** [needle in hay] *)
Fixpoint str_in (needle hay : string) : bool :=
  startswith needle hay ||
  match hay with
  | EmptyString => false
  | String _ t => str_in needle t
  end.

(** [hay.endswith(needle)] *)
Fixpoint endswith (needle hay : string) : bool :=
  String.eqb needle hay ||
  match hay with
  | EmptyString => false
  | String _ t => endswith needle t
  end.

(** [any(indicator in s for indicator in indicators)] *)
Definition any_in (indicators : list string) (s : string) : bool :=
  existsb (fun indicator => str_in indicator s) indicators.

(** [x in xs] for a list of strings. *)
Definition mem (x : string) (xs : list string) : bool :=
  existsb (String.eqb x) xs.

(** Three decimal digits at the head of [s]: the match of [\d{3}]
    anchored at position 0. *)
Definition d3_here (s : string) : option (ascii * ascii * ascii) :=
  match s with
  | String a (String b (String c _)) =>
      if is_digit a && is_digit b && is_digit c then Some (a, b, c) else None
  | _ => None
  end.

(** [re.search(r'(\d{3})', s)]: the leftmost match, [None] when there is
    none. *)
Fixpoint re_search_d3 (s : string) : option (ascii * ascii * ascii) :=
  match d3_here s with
  | Some g => Some g
  | None =>
      match s with
      | EmptyString => None
      | String _ t => re_search_d3 t
      end
  end.

Definition digit_val (c : ascii) : Z := Z.of_N (code c) - 48.

(** [int(m.group(1))] for a three-digit group. *)
Definition int_of_d3 (g : ascii * ascii * ascii) : Z :=
  let '(a, b, c) := g in 100 * digit_val a + 10 * digit_val b + digit_val c.

(** [str(n)] for a natural number. *)
Definition of_nat (n : nat) : string :=
  NilEmpty.string_of_uint (Nat.to_uint n).

(** Python's order on [str]: lexicographic on code points. *)
Definition le (s1 s2 : string) : Prop := String.leb s1 s2 = true.
Definition lt (s1 s2 : string) : Prop := String.ltb s1 s2 = true.

#[global] Instance le_dec : RelDecision le :=
  fun s1 s2 => decide (String.leb s1 s2 = true).

(** [sorted(l)] for a list of strings. *)
Definition sorted (l : list string) : list string := merge_sort le l.

(** [s.split("/")[-1]] *)
Fixpoint last_segment (s : string) : string :=
  match s with
  | EmptyString => EmptyString
  | String c t =>
      if str_in "/" t then last_segment t
      else if Ascii.eqb c "/" then t else s
  end.

End PyStr.

(* ===================================================================== *)
(** * Python values and exceptions *)
(* ===================================================================== *)

(** JSON-like values; a [float] is the rational it denotes. *)
Inductive pyval : Type :=
| PNone
| PBool (b : bool)
| PInt (z : Z)
| PFloat (q : Q)
| PStr (s : string)
| PList (l : list pyval)
| PDict (d : list (string * pyval)).

Abbreviation Dict := (list (string * pyval)).

(** [bool(v)] *)
Definition truthy (v : pyval) : bool :=
  match v with
  | PNone => false
  | PBool b => b
  | PInt z => negb (z =? 0)%Z
  | PFloat q => negb (Qnum q =? 0)%Z
  | PStr s => negb (String.eqb s "")
  | PList l => match l with [] => false | _ => true end
  | PDict d => match d with [] => false | _ => true end
  end.

(** [type(v).__name__] *)
Definition type_name (v : pyval) : string :=
  match v with
  | PNone => "NoneType"
  | PBool _ => "bool"
  | PInt _ => "int"
  | PFloat _ => "float"
  | PStr _ => "str"
  | PList _ => "list"
  | PDict _ => "dict"
  end.

(** [isinstance(v, dict)] *)
Definition is_dict (v : pyval) : bool :=
  match v with PDict _ => true | _ => false end.

(** [v == s] for a string literal [s]. *)
Definition eq_str (v : pyval) (s : string) : bool :=
  match v with PStr s' => String.eqb s' s | _ => false end.

(** [v == z] for an integer literal [z] other than 0 and 1 (for which
    [bool] values would compare equal as well). *)
Definition eq_int (v : pyval) (z : Z) : bool :=
  match v with
  | PInt z' => (z' =? z)%Z
  | PFloat q => Qeq_bool q (inject_Z z)
  | _ => false
  end.

(** [a or b] *)
Definition py_or (a b : pyval) : pyval := if truthy a then a else b.

Module PyDict.

(** [d.get(k)] as an option: [None] when the key is absent. *)
Fixpoint lookup (k : string) (d : Dict) : option pyval :=
  match d with
  | [] => None
  | (k', v) :: d' => if String.eqb k k' then Some v else lookup k d'
  end.

(** [d.get(k, default)] *)
Definition get (k : string) (default : pyval) (d : Dict) : pyval :=
  match lookup k d with Some v => v | None => default end.

(** [k in d] *)
Definition has (k : string) (d : Dict) : bool :=
  match lookup k d with Some _ => true | None => false end.

(** [d[k] = v]: the value is replaced in place when the key exists,
    the item is appended otherwise. *)
Fixpoint set (k : string) (v : pyval) (d : Dict) : Dict :=
  match d with
  | [] => [(k, v)]
  | (k', v') :: d' =>
      if String.eqb k k' then (k, v) :: d' else (k', v') :: set k v d'
  end.

End PyDict.

(** A raised exception: [type(e).__name__] and [str(e)]. *)
Record Exc : Type := mkExc { exc_type : string; exc_msg : string }.

Inductive Outcome (A : Type) : Type :=
| Val (a : A)
| Exn (e : Exc).
Arguments Val {A} a.
Arguments Exn {A} e.

Definition AttributeError_get (v : pyval) : Exc :=
  mkExc "AttributeError"
        ("'" ++ type_name v ++ "' object has no attribute 'get'").

Definition TypeError_iter (v : pyval) : Exc :=
  mkExc "TypeError" ("'" ++ type_name v ++ "' object is not iterable").

Definition TypeError_join (i : nat) (v : pyval) : Exc :=
  mkExc "TypeError"
        ("sequence item " ++ PyStr.of_nat i ++ ": expected str instance, "
         ++ type_name v ++ " found").

(* ===================================================================== *)
(** * core/cookie_manager.py *)
(* ===================================================================== *)

Record CookieRotationManager : Type := mkManager {
  cookie_files : list string;
  current_index : nat
}.

Definition IndexError : Exc := mkExc "IndexError" "list index out of range".

(** [self.cookie_files[self.current_index]] *)
Definition cookie_at (m : CookieRotationManager) : Outcome string :=
  match cookie_files m !! current_index m with
  | Some c => Val c
  | None => Exn IndexError
  end.

Definition get_current_cookie (m : CookieRotationManager)
  : Outcome (option string) :=
  match cookie_files m with
  | [] => Val None
  | _ =>
      match cookie_at m with
      | Val c => Val (Some c)
      | Exn e => Exn e
      end
  end.

(** The manager after the call, and what the call returns. The cursor is
    assigned before the list is indexed. *)
Definition rotate_to_next (m : CookieRotationManager)
  : CookieRotationManager * Outcome (option string) :=
  match cookie_files m with
  | [] => (m, Val None)
  | _ =>
      let m' := mkManager (cookie_files m)
                  ((current_index m + 1) mod List.length (cookie_files m)) in
      match cookie_at m' with
      | Val c => (m', Val (Some c))
      | Exn e => (m', Exn e)
      end
  end.

(** [n] calls of [rotate_to_next] in a row. *)
Definition rotate_times (n : nat) (m : CookieRotationManager)
  : CookieRotationManager :=
  Nat.iter n (fun m => fst (rotate_to_next m)) m.

Definition block_indicators : list string :=
  [ "429"; "403"; "blocked"; "rate limit"; "too many requests";
    "unable to extract"; "private video"; "video unavailable";
    "sign in to confirm your age"; "http error"; "unable to download";
    "extractor error" ].

Definition extractor_error_types : list string :=
  [ "ExtractorError"; "DownloadError"; "UnsupportedError" ].

Definition blocking_codes : list Z := [429; 403; 503]%Z.

Definition is_blocked_error (error : Exc) : bool :=
  let error_str := PyStr.lower (exc_msg error) in
  let error_type := exc_type error in
  if PyStr.mem error_type extractor_error_types
     && PyStr.any_in block_indicators error_str
  then true
  else
    match PyStr.re_search_d3 error_str with
    | Some g => existsb (Z.eqb (PyStr.int_of_d3 g)) blocking_codes
    | None => false
    end.


(* ===================================================================== *)
(** * The outside world *)
(* ===================================================================== *)

(** What the program does to the outside, in program order. *)
Inductive Event : Type :=
| EvExtract (url : string) (cookiefile : option string)
| EvDownloadSubs (url : string) (cookiefile : option string)
| EvCleanup (path : string)
| EvWrite (path : string) (content : pyval)
| EvUpload (path : string) (path_in_repo : string)
| EvRemove (path : string)
| EvWget (url : string).

(** A duration as yt-dlp reports it: an [int] or a finite [float]. *)
Inductive Num : Type :=
| NInt (z : Z)
| NFloat (q : Q).

(** The metadata record returned by [extract_info], with the shapes yt-dlp
    gives to the keys the harvester reads. An absent key and a key bound
    to [None] are both [None] / [PNone]; [info.get('formats', [])] and
    [info.get('thumbnails', [])] are the lists themselves. *)
Record Info : Type := mkInfo {
  info_webpage_url : option string;
  info_age_limit : pyval;
  info_chapters : pyval;
  info_formats : list Dict;
  info_thumbnails : list Dict;
  info_duration : option Num
}.

(** The capabilities the program calls, over a world [W]. Each one maps
    the world before the call to its result and the world after it. *)
Record Env (W : Type) : Type := mkEnv {
  (** [YoutubeDL(opts).extract_info(url, download=False)]; [None] stands
      for a falsy result. *)
  ydl_extract_info : string -> option string -> W -> Outcome (option Info) * W;
  (** [YoutubeDL(opts).download([url])] in subtitle mode, together with
      the messages passed to the logger's [error]. *)
  ydl_download_subs :
    string -> list string -> bool -> option string -> W ->
    Outcome unit * list string * W;
  (** [glob.glob(os.path.join(tmpdir, "*.<lang>.json3"))] *)
  glob_json3 : string -> string -> W -> list string;
  (** [json.load(open(path))]; [None] when opening or decoding raises. *)
  read_json : string -> W -> option pyval;
  (** The paths that exist in the file system, finitely many. *)
  existing_paths : W -> list string;
  (** [json.dump(content, open(path, "w"))] *)
  write_json : string -> pyval -> W -> Outcome unit * W;
  (** What [_cleanup_paths] does to one path: a file is removed, a
      directory tree is removed, errors are ignored. *)
  remove_tree : string -> W -> W;
  (** [os.remove(path)] *)
  os_remove : string -> W -> Outcome unit * W;
  (** [api.list_repo_files(...)] *)
  list_repo_files : W -> Outcome (list string) * W;
  (** [upload_file(path_or_fileobj, path_in_repo, ...)] *)
  upload_file : string -> string -> W -> Outcome unit * W;
  (** [subprocess.run(["wget", "-P", TMP_DIR, url])] *)
  run_wget : string -> W -> Outcome unit * W;
  (** [time.time()] *)
  time_time : W -> Q * W;
  (** [time.perf_counter()] *)
  perf_counter : W -> Q * W;
  (** [datetime.now().isoformat()] *)
  now_isoformat : W -> string * W;
  (** [datetime.now().strftime("%Y-%m-%d")] *)
  now_date : W -> string * W
}.
Arguments ydl_extract_info {W} _ _ _ _.
Arguments ydl_download_subs {W} _ _ _ _ _ _.
Arguments glob_json3 {W} _ _ _ _.
Arguments read_json {W} _ _ _.
Arguments existing_paths {W} _ _.
Arguments write_json {W} _ _ _ _.
Arguments remove_tree {W} _ _ _.
Arguments os_remove {W} _ _ _.
Arguments list_repo_files {W} _ _.
Arguments upload_file {W} _ _ _ _.
Arguments run_wget {W} _ _ _.
Arguments time_time {W} _ _.
Arguments perf_counter {W} _ _.
Arguments now_isoformat {W} _ _.
Arguments now_date {W} _ _.

(** Program state: the world, the module-level globals of
    [main_yt_dlp.py] and the log of events, most recent last. *)
Record State (W : Type) : Type := mkState {
  world : W;
  COOKIE_MANAGER : CookieRotationManager;
  lcpt : option Q;
  lcdt : option Q;
  trace : list Event
}.
Arguments mkState {W} _ _ _ _ _.
Arguments world {W} _.
Arguments COOKIE_MANAGER {W} _.
Arguments lcpt {W} _.
Arguments lcdt {W} _.
Arguments trace {W} _.

(** A computation that may raise; effects made before the raise stay. *)
Definition M (W A : Type) : Type := State W -> Outcome A * State W.

Definition ret {W A} (a : A) : M W A := fun st => (Val a, st).

Definition raise {W A} (e : Exc) : M W A := fun st => (Exn e, st).

Definition bind {W A B} (c : M W A) (k : A -> M W B) : M W B :=
  fun st =>
    match c st with
    | (Val a, st') => k a st'
    | (Exn e, st') => (Exn e, st')
    end.

(** [try: c  except Exception as e: h e] *)
Definition try_except {W A} (c : M W A) (h : Exc -> M W A) : M W A :=
  fun st =>
    match c st with
    | (Val a, st') => (Val a, st')
    | (Exn e, st') => h e st'
    end.

Declare Scope py_scope.
Delimit Scope py_scope with py.
Notation "x <~ c ;; k" := (bind c (fun x => k))
  (at level 100, c at next level, right associativity) : py_scope.
Notation "c ;;; k" := (bind c (fun _ => k))
  (at level 100, right associativity) : py_scope.
Open Scope py_scope.

Definition lift {W A} (o : Outcome A) : M W A := fun st => (o, st).

Definition emit {W} (ev : Event) : M W unit :=
  fun st => (Val tt, mkState (world st) (COOKIE_MANAGER st) (lcpt st) (lcdt st)
                       (trace st ++ [ev])).

(** A call whose result and new world come from the environment. *)
Definition call {W A} (f : W -> Outcome A * W) : M W A :=
  fun st =>
    let '(r, w) := f (world st) in
    (r, mkState w (COOKIE_MANAGER st) (lcpt st) (lcdt st) (trace st)).

Definition call_total {W A} (f : W -> A * W) : M W A :=
  call (fun w => let '(a, w') := f w in (Val a, w')).

Definition ask {W A} (f : W -> A) : M W A :=
  fun st => (Val (f (world st)), st).

Definition get_manager {W} : M W CookieRotationManager :=
  fun st => (Val (COOKIE_MANAGER st), st).

Definition set_manager {W} (m : CookieRotationManager) : M W unit :=
  fun st => (Val tt, mkState (world st) m (lcpt st) (lcdt st) (trace st)).

Definition get_lcpt {W} : M W (option Q) := fun st => (Val (lcpt st), st).

Definition set_lcpt {W} (t : Q) : M W unit :=
  fun st => (Val tt, mkState (world st) (COOKIE_MANAGER st) (Some t) (lcdt st)
                       (trace st)).

Definition modify_world {W} (f : W -> W) : M W unit :=
  fun st => (Val tt, mkState (f (world st)) (COOKIE_MANAGER st) (lcpt st)
                       (lcdt st) (trace st)).

(** Run [c] and hand back what it did, raised exception included. *)
Definition catch {W A} (c : M W A) : M W (Outcome A) :=
  fun st => let '(r, st') := c st in (Val r, st').

(** Sequencing of pure computations that may raise. *)
Definition obind {A B} (o : Outcome A) (k : A -> Outcome B) : Outcome B :=
  match o with
  | Val a => k a
  | Exn e => Exn e
  end.
Notation "x <- c ;; k" := (obind c (fun x => k))
  (at level 100, c at next level, right associativity) : py_scope.

(** [round(x, 3)]: to the nearest thousandth, ties to even. *)
Definition round_half_even (q : Q) : Z :=
  let f := Qfloor q in
  let r := (q - inject_Z f)%Q in
  match (r ?= 1 # 2)%Q with
  | Lt => f
  | Gt => (f + 1)%Z
  | Eq => if Z.even f then f else (f + 1)%Z
  end.

Definition round3 (q : Q) : Q :=
  Qmake (round_half_even (q * 1000)%Q) 1000.

(* ===================================================================== *)
(** * utils/utils.py *)
(* ===================================================================== *)

(** [v.get(k)] *)
Definition py_get (k : string) (v : pyval) : Outcome pyval :=
  match v with
  | PDict d => Val (PyDict.get k PNone d)
  | _ => Exn (AttributeError_get v)
  end.

(** The items a [for] loop over [v] visits. *)
Definition py_iter (v : pyval) : Outcome (list pyval) :=
  match v with
  | PList l => Val l
  | PStr s => Val (map (fun c => PStr (String c "")) (list_ascii_of_string s))
  | PDict d => Val (map (fun kv => PStr (fst kv)) d)
  | _ => Exn (TypeError_iter v)
  end.

(** [''.join(parts)], [i] being the index of the head of [parts]. *)
Fixpoint join_empty (i : nat) (parts : list pyval) : Outcome string :=
  match parts with
  | [] => Val ""
  | PStr s :: rest => t <- join_empty (S i) rest ;; Val (s ++ t)
  | v :: _ => Exn (TypeError_join i v)
  end.

(** The inner loop of [_parse_json3_to_text]: [text_parts]. *)
Fixpoint text_parts_of (segs : list pyval) : Outcome (list pyval) :=
  match segs with
  | [] => Val []
  | s :: rest =>
      u <- py_get "utf8" s ;;
      let t := py_or u (PStr "") in
      parts <- text_parts_of rest ;;
      Val (if truthy t then t :: parts else parts)
  end.

(** The outer loop of [_parse_json3_to_text]: [chunks]. *)
Fixpoint chunks_of (events : list pyval) : Outcome (list string) :=
  match events with
  | [] => Val []
  | ev :: rest =>
      sg <- py_get "segs" ev ;;
      let segs := py_or sg (PList []) in
      if negb (truthy segs) then chunks_of rest
      else
        items <- py_iter segs ;;
        text_parts <- text_parts_of items ;;
        match text_parts with
        | [] => chunks_of rest
        | _ =>
            chunk <- join_empty 0 text_parts ;;
            chunks <- chunks_of rest ;;
            Val (chunk :: chunks)
        end
  end.

(** Regex [\s] and [str.isspace] on code points below 256. *)
Definition is_space (c : ascii) : bool :=
  let n := PyStr.code c in
  (((9 <=? n) && (n <=? 13)) || ((28 <=? n) && (n <=? 32))
   || (n =? 133) || (n =? 160))%N.

(** [re.sub(r"\s+", " ", s)]; [in_run] tells that the previous character
    was white space. *)
Fixpoint collapse_spaces (in_run : bool) (s : string) : string :=
  match s with
  | EmptyString => EmptyString
  | String c t =>
      if is_space c
      then if in_run then collapse_spaces true t
           else String " " (collapse_spaces true t)
      else String c (collapse_spaces false t)
  end.

Fixpoint lstrip (s : string) : string :=
  match s with
  | EmptyString => EmptyString
  | String c t => if is_space c then lstrip t else s
  end.

Fixpoint rstrip (s : string) : string :=
  match s with
  | EmptyString => EmptyString
  | String c t =>
      let r := rstrip t in
      if is_space c && String.eqb r "" then EmptyString else String c r
  end.

Definition strip (s : string) : string := rstrip (lstrip s).

(** [content] is what [json.load] returned, [None] when the file could not
    be opened or decoded. *)
Definition _parse_json3_to_text (content : option pyval) : Outcome string :=
  match content with
  | None => Val ""
  | Some data =>
      ev <- py_get "events" data ;;
      events <- py_iter (py_or ev (PList [])) ;;
      chunks <- chunks_of events ;;
      Val (strip (collapse_spaces false (String.concat " " chunks)))
  end.

(** The fixed directory the subtitle files are written to. *)
Definition SUBS_TMPDIR : string := "_yt_dlp/.tmp".

(** What the logger's [error] method looks for. *)
Definition logs_429 (msg : string) : bool :=
  PyStr.str_in "429" msg || PyStr.str_in "Too Many Requests" msg.

(** A value that is [None] or a [str], seen through an [if] test: the
    string when it is truthy. Used for [if cookie: opts['cookiefile'] =
    cookie], [if next_cookie:] and [webpage_url or video_url]. *)
Definition truthy_str (s : option string) : option string :=
  match s with
  | Some c => if String.eqb c "" then None else Some c
  | None => None
  end.

Section Utils.
Context {W : Type} (E : Env W).

Fixpoint _cleanup_paths (paths : list string) : M W unit :=
  match paths with
  | [] => ret tt
  | p :: rest =>
      (if String.eqb p "" then ret tt
       else emit (EvCleanup p) ;;; modify_world (remove_tree E p)) ;;;
      _cleanup_paths rest
  end.

(** The loop that fills [lang_to_text]. *)
Fixpoint collect_lang_texts (tmpdir : string) (languages : list string)
    (lang_to_text : Dict) : M W Dict :=
  match languages with
  | [] => ret lang_to_text
  | lang :: rest =>
      candidates <~ ask (glob_json3 E tmpdir lang) ;;
      match candidates with
      | [] => collect_lang_texts tmpdir rest lang_to_text
      | first :: _ =>
          content <~ ask (read_json E first) ;;
          text <~ lift (_parse_json3_to_text content) ;;
          collect_lang_texts tmpdir rest
            (PyDict.set lang (PStr text) lang_to_text)
      end
  end.

(** The jitter sleep only passes time and is left out. An exception of
    the download is swallowed; one of the parsing loop is not. *)
Definition _download_subtitles_via_api (url : string) (languages : list string)
    (manual : bool) (cookies_file : option string)
  : M W (Dict * string * Q * bool) :=
  let tmpdir := SUBS_TMPDIR in
  t0 <~ call_total (perf_counter E) ;;
  emit (EvDownloadSubs url (truthy_str cookies_file)) ;;;
  msgs <~ (fun st =>
             let '(_, msgs, w) :=
               ydl_download_subs E url languages manual
                 (truthy_str cookies_file) (world st) in
             (Val msgs, mkState w (COOKIE_MANAGER st) (lcpt st) (lcdt st)
                          (trace st))) ;;
  let saw_429 := existsb logs_429 msgs in
  lang_to_text <~ collect_lang_texts tmpdir languages [] ;;
  t1 <~ call_total (perf_counter E) ;;
  ret (lang_to_text, tmpdir, round3 (t1 - t0)%Q, saw_429).

End Utils.

(* ===================================================================== *)
(** * core/yt_dlp_fetcher.py *)
(* ===================================================================== *)

Definition unavailable_indicators : list string :=
  [ "video unavailable"; "this video is no longer available";
    "copyright claim"; "copyright"; "unavailable"; "private video";
    "this video is private"; "video is private"; "not available";
    "blocked in your country" ].

Definition timeout_indicators : list string :=
  [ "timeout"; "timed out"; "connection timed out"; "socket timeout" ].

Definition dict_of (v : pyval) : Dict :=
  match v with PDict d => d | _ => [] end.

Definition opt_str (o : option string) : pyval :=
  match o with Some s => PStr s | None => PNone end.

(** The initial [timings] dictionary. *)
Definition timings0 : Dict :=
  [ ("extract_info_seconds", PNone);
    ("captions_seconds_total", PFloat 0);
    ("captions_per_lang", PDict []);
    ("total_seconds", PNone) ].

(** [for lang in languages: ...] after the caption call: the loop updates
    [result['automatic_captions']] and [timings['captions_per_lang']]. *)
Fixpoint captions_loop (languages : list string) (auto_map : Dict)
    (auto_sec : Q) (result timings : Dict) : Dict * Dict :=
  match languages with
  | [] => (result, timings)
  | lang :: rest =>
      let txt_a :=
        match auto_map with
        | [] => PNone
        | _ => PyDict.get lang PNone auto_map
        end in
      let entry :=
        PDict [ ("manual_seconds", PFloat 0);
                ("auto_seconds", PFloat auto_sec);
                ("chosen", PStr (if truthy txt_a then "auto" else "")) ] in
      let timings :=
        PyDict.set "captions_per_lang"
          (PDict (PyDict.set lang entry
                    (dict_of (PyDict.get "captions_per_lang" PNone timings))))
          timings in
      let result :=
        if truthy txt_a
        then PyDict.set "automatic_captions"
               (PDict (PyDict.set lang txt_a
                         (dict_of (PyDict.get "automatic_captions" PNone result))))
               result
        else result in
      captions_loop rest auto_map auto_sec result timings
  end.

(** [v and v != 'none'] *)
Definition codec_present (v : pyval) : bool :=
  truthy v && negb (eq_str v "none").

Definition is_storyboard (fmt : Dict) : bool :=
  eq_str (PyDict.get "format_note" (PStr "") fmt) "storyboard".

(** The format passes the test of the loop: not a storyboard, and both
    codecs present. *)
Definition is_full_video (fmt : Dict) : bool :=
  negb (is_storyboard fmt)
  && codec_present (PyDict.get "vcodec" (PStr "none") fmt)
  && codec_present (PyDict.get "acodec" (PStr "none") fmt).

(** [clean_fmt] once all nine keys are set. *)
Definition clean_format (fmt : Dict) : Dict :=
  let get k := PyDict.get k (PStr "none") fmt in
  PyDict.set "format" (get "format")
  (PyDict.set "resolution" (get "resolution")
  (PyDict.set "audio_ext" (get "audio_ext")
  (PyDict.set "video_ext" (get "video_ext")
  (PyDict.set "ext" (get "ext")
  (PyDict.set "fps" (get "fps")
  (PyDict.set "format_id" (get "format_id")
  (PyDict.set "acodec" (get "acodec")
  (PyDict.set "vcodec" (get "vcodec") [])))))))).

(** [for fmt in formats: ...] with [full_video_formats] as accumulator. *)
Fixpoint formats_loop (formats : list Dict) (full_video_formats : list pyval)
  : list pyval :=
  match formats with
  | [] => full_video_formats
  | fmt :: rest =>
      if is_storyboard fmt then formats_loop rest full_video_formats
      else
        let clean_fmt :=
          PyDict.set "acodec" (PyDict.get "acodec" (PStr "none") fmt)
            (PyDict.set "vcodec" (PyDict.get "vcodec" (PStr "none") fmt) []) in
        if codec_present (PyDict.get "vcodec" PNone clean_fmt)
           && codec_present (PyDict.get "acodec" PNone clean_fmt)
        then formats_loop rest (full_video_formats ++ [PDict (clean_format fmt)])
        else formats_loop rest full_video_formats
  end.

(** [l[-2:]] *)
Definition last_two {A} (l : list A) : list A :=
  skipn (List.length l - 2) l.

(** [result['formats']] *)
Definition formats_field (formats : list Dict) : list pyval :=
  last_two (formats_loop formats []).

(** The specification's wording of the same field: of the formats that pass the
    audio-and-video test, in their original order, the last two at most. *)
Definition last_at_most {A} (n : nat) (l : list A) : list A :=
  rev (firstn n (rev l)).

Definition spec_formats (formats : list Dict) : list Dict :=
  last_at_most 2 (List.filter is_full_video formats).

(** [result['thumbnails_ytdlp']] *)
Definition thumbnails_field (thumbnails : list Dict) : list pyval :=
  map PDict
    (List.filter (fun thumb => eq_int (PyDict.get "preference" PNone thumb) (-1))
       thumbnails).

(** [bool(duration)] *)
Definition duration_truthy (d : option Num) : bool :=
  match d with
  | None => false
  | Some (NInt z) => negb (z =? 0)%Z
  | Some (NFloat q) => negb (Qnum q =? 0)%Z
  end.

(** [int(duration)]: truncation towards zero. *)
Definition int_of_num (d : Num) : Z :=
  match d with
  | NInt z => z
  | NFloat q => Z.quot (Qnum q) (Zpos (Qden q))
  end.

(** [if duration: result['duration_seconds'] = int(duration)] *)
Definition set_duration (duration : option Num) (result : Dict) : Dict :=
  match duration with
  | Some d =>
      if duration_truthy duration
      then PyDict.set "duration_seconds" (PInt (int_of_num d)) result
      else result
  | None => result
  end.

(** Lines 83-126: chapters, formats, thumbnails and duration are copied
    from [info] into [result]. *)
Definition project_info (info : Info) (result : Dict) : Dict :=
  let result := PyDict.set "chapters" (info_chapters info) result in
  let result :=
    PyDict.set "formats" (PList (formats_field (info_formats info))) result in
  let result :=
    PyDict.set "thumbnails_ytdlp"
      (PList (thumbnails_field (info_thumbnails info))) result in
  set_duration (info_duration info) result.

(** What the [except] clause decides. *)
Inductive Action : Type :=
| ReturnEmpty
| Continue.

Definition max_attempts_of (m : CookieRotationManager) : nat :=
  match cookie_files m with
  | [] => 1
  | files => Nat.max 1 (List.length files)
  end.

Section Fetcher.
Context {W : Type} (E : Env W).

(** The [except Exception as e] clause of attempt [attempt]. *)
Definition on_exception (attempt max_attempts : nat) (e : Exc) : M W Action :=
  let error_str := PyStr.lower (exc_msg e) in
  let is_unavailable := PyStr.any_in unavailable_indicators error_str in
  if is_unavailable then ret ReturnEmpty
  else
    let is_timeout := PyStr.any_in timeout_indicators error_str in
    let is_blocked := is_blocked_error e in
    if (is_timeout || is_blocked) && (attempt <? max_attempts - 1)%nat
    then
      m <~ get_manager ;;
      let '(m', next) := rotate_to_next m in
      set_manager m' ;;;
      next_cookie <~ lift next ;;
      match truthy_str next_cookie with
      | Some _ => ret Continue
      | None => ret ReturnEmpty
      end
    else ret ReturnEmpty.

(** The body of the [try] block once [info] is there. It returns the
    local dictionaries [result] and [timings] as the block leaves them,
    and how it leaves: [Val r] for [return r], [Exn e] for a raise. The
    throttle sleep only passes time and is left out. *)
Definition after_info (video_url : string) (total_start : Q) (info : Info)
    (result timings : Dict) : M W (Dict * Dict * Outcome Dict) :=
  let result := PyDict.set "webpage_url" (opt_str (info_webpage_url info)) result in
  let result := PyDict.set "age_limit" (info_age_limit info) result in
  catptions_start_time <~ call_total (perf_counter E) ;;
  let result := PyDict.set "subtitles" (PDict []) result in
  let result := PyDict.set "automatic_captions" (PDict []) result in
  let languages := ["en"; "ru"] in
  let url :=
    match truthy_str (info_webpage_url info) with
    | Some u => u
    | None => video_url
    end in
  captions <~ catch (m <~ get_manager ;;
                     cookie_file <~ lift (get_current_cookie m) ;;
                     _download_subtitles_via_api E url languages false cookie_file) ;;
  match captions with
  | Exn e => ret (result, timings, Exn e)
  | Val (auto_map, tmpdir_auto, auto_sec, _) =>
      let '(result, timings) :=
        captions_loop languages auto_map auto_sec result timings in
      _cleanup_paths E [tmpdir_auto] ;;;
      t <~ call_total (perf_counter E) ;;
      let timings :=
        PyDict.set "captions_seconds_total"
          (PFloat (round3 (t - catptions_start_time)%Q)) timings in
      let result := project_info info result in
      t <~ call_total (perf_counter E) ;;
      let timings :=
        PyDict.set "total_seconds" (PFloat (round3 (t - total_start)%Q)) timings in
      let result := PyDict.set "timings_ytdlp" (PDict timings) result in
      ret (result, timings, Val result)
  end.

(** The whole [try] block of one attempt. *)
Definition try_block (video_url : string) (total_start : Q)
    (current_cookie : option string) (result timings : Dict)
  : M W (Dict * Dict * Outcome Dict) :=
  t0 <~ call_total (perf_counter E) ;;
  emit (EvExtract video_url (truthy_str current_cookie)) ;;;
  extracted <~ catch (call (ydl_extract_info E video_url
                              (truthy_str current_cookie))) ;;
  match extracted with
  | Exn e => ret (result, timings, Exn e)
  | Val info =>
      t <~ call_total (perf_counter E) ;;
      let timings :=
        PyDict.set "extract_info_seconds" (PFloat (round3 (t - t0)%Q)) timings in
      match info with
      | None => ret (result, timings, Val [])
      | Some info => after_info video_url total_start info result timings
      end
  end.

(** [for attempt in range(max_attempts): ...], [attempts] being the
    attempts still to make. *)
Fixpoint attempts_loop (video_url : string) (total_start : Q)
    (max_attempts : nat) (attempts : list nat) (result timings : Dict)
  : M W Dict :=
  match attempts with
  | [] => ret []
  | attempt :: rest =>
      m <~ get_manager ;;
      current_cookie <~ lift (get_current_cookie m) ;;
      left <~ try_block video_url total_start current_cookie result timings ;;
      let '(result, timings, how) := left in
      match how with
      | Val r => ret r
      | Exn e =>
          action <~ on_exception attempt max_attempts e ;;
          match action with
          | ReturnEmpty => ret []
          | Continue =>
              attempts_loop video_url total_start max_attempts rest
                result timings
          end
      end
  end.

(** The cookie manager is [COOKIE_MANAGER] of the state. *)
Definition fetch_from_ytdlp (video_url : string) : M W Dict :=
  total_start <~ call_total (perf_counter E) ;;
  m <~ get_manager ;;
  let max_attempts := max_attempts_of m in
  attempts_loop video_url total_start max_attempts (seq 0 max_attempts)
    [] timings0.

End Fetcher.

(* ===================================================================== *)
(** * main_yt_dlp.py *)
(* ===================================================================== *)

Definition REPO_ID : string := "Ilialebedev/yt_dlp".
Definition TMP_DIR : string := "tmp_dir".
Definition PROGRESS_PATH : string := "progress.json".
Definition DATA_FILE_SIZE : nat := 500.

Definition video_id_to_url (video_id : string) : string :=
  "https://www.youtube.com/watch?v=" ++ video_id.

(** The [payload] of [save_progress]. *)
Definition progress_payload (processed_ids : gset string) : Dict :=
  [ ("processed_video_ids",
     PList (map PStr (PyStr.sorted (elements processed_ids))));
    ("count", PInt (Z.of_nat (size processed_ids))) ].

(** [bool(lcpt)] for a global that is [None] or a [float]. *)
Definition stamp_truthy (stamp : option Q) : bool :=
  match stamp with
  | Some t => negb (Qnum t =? 0)%Z
  | None => false
  end.

(** [t - stamp > 150] *)
Definition gate_open (t stamp : Q) : bool :=
  match (t - stamp ?= 150)%Q with
  | Gt => true
  | _ => false
  end.

Definition AttributeError_items (v : pyval) : Exc :=
  mkExc "AttributeError"
        ("'" ++ type_name v ++ "' object has no attribute 'items'").

Definition TypeError_setitem (v : pyval) : Exc :=
  mkExc "TypeError"
        (match v with
         | PList _ => "list indices must be integers or slices, not str"
         | _ => "'" ++ type_name v ++ "' object does not support item assignment"
         end).

Definition UnboundLocalError (name : string) : Exc :=
  mkExc "UnboundLocalError"
        ("cannot access local variable '" ++ name
         ++ "' where it is not associated with a value").

(** [sum(1 for k, v in d.items() if k != "_metadata" and isinstance(v, dict))] *)
Definition count_videos (d : Dict) : nat :=
  List.length
    (List.filter (fun kv => negb (String.eqb (fst kv) "_metadata") && is_dict (snd kv))
       d).

Definition video_count (data : pyval) : Outcome nat :=
  match data with
  | PDict d => Val (count_videos d)
  | _ => Exn (AttributeError_items data)
  end.

(** [data[key] = value] *)
Definition py_setitem (key : string) (value : pyval) (data : pyval)
  : Outcome pyval :=
  match data with
  | PDict d => Val (PDict (PyDict.set key value d))
  | _ => Exn (TypeError_setitem data)
  end.

Definition data_filename (date_str : string) (counter : nat) : string :=
  if (counter =? 1)%nat then "data_" ++ date_str ++ ".json"
  else "data_" ++ date_str ++ "_" ++ PyStr.of_nat counter ++ ".json".

(** [os.path.join(TMP_DIR, filename)] *)
Definition in_tmp_dir (filename : string) : string :=
  TMP_DIR ++ "/" ++ filename.

(** The [while True] loop of [get_next_data_file_path], started at
    [counter]: the first path that is not among [existing]. [fuel] bounds
    the number of counters tried. *)
Fixpoint first_free_path (fuel : nat) (existing : list string)
    (date_str : string) (counter : nat) : option string :=
  match fuel with
  | O => None
  | S fuel' =>
      let p := in_tmp_dir (data_filename date_str counter) in
      if PyStr.mem p existing
      then first_free_path fuel' existing date_str (S counter)
      else Some p
  end.

(** A shard as [load_data_file] makes it when there is no file. *)
Definition fresh_shard (created_at : string) : pyval :=
  PDict [ ("_metadata", PDict [ ("created_at", PStr created_at) ]) ].

(** The state of the loop of [process_videos]. *)
Record Batch : Type := mkBatch {
  processed_ids : gset string;
  processed_count : nat;
  current_data_file : string;
  current_data : pyval
}.

Section Main.
Context {W : Type} (E : Env W).

(** [os.path.exists(path)] *)
Definition path_exists (path : string) : M W bool :=
  ask (fun w => PyStr.mem path (existing_paths E w)).

(** [json.dump] into the file at [path]. *)
Definition dump_json (path : string) (content : pyval) : M W unit :=
  emit (EvWrite path content) ;;; call (write_json E path content).

(** [upload_file(path_or_fileobj=path, path_in_repo=name, ...)] *)
Definition do_upload (path name : string) : M W unit :=
  emit (EvUpload path name) ;;; call (upload_file E path name).

Definition save_progress (processed : gset string) : M W unit :=
  try_except
    (let payload := progress_payload processed in
     dump_json PROGRESS_PATH (PDict payload) ;;;
     t <~ call_total (time_time E) ;;
     stamp <~ get_lcpt ;;
     if stamp_truthy stamp
     then
       match stamp with
       | Some l =>
           if gate_open t l
           then do_upload PROGRESS_PATH "progress.json" ;;; set_lcpt t
           else ret tt
       | None => ret tt
       end
     else set_lcpt t)
    (fun _ => ret tt).

Definition get_existing_data_files : M W (list string) :=
  l <~ call (list_repo_files E) ;;
  ret (PyStr.sorted
         (List.filter
            (fun file => PyStr.startswith "data_" file
                         && PyStr.endswith ".json" file) l)).

(** The [try] block of [get_next_data_file_path]: [Some p] when it
    returns [p], [None] when it falls through to the naming loop. *)
Definition try_last_file (last_file : string) : M W (option string) :=
  emit (EvWget ("https://huggingface.co/datasets/" ++ REPO_ID
                ++ "/resolve/main/" ++ last_file)) ;;;
  call (run_wget E ("https://huggingface.co/datasets/" ++ REPO_ID
                    ++ "/resolve/main/" ++ last_file)) ;;;
  let p := TMP_DIR ++ "/" ++ last_file in
  content <~ ask (read_json E p) ;;
  match content with
  | None => raise (mkExc "OSError" p)
  | Some data =>
      video_count <~ lift (video_count data) ;;
      if (video_count <? DATA_FILE_SIZE)%nat then ret (Some p)
      else
        do_upload p last_file ;;;
        emit (EvRemove p) ;;;
        call (os_remove E p) ;;;
        ret None
  end.

Definition get_next_data_file_path : M W string :=
  existing_files <~ get_existing_data_files ;;
  reused <~
    match List.last (map Some existing_files) None with
    | Some last_file =>
        try_except (try_last_file last_file) (fun _ => ret None)
    | None => ret None
    end ;;
  match reused with
  | Some p => ret p
  | None =>
      date_str <~ call_total (now_date E) ;;
      existing <~ ask (existing_paths E) ;;
      match first_free_path (S (List.length existing)) existing date_str 1 with
      | Some p => ret p
      | None => raise (mkExc "RuntimeError" "naming loop out of fuel")
      end
  end.

Definition load_data_file (file_path : string) : M W pyval :=
  there <~ path_exists file_path ;;
  if negb there
  then created_at <~ call_total (now_isoformat E) ;; ret (fresh_shard created_at)
  else
    content <~ ask (read_json E file_path) ;;
    match content with
    | Some data => ret data
    | None =>
        created_at <~ call_total (now_isoformat E) ;;
        ret (fresh_shard created_at)
    end.

(** Reading a name that the function body assigns somewhere, hence a
    local one, before any assignment was made. *)
Definition read_local {A} (name : string) (slot : option A) : M W A :=
  match slot with
  | Some v => ret v
  | None => raise (UnboundLocalError name)
  end.

(** The statements of [save_data_file] after the metadata update.
    [lcdt] is assigned in the body and there is no [global lcdt], so the
    name is local to the call; [lcdt_local] is its slot, empty on entry. *)
Definition write_and_gate (file_path : string) (data : pyval) : M W unit :=
  let lcdt_local : option (option Q) := None in
  dump_json file_path data ;;;
  t <~ call_total (time_time E) ;;
  let fname := PyStr.last_segment file_path in
  stamp <~ read_local "lcdt" lcdt_local ;;
  if stamp_truthy stamp
  then
    match stamp with
    | Some l =>
        if gate_open t l then do_upload file_path fname else ret tt
    | None => ret tt
    end
  else ret tt.

(** [data] is the caller's dictionary object: the function returns it as
    the call leaves it. A value that is not a dictionary makes the first
    statements raise a [TypeError], which the [except] clause prints. *)
Definition save_data_file (file_path : string) (data : pyval) : M W pyval :=
  match data with
  | PDict d =>
      let d1 :=
        if PyDict.has "_metadata" d then d
        else PyDict.set "_metadata" (PDict []) d in
      updated <~ catch (now <~ call_total (now_isoformat E) ;;
                        lift (py_setitem "updated_at" (PStr now)
                                (PyDict.get "_metadata" PNone d1))) ;;
      match updated with
      | Exn _ => ret (PDict d1)
      | Val metadata =>
          let d2 := PyDict.set "_metadata" metadata d1 in
          try_except (write_and_gate file_path (PDict d2)) (fun _ => ret tt) ;;;
          ret (PDict d2)
      end
  | _ => ret data
  end.

(** Lines 302-327 of the loop body: fetch, store, mark processed. *)
Definition store_result (video_id : string) (b : Batch) : M W Batch :=
  data <~ fetch_from_ytdlp E (video_id_to_url video_id) ;;
  current <~
    match data with
    | [] => ret (current_data b)
    | _ => lift (py_setitem video_id (PDict data) (current_data b))
    end ;;
  ret (mkBatch ({[video_id]} ∪ processed_ids b) (S (processed_count b))
         (current_data_file b) current).

(** Lines 330-337: every [batch_size] videos, save progress and shard. *)
Definition checkpoint (b : Batch) : M W Batch :=
  if (processed_count b mod 20 =? 0)%nat
  then
    save_progress (processed_ids b) ;;;
    lift (video_count (current_data b)) ;;;
    current <~ save_data_file (current_data_file b) (current_data b) ;;
    ret (mkBatch (processed_ids b) (processed_count b) (current_data_file b)
           current)
  else ret b.

(** Lines 340-350: move to the next data file when the shard is full. *)
Definition rollover (b : Batch) : M W Batch :=
  video_count_in_file <~ lift (video_count (current_data b)) ;;
  if (DATA_FILE_SIZE <=? video_count_in_file)%nat
  then
    (if negb (processed_count b mod 20 =? 0)%nat
     then save_data_file (current_data_file b) (current_data b)
     else ret (current_data b)) ;;;
    file <~ get_next_data_file_path ;;
    data <~ load_data_file file ;;
    ret (mkBatch (processed_ids b) (processed_count b) file data)
  else ret b.

Definition loop_body (video_id : string) (b : Batch) : M W Batch :=
  b1 <~ store_result video_id b ;;
  b2 <~ checkpoint b1 ;;
  rollover b2.

Fixpoint process_loop (video_ids : list string) (b : Batch) : M W Batch :=
  match video_ids with
  | [] => ret b
  | video_id :: rest => b' <~ loop_body video_id b ;; process_loop rest b'
  end.

Definition process_videos (video_ids_to_process : list string)
    (processed : gset string) (data_file : string) (data : pyval)
  : M W Batch :=
  process_loop video_ids_to_process (mkBatch processed 0 data_file data).

(** The loop states that a run of [process_loop] goes through, in order:
    at the head of each iteration, after the store, after the checkpoint. *)
Fixpoint loop_points (video_ids : list string) (b : Batch) (st : State W)
  : list Batch :=
  b ::
  match video_ids with
  | [] => []
  | video_id :: rest =>
      match store_result video_id b st with
      | (Val b1, st1) =>
          b1 ::
          match checkpoint b1 st1 with
          | (Val b2, st2) =>
              b2 ::
              match rollover b2 st2 with
              | (Val b3, st3) => loop_points rest b3 st3
              | (Exn _, _) => []
              end
          | (Exn _, _) => []
          end
      | (Exn _, _) => []
      end
  end.

End Main.

(* ===================================================================== *)
(** * Small worlds to run the program in *)
(* ===================================================================== *)

Module Examples.

(** A world without state: every capability answers the same way each
    time it is called. *)
Definition fixed_env
    (extract : string -> option string -> Outcome (option Info))
    (subs : Outcome unit * list string)
    (glob : string -> list string)
    (json : string -> option pyval)
    (existing remote : list string)
    (clock : Q) : Env unit :=
  {| ydl_extract_info := fun url cookie w => (extract url cookie, w);
     ydl_download_subs := fun _ _ _ _ w => (subs, w);
     glob_json3 := fun _ lang _ => glob lang;
     read_json := fun path _ => json path;
     existing_paths := fun _ => existing;
     write_json := fun _ _ w => (Val tt, w);
     remove_tree := fun _ w => w;
     os_remove := fun _ w => (Val tt, w);
     list_repo_files := fun w => (Val remote, w);
     upload_file := fun _ _ w => (Val tt, w);
     run_wget := fun _ w => (Val tt, w);
     time_time := fun w => (clock, w);
     perf_counter := fun w => (clock, w);
     now_isoformat := fun w => ("2024-01-01T00:00:00", w);
     now_date := fun w => ("2024-01-01", w) |}.

(** Nothing on disk, nothing remote, extraction finds nothing. *)
Definition quiet_env (clock : Q) : Env unit :=
  fixed_env (fun _ _ => Val None) (Val tt, []) (fun _ => [])
    (fun _ => None) [] [] clock.

Definition start (m : CookieRotationManager) (stamp : option Q) : State unit :=
  mkState tt m stamp None [].

(** A world with a local disk and a remote store, both maps from names to
    JSON contents. [wget] copies a remote file under [TMP_DIR]; when a
    file of that name is already there it writes beside it, as wget
    does. *)
Record Disk : Type := mkDisk { local_files : Dict; remote_files : Dict }.

Definition remove_key (k : string) (d : Dict) : Dict :=
  List.filter (fun kv => negb (String.eqb (fst kv) k)) d.

Definition disk_env
    (extract : string -> option string -> Outcome (option Info))
    (clock : Q) : Env Disk :=
  {| ydl_extract_info := fun url cookie w => (extract url cookie, w);
     ydl_download_subs := fun _ _ _ _ w => (Val tt, [], w);
     glob_json3 := fun _ _ _ => [];
     read_json := fun path w => PyDict.lookup path (local_files w);
     existing_paths := fun w => map fst (local_files w);
     write_json := fun path content w =>
       (Val tt, mkDisk (PyDict.set path content (local_files w))
                  (remote_files w));
     remove_tree := fun path w =>
       mkDisk (remove_key path (local_files w)) (remote_files w);
     os_remove := fun path w =>
       (Val tt, mkDisk (remove_key path (local_files w)) (remote_files w));
     list_repo_files := fun w => (Val (map fst (remote_files w)), w);
     upload_file := fun path name w =>
       match PyDict.lookup path (local_files w) with
       | Some content =>
           (Val tt, mkDisk (local_files w)
                      (PyDict.set name content (remote_files w)))
       | None => (Exn (mkExc "FileNotFoundError" path), w)
       end;
     run_wget := fun url w =>
       let name := PyStr.last_segment url in
       let p := TMP_DIR ++ "/" ++ name in
       match PyDict.lookup name (remote_files w) with
       | Some content =>
           (Val tt,
            mkDisk (PyDict.set (if PyDict.has p (local_files w)
                                then p ++ ".1" else p)
                      content (local_files w))
              (remote_files w))
       | None => (Val tt, w)
       end;
     time_time := fun w => (clock, w);
     perf_counter := fun w => (clock, w);
     now_isoformat := fun w => ("2024-01-01T00:00:00", w);
     now_date := fun w => ("2024-01-01", w) |}.

End Examples.

(* ===================================================================== *)
(** * States and worlds named in the statements *)
(* ===================================================================== *)

(** The state an attempt is left in when [extract_info] raises and the
    world is then [w]: one more event, nothing else touched. *)
Definition after_failed_extract {W} (video_url : string)
    (cookie : option string) (w : W) (st : State W) : State W :=
  mkState w (COOKIE_MANAGER st) (lcpt st) (lcdt st)
    (trace st ++ [EvExtract video_url (truthy_str cookie)]).

(** [result['duration_seconds']] in the amended statement: the truncated
    duration when one is reported and is not zero, no entry otherwise. *)
Definition duration_entry (duration : option Num) : option pyval :=
  match duration with
  | Some d => if duration_truthy duration then Some (PInt (int_of_num d)) else None
  | None => None
  end.

(** The nine keys of a persisted format, in the order the loop sets
    them. *)
Definition format_keys : list string :=
  [ "vcodec"; "acodec"; "format_id"; "fps"; "ext"; "video_ext"; "audio_ext";
    "resolution"; "format" ].

(** The specification's wording of a persisted format: [entry] has the
    nine keys and no other, each with the value the format [fmt] has for
    it, the string 'none' when the format has none. *)
Definition persisted_format (fmt entry : Dict) : Prop :=
  map fst entry = format_keys
  /\ forall k, In k format_keys ->
       PyDict.lookup k entry
       = Some (match PyDict.lookup k fmt with
               | Some v => v
               | None => PStr "none"
               end).

(** The format names a codec under [k]: the entry is there, it is not a
    falsy value and it is not the string 'none'. *)
Definition names_codec (k : string) (fmt : Dict) : Prop :=
  exists v, PyDict.lookup k fmt = Some v
            /\ truthy v = true /\ v <> PStr "none".

(** The specification's wording of the filter: not a storyboard, and
    both a video codec and an audio codec. *)
Definition audio_and_video (fmt : Dict) : Prop :=
  PyDict.lookup "format_note" fmt <> Some (PStr "storyboard")
  /\ names_codec "vcodec" fmt
  /\ names_codec "acodec" fmt.

(** The facts about a returned record that the specification speaks of. *)
Definition projects (info : Info) (r : Dict) : Prop :=
  r <> []
  /\ PyDict.lookup "formats" r = Some (PList (formats_field (info_formats info)))
  /\ PyDict.lookup "thumbnails_ytdlp" r
     = Some (PList (thumbnails_field (info_thumbnails info)))
  /\ PyDict.lookup "duration_seconds" r = duration_entry (info_duration info).

(** The shard is a dictionary with at most [n] video entries. *)
Definition holds_at_most (n : nat) (data : pyval) : Prop :=
  exists d, data = PDict d /\ count_videos d <= n.

(** The events added between two states of one run. *)
Definition new_events {W} (st st' : State W) : list Event :=
  drop (List.length (trace st)) (trace st').

(** A computation only adds events to the trace. *)
Definition grows {W A} (c : M W A) : Prop :=
  forall st o st', c st = (o, st') ->
    exists rest, trace st' = (trace st ++ rest)%list.

(** The [_metadata] entry of a shard is absent or a dictionary, so that
    [save_data_file] can stamp it. *)
Definition metadata_ok (d : Dict) : Prop :=
  match PyDict.lookup "_metadata" d with
  | None | Some (PDict _) => True
  | Some _ => False
  end.

Module Scenario.

(** Extraction always raises [e]. *)
Definition raising (e : Exc) : Env unit :=
  Examples.fixed_env (fun _ _ => Exn e) (Val tt, []) (fun _ => [])
    (fun _ => None) [] [] 0.

Definition two_cookies : State unit :=
  Examples.start (mkManager ["a.txt"; "b.txt"] 0) None.

Definition unavailable_403 : Exc :=
  mkExc "DownloadError"
        "ERROR: [youtube] abc: Video unavailable (HTTP Error 403: Forbidden)".

Definition other_error : Exc := mkExc "KeyError" "'entries'".

(** One format descriptor. *)
Definition format_of (format_id note vcodec acodec : string) : Dict :=
  [ ("format_id", PStr format_id); ("format_note", PStr note);
    ("vcodec", PStr vcodec); ("acodec", PStr acodec); ("ext", PStr "mp4") ].

(** What is persisted of [format_of format_id note vcodec acodec]. *)
Definition persisted_of (format_id vcodec acodec : string) : Dict :=
  [ ("vcodec", PStr vcodec); ("acodec", PStr acodec);
    ("format_id", PStr format_id); ("fps", PStr "none"); ("ext", PStr "mp4");
    ("video_ext", PStr "none"); ("audio_ext", PStr "none");
    ("resolution", PStr "none"); ("format", PStr "none") ].

(** Five formats of which the second and the fourth carry audio and
    video. *)
Definition five_formats : list Dict :=
  [ format_of "140" "medium" "none" "mp4a.40.2";
    format_of "18" "360p" "avc1.42001E" "mp4a.40.2";
    format_of "137" "1080p" "avc1.640028" "none";
    format_of "22" "720p" "avc1.64001F" "mp4a.40.2";
    format_of "sb0" "storyboard" "none" "none" ].

Definition info_with (formats : list Dict) (duration : option Num) : Info :=
  mkInfo (Some "https://www.youtube.com/watch?v=abcd1234efg") (PInt 0) PNone
    formats [ [("preference", PInt (-1))] ] duration.

(** Extraction always returns [info]; no caption file is found. *)
Definition one_video (info : Info) : Env unit :=
  Examples.fixed_env (fun _ _ => Val (Some info)) (Val tt, []) (fun _ => [])
    (fun _ => None) [] [] 0.

Definition no_cookies : State unit :=
  Examples.start (mkManager [] 0) None.

(** The caption download leaves one English file whose JSON content is
    an array, not an object. *)
Definition array_caption_file (info : Info) : Env unit :=
  Examples.fixed_env (fun _ _ => Val (Some info)) (Val tt, [])
    (fun lang => if String.eqb lang "en"
                 then ["_yt_dlp/.tmp/abcd1234efg.en.json3"] else [])
    (fun _ => Some (PList [])) [] [] 0.

(** The caption download raises and leaves no file. *)
Definition download_fails (info : Info) : Env unit :=
  Examples.fixed_env (fun _ _ => Val (Some info))
    (Exn (mkExc "DownloadError" "ERROR: HTTP Error 429: Too Many Requests"),
     ["HTTP Error 429: Too Many Requests"])
    (fun _ => []) (fun _ => None) [] [] 0.

(** A shard with [n] video entries. *)
Definition shard_of (n : nat) : pyval :=
  PDict (map (fun i => ("video" ++ PyStr.of_nat i, PDict [])) (seq 0 n)
         ++ [ ("_metadata", PDict [ ("created_at", PStr "2024-01-01T00:00:00") ]) ]).

(** A shard of another day, with one video, as the store holds it. *)
Definition partial_remote_shard : pyval :=
  PDict [ ("zzzzzzzzzzz", PDict [ ("age_limit", PInt 0) ]);
          ("_metadata", PDict [ ("created_at", PStr "2024-01-02T00:00:00") ]) ].

(** Empty local disk; the store lists one partial data file. *)
Definition store_with_partial_shard : State Examples.Disk :=
  mkState
    (Examples.mkDisk [] [ ("data_2024-01-02.json", partial_remote_shard) ])
    (mkManager [] 0) None None [].

(** One video short of the bound. *)
Definition almost_full_batch : Batch :=
  mkBatch ∅ 6 "tmp_dir/data_2024-01-01.json" (shard_of 499).

Definition always_video (info : Info)
  : string -> option string -> Outcome (option Info) :=
  fun _ _ => Val (Some info).

Definition no_video : string -> option string -> Outcome (option Info) :=
  fun _ _ => Val None.

(** The active shard has just reached 500 video entries. *)
Definition full_batch : Batch :=
  mkBatch ∅ 7 "tmp_dir/data_2024-01-01.json" (shard_of 500).

End Scenario.

(* ===================================================================== *)
(** * More of core/cookie_manager.py *)
(* ===================================================================== *)

Section LoadCookies.
(** [path_of f] is [str(self.cookies_dir / f)]. *)
Variable path_of : string -> string.

(** [_load_cookie_files]: [listing] is [os.listdir(self.cookies_dir)],
    [None] when the directory does not exist. The result is the new
    [self.cookie_files]. *)
Definition _load_cookie_files (listing : option (list string)) : list string :=
  match listing with
  | None => []
  | Some names =>
      PyStr.sorted (map path_of (List.filter (PyStr.endswith ".txt") names))
  end.

(** [__init__]: the list is loaded and the cursor starts at 0. *)
Definition new_manager (listing : option (list string))
  : CookieRotationManager :=
  mkManager (_load_cookie_files listing) 0.

End LoadCookies.

(** The cursor points into the credential list, or the list is empty. *)
Definition valid_manager (m : CookieRotationManager) : Prop :=
  cookie_files m = [] \/ current_index m < List.length (cookie_files m).

(* ===================================================================== *)
(** * Predicates on computations *)
(* ===================================================================== *)

(** [c] only adds events that satisfy [P]. *)
Definition emits {W A} (P : Event -> Prop) (c : M W A) : Prop :=
  forall st o st', c st = (o, st') ->
    exists rest, trace st' = (trace st ++ rest)%list /\ Forall P rest.

(** [c] leaves the component [proj] of the state as it is. *)
Definition preserves {W A X} (proj : State W -> X) (c : M W A) : Prop :=
  forall st o st', c st = (o, st') -> proj st' = proj st.

(** [c] always returns. *)
Definition never_raises {W A} (c : M W A) : Prop :=
  forall st, exists a st', c st = (Val a, st').

Definition is_extract (ev : Event) : bool :=
  match ev with EvExtract _ _ => true | _ => false end.

(** The number of calls of [extract_info] among the events. *)
Definition count_extracts (evs : list Event) : nat :=
  List.length (List.filter is_extract evs).

(* ===================================================================== *)
(** * Shapes of JSON3 caption files *)
(* ===================================================================== *)

Definition is_str (v : pyval) : bool :=
  match v with PStr _ => true | _ => false end.

(** A segment the parser can read: an object whose [utf8] entry, when
    truthy, is a string. *)
Definition readable_seg (s : pyval) : bool :=
  match s with
  | PDict d =>
      let u := PyDict.get "utf8" PNone d in negb (truthy u) || is_str u
  | _ => false
  end.

(** An event the parser can read: an object whose [segs] entry, when
    truthy, is a list of readable segments. *)
Definition readable_event (ev : pyval) : bool :=
  match ev with
  | PDict d =>
      let segs := PyDict.get "segs" PNone d in
      negb (truthy segs)
      || match segs with
         | PList items => forallb readable_seg items
         | _ => false
         end
  | _ => false
  end.

(** A document the parser can read: an object whose [events] entry, when
    truthy, is a list of readable events. *)
Definition readable_json3 (data : pyval) : bool :=
  match data with
  | PDict d =>
      let events := PyDict.get "events" PNone d in
      negb (truthy events)
      || match events with
         | PList evs => forallb readable_event evs
         | _ => false
         end
  | _ => false
  end.

(** Every white-space character of [s] is a single blank that follows a
    character that is not white space; [after_space] tells that the
    character before [s] was white space (or that [s] starts the text). *)
Fixpoint single_blanks (after_space : bool) (s : string) : bool :=
  match s with
  | EmptyString => true
  | String c t =>
      if is_space c
      then Ascii.eqb c " " && negb after_space && single_blanks true t
      else single_blanks false t
  end.

Fixpoint last_is_space (s : string) : bool :=
  match s with
  | EmptyString => false
  | String c EmptyString => is_space c
  | String _ t => last_is_space t
  end.

(** White-space normalised text: words separated by single blanks, no
    white space at either end. *)
Definition normalized (s : string) : bool :=
  single_blanks true s && negb (last_is_space s).

Definition returns {A} (o : Outcome A) : bool :=
  match o with Val _ => true | Exn _ => false end.

(** What the parser makes of the first file found for [lang]: the text
    stored for that language. *)
Definition text_found {W} (E : Env W) (tmpdir lang : string) (w : W)
    (v : pyval) : Prop :=
  exists first others text,
    glob_json3 E tmpdir lang w = first :: others
    /\ _parse_json3_to_text (read_json E first w) = Val text
    /\ v = PStr text.

Module Scenario2.

(** The caption download leaves a readable English file and nothing for
    Russian. *)
Definition english_captions : Env unit :=
  Examples.fixed_env (fun _ _ => Val (Some (Scenario.info_with [] None)))
    (Val tt, ["WARNING: HTTP Error 429"])
    (fun lang => if String.eqb lang "en"
                 then ["_yt_dlp/.tmp/abcd1234efg.en.json3"] else [])
    (fun _ => Some (PDict [ ("events",
                             PList [ PDict [ ("segs",
                                              PList [ PDict [ ("utf8", PStr "hi ") ];
                                                      PDict [ ("utf8", PStr "there") ] ]) ] ]) ]))
    [] [] 0.

End Scenario2.

(** An event other than a call of [extract_info]. *)
Definition not_extract (ev : Event) : Prop := is_extract ev = false.

Module Scenario3.

(** Extraction is refused with the first cookie and succeeds with any
    other. *)
Definition blocked_with_first (info : Info) : Env unit :=
  Examples.fixed_env
    (fun _ cookie =>
       match cookie with
       | Some "a.txt" => Exn (mkExc "DownloadError" "HTTP Error 403: Forbidden")
       | _ => Val (Some info)
       end)
    (Val tt, []) (fun _ => []) (fun _ => None) [] [] 0.

Definition forbidden : Exc := mkExc "DownloadError" "HTTP Error 403: Forbidden".

End Scenario3.

(* ===================================================================== *)
(** * The shape of a fetched record *)
(* ===================================================================== *)

(** The keys that an attempt sets before the caption call. *)
Definition base_keys : list string :=
  [ "webpage_url"; "age_limit"; "subtitles"; "automatic_captions" ].

(** The local [result] as one attempt can hand it to the next: still
    empty, or with the four first keys of a failed attempt. *)
Definition carried (result : Dict) : Prop :=
  result = [] \/ map fst result = base_keys.

(** The keys of a returned record, in insertion order. *)
Definition record_keys (duration : option Num) : list string :=
  (base_keys ++ [ "chapters"; "formats"; "thumbnails_ytdlp" ]
   ++ (if duration_truthy duration then [ "duration_seconds" ] else [])
   ++ [ "timings_ytdlp" ])%list.

(** [auto_map.get(lang) if auto_map else None] *)
Definition caption_text (auto_map : Dict) (lang : string) : pyval :=
  match auto_map with
  | [] => PNone
  | _ => PyDict.get lang PNone auto_map
  end.

(** [result['automatic_captions']] after the loop over en and ru. *)
Definition captions_expected (auto_map : Dict) : Dict :=
  ((if truthy (caption_text auto_map "en")
    then [ ("en", caption_text auto_map "en") ] else [])
   ++ (if truthy (caption_text auto_map "ru")
       then [ ("ru", caption_text auto_map "ru") ] else []))%list.

(** [r] is the record that a successful attempt builds from [info]; the
    attempt ends with the events [tail]. *)
Definition fetched_record {W} (E : Env W) (video_url : string) (info : Info)
    (r : Dict) (tail : list Event) : Prop :=
  exists auto_map cookie_file w,
    (forall lang v,
        PyDict.lookup lang auto_map = Some v <->
        In lang ["en"; "ru"] /\ text_found E SUBS_TMPDIR lang w v)
    /\ tail = [ EvDownloadSubs
                  (match truthy_str (info_webpage_url info) with
                   | Some u => u
                   | None => video_url
                   end) (truthy_str cookie_file);
                EvCleanup SUBS_TMPDIR ]
    /\ map fst r = record_keys (info_duration info)
    /\ PyDict.lookup "webpage_url" r = Some (opt_str (info_webpage_url info))
    /\ PyDict.lookup "age_limit" r = Some (info_age_limit info)
    /\ PyDict.lookup "subtitles" r = Some (PDict [])
    /\ PyDict.lookup "automatic_captions" r
       = Some (PDict (captions_expected auto_map))
    /\ PyDict.lookup "chapters" r = Some (info_chapters info).

(* ===================================================================== *)
(** * Shards and progress in main_yt_dlp.py *)
(* ===================================================================== *)

(** The entries of [data["_metadata"]]: none when the key is absent. *)
Definition metadata_of (d : Dict) : Dict :=
  match PyDict.lookup "_metadata" d with
  | Some (PDict m) => m
  | _ => []
  end.

(** The state after a call of the environment that leaves the world
    [w]. *)
Definition with_world {W} (w : W) (st : State W) : State W :=
  mkState w (COOKIE_MANAGER st) (lcpt st) (lcdt st) (trace st).

(** [file.startswith("data_") and file.endswith(".json")] *)
Definition is_data_file (file : string) : bool :=
  PyStr.startswith "data_" file && PyStr.endswith ".json" file.

(** [get_next_data_file_path] returns [p] in one of two ways. The first:
    [p] is the local copy of the greatest data file that the store
    lists, and that copy holds fewer than [DATA_FILE_SIZE] videos. *)
Definition reuses_last_file {W} (E : Env W) (st st' : State W) (p : string)
  : Prop :=
  exists last_file d l w,
    p = TMP_DIR ++ "/" ++ last_file
    /\ list_repo_files E (world st) = (Val l, w)
    /\ In last_file l
    /\ is_data_file last_file = true
    /\ (forall f, In f l -> is_data_file f = true -> PyStr.le f last_file)
    /\ read_json E p (world st') = Some (PDict d)
    /\ count_videos d < DATA_FILE_SIZE.

(** The second: [p] is the path for the date that [datetime.now()] gives
    in this call, with the least counter, from 1, whose path does not
    exist. Reading the date is the last thing that changes the world. *)
Definition names_free_path {W} (E : Env W) (st' : State W) (p : string)
  : Prop :=
  exists date_str n w,
    now_date E w = (date_str, world st')
    /\ 1 <= n
    /\ p = in_tmp_dir (data_filename date_str n)
    /\ ~ In p (existing_paths E (world st'))
    /\ forall k, 1 <= k < n ->
         In (in_tmp_dir (data_filename date_str k))
            (existing_paths E (world st')).

(** The state in which the size check of [rollover] asks for the next
    data file: after the save of the full shard, which the check makes
    unless the checkpoint of this iteration has just made it. *)
Definition flushed {W} (E : Env W) (p : Batch) (s : State W) : State W :=
  snd ((if negb (processed_count p mod 20 =? 0)%nat
        then save_data_file E (current_data_file p) (current_data p)
        else ret (current_data p)) s).

Module Scenario4.

Definition connection_error : Exc :=
  mkExc "ConnectionError" "Network is unreachable".

Definition upload_refused : Exc :=
  mkExc "HfHubHTTPError" "401 Client Error: Unauthorized".

(** The store cannot be listed, for want of a network, and refuses
    every upload, with another exception. The local disk is empty and
    accepts every write. *)
Definition offline (clock : Q) : Env unit :=
  {| ydl_extract_info := fun _ _ w => (Val None, w);
     ydl_download_subs := fun _ _ _ _ w => (Val tt, [], w);
     glob_json3 := fun _ _ _ => [];
     read_json := fun _ _ => None;
     existing_paths := fun _ => [];
     write_json := fun _ _ w => (Val tt, w);
     remove_tree := fun _ w => w;
     os_remove := fun _ w => (Val tt, w);
     list_repo_files := fun w => (Exn connection_error, w);
     upload_file := fun _ _ w => (Exn upload_refused, w);
     run_wget := fun _ w => (Val tt, w);
     time_time := fun w => (clock, w);
     perf_counter := fun w => (clock, w);
     now_isoformat := fun w => ("2024-01-01T00:00:00", w);
     now_date := fun w => ("2024-01-01", w) |}.

(** A shard whose [_metadata] entry is a string. *)
Definition shard_with_text_metadata : Dict :=
  [ ("abcd1234efg", PDict [ ("age_limit", PInt 0) ]);
    ("_metadata", PStr "2024-01-01") ].

End Scenario4.

Module Scenario5.

(** The entries of a shard that has reached the bound. *)
Definition full_entries : Dict :=
  (map (fun i => (("video" ++ PyStr.of_nat i)%string, PDict [])) (seq 0 500)
   ++ [ ("_metadata", PDict [ ("created_at", PStr "2024-01-01T00:00:00") ]) ])%list.

Definition three_videos : list string :=
  [ "abcd1234efg"; "hijk5678lmn"; "abcd1234efg" ].

(** Twenty-one video ids. *)
Definition many_videos : list string :=
  map (fun i => ("video" ++ PyStr.of_nat i)%string) (seq 0 21).

(** Nothing remote; the local disk already holds the first data file of
    the day. *)
Definition today_taken : State Examples.Disk :=
  mkState
    (Examples.mkDisk [ ("tmp_dir/data_2024-01-01.json", PDict []) ] [])
    (mkManager [] 0) None None [].

End Scenario5.

(* ===================================================================== *)
(** * Kinds of events *)
(* ===================================================================== *)

(** The events a fetch of [video_url] may have: calls of [extract_info]
    on that URL, caption downloads, and the cleaning of the caption
    directory. *)
Definition fetch_event (video_url : string) (ev : Event) : Prop :=
  match ev with
  | EvExtract url _ => url = video_url
  | EvDownloadSubs _ _ => True
  | EvCleanup path => path = SUBS_TMPDIR
  | _ => False
  end.

(** A local write of the progress file. *)
Definition is_progress_write (ev : Event) : bool :=
  match ev with
  | EvWrite path _ => String.eqb path PROGRESS_PATH
  | _ => false
  end.

Definition not_progress_write (ev : Event) : Prop :=
  is_progress_write ev = false.

Definition count_progress_writes (evs : list Event) : nat :=
  List.length (List.filter is_progress_write evs).

(* ===================================================================== *)
(** * Properties of strings *)
(* ===================================================================== *)

Lemma lower_char_digit (c : ascii) :
  PyStr.is_digit c = true -> PyStr.lower_char c = c.
Proof.
  destruct c as [[] [] [] [] [] [] [] []]; vm_compute; congruence.
Qed.

Lemma startswith_lower (needle hay : string) :
  PyStr.startswith needle hay = true ->
  PyStr.startswith (PyStr.lower needle) (PyStr.lower hay) = true.
Proof.
  revert hay. induction needle as [|a needle IH]; intros [|b hay]; simpl; try done.
  intros [Hab Hrest]%andb_prop.
  apply Ascii.eqb_eq in Hab. subst b.
  rewrite Ascii.eqb_refl. simpl. by apply IH.
Qed.

Lemma str_in_lower (needle hay : string) :
  PyStr.str_in needle hay = true ->
  PyStr.str_in (PyStr.lower needle) (PyStr.lower hay) = true.
Proof.
  induction hay as [|b hay IH]; simpl.
  - rewrite orb_false_r. intros H.
    pose proof (startswith_lower _ _ H) as H'. simpl in H'. by rewrite H'.
  - intros [H|H]%orb_prop.
    + pose proof (startswith_lower _ _ H) as H'. simpl in H'. by rewrite H'.
    + rewrite (IH H). apply orb_true_r.
Qed.

Lemma any_in_head (k : string) (ks : list string) (s : string) :
  PyStr.str_in k s = true -> PyStr.any_in (k :: ks) s = true.
Proof. intros H. unfold PyStr.any_in. simpl. by rewrite H. Qed.

Lemma existsb_Zeqb_In (z : Z) (l : list Z) :
  existsb (Z.eqb z) l = true <-> In z l.
Proof.
  rewrite existsb_exists. split.
  - intros (x & Hx & ->%Z.eqb_eq). done.
  - intros H. exists z. split; [done | apply Z.eqb_refl].
Qed.

(* ===================================================================== *)
(** * The cookie manager *)
(* ===================================================================== *)

(** C1, as stated, fails: a message that contains "429" after another
    run of three digits, raised by an error whose type is not one of the
    extractor families, is not classified as blocking. *)
Lemma is_blocked_error_429_any_type_fails :
  ~ (forall e : Exc,
       PyStr.str_in "429" (exc_msg e) = true -> is_blocked_error e = true).
Proof.
  intros H.
  specialize (H (mkExc "ValueError" "code 500 then 429") eq_refl).
  vm_compute in H. discriminate.
Qed.

(** C1 (amended). For an error whose message contains "429":
    when its type name is ExtractorError, DownloadError or
    UnsupportedError, [is_blocked_error] returns true whatever surrounds
    the "429", also after an earlier run of three digits; for any other
    type name it returns true exactly when the leftmost run of three
    decimal digits of the message is 429, 403 or 503. *)
Theorem is_blocked_error_429 (e : Exc) :
  PyStr.str_in "429" (exc_msg e) = true ->
  (PyStr.mem (exc_type e) extractor_error_types = true ->
   is_blocked_error e = true)
  /\ (PyStr.mem (exc_type e) extractor_error_types = false ->
      (is_blocked_error e = true <->
       exists g, PyStr.re_search_d3 (PyStr.lower (exc_msg e)) = Some g
                 /\ In (PyStr.int_of_d3 g) blocking_codes)).
Proof.
  intros H429. unfold is_blocked_error. split.
  - intros ->.
    apply str_in_lower in H429. change (PyStr.lower "429") with "429" in H429.
    unfold block_indicators. by rewrite (any_in_head _ _ _ H429).
  - intros ->. rewrite andb_false_l.
    destruct (PyStr.re_search_d3 (PyStr.lower (exc_msg e))) as [g|].
    + rewrite existsb_Zeqb_In. split.
      * intros Hin. by exists g.
      * by intros (g' & [= <-] & Hin).
    + split; [done | by intros (g & [=] & _)].
Qed.

Lemma is_blocked_error_429_witness :
  is_blocked_error (mkExc "DownloadError" "ERROR: 500 items; HTTP Error 429")
  = true.
Proof.
  exact (proj1 (is_blocked_error_429
                  (mkExc "DownloadError" "ERROR: 500 items; HTTP Error 429")
                  eq_refl) eq_refl).
Defined.

Lemma rotate_to_next_files (m : CookieRotationManager) :
  cookie_files (fst (rotate_to_next m)) = cookie_files m.
Proof.
  unfold rotate_to_next. destruct (cookie_files m) eqn:Hf; [done|].
  by destruct (cookie_at _).
Qed.

Lemma rotate_to_next_index (m : CookieRotationManager) :
  cookie_files m <> [] ->
  current_index (fst (rotate_to_next m))
  = (current_index m + 1) mod List.length (cookie_files m).
Proof.
  unfold rotate_to_next. destruct (cookie_files m) eqn:Hf; [done|].
  intros _. by destruct (cookie_at _).
Qed.

Lemma rotate_to_next_returns (m : CookieRotationManager) :
  snd (rotate_to_next m) = get_current_cookie (fst (rotate_to_next m)).
Proof.
  unfold rotate_to_next, get_current_cookie.
  destruct (cookie_files m) eqn:Hf; simpl; [by rewrite Hf|].
  destruct (cookie_at _) eqn:Hc; simpl; by rewrite ?Hc.
Qed.

Lemma rotate_times_files (n : nat) (m : CookieRotationManager) :
  cookie_files (rotate_times n m) = cookie_files m.
Proof.
  induction n as [|n IH]; [done|].
  unfold rotate_times in *. simpl. by rewrite rotate_to_next_files.
Qed.

Lemma rotate_times_index (n : nat) (m : CookieRotationManager) :
  cookie_files m <> [] ->
  current_index m < List.length (cookie_files m) ->
  current_index (rotate_times n m)
  = (current_index m + n) mod List.length (cookie_files m).
Proof.
  intros Hne Hlt. induction n as [|n IH].
  - simpl. rewrite Nat.add_0_r. by rewrite Nat.mod_small.
  - change (rotate_times (S n) m)
      with (fst (rotate_to_next (rotate_times n m))).
    rewrite rotate_to_next_index by (by rewrite rotate_times_files).
    rewrite rotate_times_files, IH.
    rewrite Nat.Div0.add_mod_idemp_l. f_equal. lia.
Qed.

(** C9. For a credential set of size N >= 1 and a cursor inside it, one
    call of [rotate_to_next] moves the cursor to (cursor + 1) mod N,
    keeps the set and returns the credential under the new cursor, and N
    calls in a row bring the manager back to where it started, so that
    the current credential is again the one it started at. *)
Theorem rotate_to_next_cyclic (m : CookieRotationManager) :
  1 <= List.length (cookie_files m) ->
  current_index m < List.length (cookie_files m) ->
  (forall k,
      let before := rotate_times k m in
      let after := fst (rotate_to_next before) in
      current_index after
      = (current_index before + 1) mod List.length (cookie_files m)
      /\ cookie_files after = cookie_files m
      /\ snd (rotate_to_next before) = get_current_cookie after)
  /\ rotate_times (List.length (cookie_files m)) m = m
  /\ get_current_cookie (rotate_times (List.length (cookie_files m)) m)
     = get_current_cookie m.
Proof.
  intros HN Hlt.
  assert (Hne : cookie_files m <> []) by (destruct (cookie_files m); simpl in *; [lia|done]).
  assert (Hback : rotate_times (List.length (cookie_files m)) m = m).
  { pose proof (rotate_times_files (List.length (cookie_files m)) m) as Hf.
    pose proof (rotate_times_index (List.length (cookie_files m)) m Hne Hlt) as Hi.
    rewrite Nat.Div0.add_mod, Nat.Div0.mod_same, Nat.add_0_r in Hi.
    rewrite Nat.Div0.mod_mod, Nat.mod_small in Hi by done.
    destruct (rotate_times _ m), m. simpl in *. by subst. }
  split; [|split].
  - intros k before after. subst before after. repeat split.
    + rewrite rotate_to_next_index by (by rewrite rotate_times_files).
      by rewrite rotate_times_files.
    + by rewrite rotate_to_next_files, rotate_times_files.
    + apply rotate_to_next_returns.
  - done.
  - by rewrite Hback.
Qed.

Lemma rotate_to_next_cyclic_witness :
  rotate_times 3 (mkManager ["a.txt"; "b.txt"; "c.txt"] 1)
  = mkManager ["a.txt"; "b.txt"; "c.txt"] 1.
Proof.
  refine (proj1 (proj2 (rotate_to_next_cyclic
                          (mkManager ["a.txt"; "b.txt"; "c.txt"] 1) _ _)));
    simpl; lia.
Defined.

(* ===================================================================== *)
(** * The order on strings and [sorted] *)
(* ===================================================================== *)

Lemma string_compare_lt_trans (s1 s2 s3 : string) :
  String.compare s1 s2 = Lt -> String.compare s2 s3 = Lt ->
  String.compare s1 s3 = Lt.
Proof.
  revert s2 s3.
  induction s1 as [|a s1 IH]; intros [|b s2] [|c s3]; simpl; try done.
  unfold Ascii.compare.
  destruct (N.compare_spec (N_of_ascii a) (N_of_ascii b)) as [Hab|Hab|Hab];
    try done;
    destruct (N.compare_spec (N_of_ascii b) (N_of_ascii c)) as [Hbc|Hbc|Hbc];
    try done;
    destruct (N.compare_spec (N_of_ascii a) (N_of_ascii c)) as [Hac|Hac|Hac];
    try done; try lia; eauto.
Qed.

#[global] Instance le_total : Total PyStr.le.
Proof. intros s1 s2. apply String.leb_total. Qed.

#[global] Instance le_antisymm : AntiSymm (=) PyStr.le.
Proof. intros s1 s2. apply String.leb_antisym. Qed.

#[global] Instance le_trans : Transitive PyStr.le.
Proof.
  intros s1 s2 s3. unfold PyStr.le, String.leb.
  destruct (String.compare s1 s2) eqn:H12; try done;
    destruct (String.compare s2 s3) eqn:H23; try done; intros _ _.
  - apply String.compare_eq_iff in H12. subst. by rewrite H23.
  - apply String.compare_eq_iff in H12. subst. by rewrite H23.
  - apply String.compare_eq_iff in H23. subst. by rewrite H12.
  - by rewrite (string_compare_lt_trans _ _ _ H12 H23).
Qed.

Lemma sorted_StronglySorted (l : list string) :
  StronglySorted PyStr.le (PyStr.sorted l).
Proof. apply StronglySorted_merge_sort; apply _. Qed.

Lemma sorted_Permutation (l : list string) : PyStr.sorted l ≡ₚ l.
Proof. apply merge_sort_Permutation. Qed.

(* ===================================================================== *)
(** * Running monadic code in proofs *)
(* ===================================================================== *)

(** Case analysis on the answer of the environment to the next call. *)
Ltac env_case E :=
  match goal with
  | |- context [ydl_extract_info E ?u ?c ?x] =>
      destruct (ydl_extract_info E u c x) as [[[?info|]|?e] ?w] eqn:?Hextract
  | |- context [ydl_download_subs E ?u ?l ?m ?c ?x] =>
      destruct (ydl_download_subs E u l m c x) as [[?r ?msgs] ?w] eqn:?Hsubs
  | |- context [write_json E ?p ?c ?x] =>
      destruct (write_json E p c x) as [[[]|?e] ?w] eqn:?Hwrite
  | |- context [os_remove E ?p ?x] =>
      destruct (os_remove E p x) as [[[]|?e] ?w] eqn:?Hremove
  | |- context [list_repo_files E ?x] =>
      destruct (list_repo_files E x) as [[?files|?e] ?w] eqn:?Hlist
  | |- context [upload_file E ?p ?n ?x] =>
      destruct (upload_file E p n x) as [[[]|?e] ?w] eqn:?Hupload
  | |- context [run_wget E ?u ?x] =>
      destruct (run_wget E u x) as [[[]|?e] ?w] eqn:?Hwget
  | |- context [time_time E ?x] =>
      destruct (time_time E x) as [?t ?w] eqn:?Htime
  | |- context [perf_counter E ?x] =>
      destruct (perf_counter E x) as [?t ?w] eqn:?Hperf
  | |- context [now_isoformat E ?x] =>
      destruct (now_isoformat E x) as [?now ?w] eqn:?Hnow
  | |- context [now_date E ?x] =>
      destruct (now_date E x) as [?date ?w] eqn:?Hdate
  end.

Ltac unfold_monad :=
  unfold try_except, catch, bind, ret, raise, lift, emit, call_total, call,
    ask, get_manager, set_manager, get_lcpt, set_lcpt, modify_world in *.

(* ===================================================================== *)
(** * The upload gate *)
(* ===================================================================== *)

Lemma gate_open_spec (t l : Q) : gate_open t l = true <-> (150 < t - l)%Q.
Proof.
  unfold gate_open. rewrite (Qgt_alt (t - l) 150).
  destruct (t - l ?= 150)%Q; split; congruence.
Qed.

Lemma stamp_truthy_spec (stamp : option Q) :
  stamp_truthy stamp = true <-> exists l, stamp = Some l /\ ~ (l == 0)%Q.
Proof.
  destruct stamp as [l|]; simpl.
  - rewrite negb_true_iff, Z.eqb_neq.
    assert (Hz : (l == 0)%Q <-> Qnum l = 0%Z)
      by (unfold Qeq; simpl; lia).
    split.
    + intros H. exists l. by rewrite Hz.
    + intros (l' & [= <-] & H). by rewrite <- Hz.
  - split; [done | by intros (l & [=] & _)].
Qed.

Section Gate.
Context {W : Type} (E : Env W).

(** C4 (amended), for the progress file. Every [save_progress] first
    writes the file locally. When that write succeeds, the file is
    uploaded if and only if a last-upload timestamp exists (a non-zero
    one, as every clock reading is) and strictly more than 150 seconds
    have passed since it; when there is no timestamp, the save sets it to
    the current time and uploads nothing. The timestamp is the time of
    the last upload that succeeded: a save whose upload succeeds sets it
    to the current time, and a save that finds a timestamp and makes no
    upload, or whose upload fails, keeps it. *)
Theorem save_progress_gate (processed : gset string) (st : State W) :
  let payload := PDict (progress_payload processed) in
  let st' := snd (save_progress E processed st) in
  let written := write_json E PROGRESS_PATH payload (world st) in
  let t := fst (time_time E (snd written)) in
  let uploaded :=
    upload_file E PROGRESS_PATH "progress.json"
      (snd (time_time E (snd written))) in
  exists rest,
    trace st' = (trace st ++ EvWrite PROGRESS_PATH payload :: rest)%list
    /\ (fst written = Val tt ->
        (In (EvUpload PROGRESS_PATH "progress.json") rest <->
         exists l, lcpt st = Some l /\ ~ (l == 0)%Q /\ (150 < t - l)%Q)
        /\ (lcpt st = None -> rest = [] /\ lcpt st' = Some t)
        /\ (forall l, lcpt st = Some l -> (l == 0)%Q ->
              rest = [] /\ lcpt st' = Some t)
        /\ (forall l, lcpt st = Some l -> ~ (l == 0)%Q ->
              ((150 < t - l)%Q -> fst uploaded = Val tt ->
               rest = [EvUpload PROGRESS_PATH "progress.json"]
               /\ lcpt st' = Some t)
              /\ ((150 < t - l)%Q -> fst uploaded <> Val tt ->
                  rest = [EvUpload PROGRESS_PATH "progress.json"]
                  /\ lcpt st' = Some l)
              /\ (~ (150 < t - l)%Q -> rest = [] /\ lcpt st' = Some l))).
Proof.
  intros payload st' written t uploaded. subst payload st' written t uploaded.
  unfold save_progress, dump_json, do_upload. unfold_monad.
  cbn [world COOKIE_MANAGER lcpt lcdt trace].
  destruct (write_json E PROGRESS_PATH _ (world st)) as [[[]|e] w] eqn:Hwrite;
    cbn [world COOKIE_MANAGER lcpt lcdt trace fst snd].
  2: { exists []. split; [done|]. intros [=]. }
  destruct (time_time E w) as [t w1] eqn:Htime.
  cbn [world COOKIE_MANAGER lcpt lcdt trace fst snd].
  destruct (stamp_truthy (lcpt st)) eqn:Hs.
  - apply stamp_truthy_spec in Hs as (l & Hl & Hnz). rewrite Hl.
    destruct (gate_open t l) eqn:Hg.
    + apply gate_open_spec in Hg.
      exists [EvUpload PROGRESS_PATH "progress.json"].
      cbn [world COOKIE_MANAGER lcpt lcdt trace].
      destruct (upload_file E PROGRESS_PATH "progress.json" w1)
        as [[[]|e] w2] eqn:Hupload;
        cbn [world COOKIE_MANAGER lcpt lcdt trace fst snd];
        rewrite <- app_assoc; (split; [done|]); intros _;
        (split; [split; [intros _; by exists l | intros _; by left]|]);
        (split; [done|]); (split; [by intros l' [= <-] Hz|]);
        intros l' [= <-] _; repeat split; try done; intros; tauto.
    + assert (Hng : ~ (150 < t - l)%Q).
      { intros Hlt. apply gate_open_spec in Hlt. congruence. }
      exists []. split; [done|]. intros _.
      split; [split; [done | by intros (l' & [= <-] & _ & Hlt)]|].
      split; [done|]. split; [by intros l' [= <-] Hz|].
      intros l' [= <-] _. repeat split; try done; intros; tauto.
  - exists []. split; [done|]. intros _.
    split.
    { split; [done|]. intros (l & Hl & Hnz & _).
      assert (stamp_truthy (lcpt st) = true)
        by (apply stamp_truthy_spec; eauto).
      congruence. }
    split; [done|]. split; [done|].
    intros l Hl Hnz.
    assert (stamp_truthy (lcpt st) = true) by (apply stamp_truthy_spec; eauto).
    congruence.
Qed.

(** The events of one [save_progress]: the local write, then at most
    the upload. *)
Lemma save_progress_trace (processed : gset string) (st : State W) :
  exists rest,
    trace (snd (save_progress E processed st))
    = (trace st
       ++ EvWrite PROGRESS_PATH (PDict (progress_payload processed)) :: rest)%list
    /\ (rest = [] \/ rest = [EvUpload PROGRESS_PATH "progress.json"]).
Proof.
  unfold save_progress, dump_json, do_upload. unfold_monad. simpl.
  env_case E; simpl; [|by exists []; auto].
  env_case E; simpl.
  destruct (stamp_truthy (lcpt st)); simpl; [|by exists []; auto].
  destruct (lcpt st) as [l|]; simpl; [|by exists []; auto].
  destruct (gate_open t l); simpl; [|by exists []; auto].
  exists [EvUpload PROGRESS_PATH "progress.json"].
  env_case E; simpl; rewrite <- app_assoc; auto.
Qed.

(** [save_data_file] never reaches its gate: reading the local name
    [lcdt] raises, the [except] clause swallows it, and the global
    timestamp keeps its value. The call writes at most the local file. *)
Lemma save_data_file_never_uploads (file_path : string) (data : pyval)
    (st : State W) :
  let st' := snd (save_data_file E file_path data st) in
  lcdt st' = lcdt st
  /\ exists rest,
       trace st' = (trace st ++ rest)%list
       /\ forall path name, ~ In (EvUpload path name) rest.
Proof.
  unfold save_data_file, write_and_gate, read_local, dump_json. unfold_monad.
  destruct data as [| | | | | |d]; simpl;
    try (split; [done|]; exists []; rewrite app_nil_r; split; [done|];
         intros ? ? []).
  env_case E; simpl.
  destruct (py_setitem _ _ _); simpl.
  - env_case E; simpl; try env_case E; simpl;
      (split; [done|]); eexists; (split; [done|]);
      intros ? ? [[=]|[]].
  - split; [done|]. exists []. rewrite app_nil_r. split; [done|]. intros ? ? [].
Qed.

End Gate.

(** C4, as stated, fails at the boundary: with a timestamp 150 seconds
    old, "at least 150 seconds" holds and nothing is uploaded. *)
Lemma save_progress_gate_not_at_150 :
  let st := Examples.start (mkManager [] 0) (Some 1000%Q) in
  let st' := snd (save_progress (Examples.quiet_env 1150) ∅ st) in
  lcpt st = Some 1000%Q
  /\ (150 <= 1150 - 1000)%Q
  /\ ~ In (EvUpload PROGRESS_PATH "progress.json") (trace st').
Proof.
  split; [done|]. split; [by vm_compute|].
  vm_compute. intros [[=]|[]].
Qed.

Lemma save_progress_gate_witness :
  let st' := snd (save_progress (Examples.quiet_env 1151) ∅
                    (Examples.start (mkManager [] 0) (Some 1000%Q))) in
  In (EvUpload PROGRESS_PATH "progress.json") (trace st')
  /\ lcpt st' = Some 1151%Q.
Proof.
  intros st'. subst st'.
  destruct (save_progress_gate (Examples.quiet_env 1151) ∅
              (Examples.start (mkManager [] 0) (Some 1000%Q)))
    as (rest & Htr & Hgate).
  destruct (Hgate eq_refl) as (Hupload & _ & _ & Hstamp).
  split.
  - rewrite Htr. apply in_or_app. right. right.
    apply Hupload.
    exists 1000%Q. split; [reflexivity|]. split; [by vm_compute | by vm_compute].
  - assert (Hnz : ~ (1000 == 0)%Q) by (by vm_compute).
    destruct (Hstamp 1000%Q eq_refl Hnz) as (Hok & _ & _).
    apply Hok; [by vm_compute | reflexivity].
Defined.

(* ===================================================================== *)
(** * The progress payload *)
(* ===================================================================== *)

(** C10. The payload of [save_progress] lists the processed identifiers in
    ascending order and without duplicates, the listed identifiers are
    those of the set, and [count] is the length of the list. *)
Theorem progress_payload_sorted_nodup_count {W : Type} (E : Env W)
    (processed : gset string) (st : State W) :
  exists ids : list string,
    (forall path content,
        In (EvWrite path content)
           (drop (List.length (trace st))
                 (trace (snd (save_progress E processed st)))) ->
        content
        = PDict [ ("processed_video_ids", PList (map PStr ids));
                  ("count", PInt (Z.of_nat (List.length ids))) ])
    /\ In (EvWrite PROGRESS_PATH
             (PDict [ ("processed_video_ids", PList (map PStr ids));
                      ("count", PInt (Z.of_nat (List.length ids))) ]))
          (trace (snd (save_progress E processed st)))
    /\ StronglySorted PyStr.le ids
    /\ NoDup ids
    /\ (forall x, x ∈ ids <-> x ∈ processed).
Proof.
  exists (PyStr.sorted (elements processed)).
  pose proof (sorted_Permutation (elements processed)) as Hperm.
  assert (Hpay : progress_payload processed
                 = [ ("processed_video_ids",
                      PList (map PStr (PyStr.sorted (elements processed))));
                     ("count",
                      PInt (Z.of_nat
                              (List.length (PyStr.sorted (elements processed))))) ]).
  { unfold progress_payload. do 4 f_equal. by rewrite Hperm. }
  destruct (save_progress_trace E processed st) as (rest & Htr & Hrest).
  rewrite Htr, Hpay.
  repeat split.
  - rewrite drop_app_length. intros path content [[= _ <-]|Hin]; [done|].
    destruct Hrest as [->| ->]; [done | by destruct Hin as [[=]|[]]].
  - apply in_or_app. right. by left.
  - apply sorted_StronglySorted.
  - rewrite Hperm. apply NoDup_elements.
  - rewrite Hperm. apply elem_of_elements.
  - rewrite Hperm. apply elem_of_elements.
Qed.


(* ===================================================================== *)
(** * Dictionaries *)
(* ===================================================================== *)

Lemma lookup_set_eq (k : string) (v : pyval) (d : Dict) :
  PyDict.lookup k (PyDict.set k v d) = Some v.
Proof.
  induction d as [|[k' v'] d IH]; simpl.
  - by rewrite String.eqb_refl.
  - destruct (String.eqb k k') eqn:Hk; simpl; rewrite ?String.eqb_refl, ?Hk; done.
Qed.

Lemma lookup_set_ne (k k' : string) (v : pyval) (d : Dict) :
  k <> k' -> PyDict.lookup k (PyDict.set k' v d) = PyDict.lookup k d.
Proof.
  intros Hne. induction d as [|[k'' v''] d IH]; simpl.
  - by apply String.eqb_neq in Hne as ->.
  - destruct (String.eqb k' k'') eqn:Hk; simpl.
    + apply String.eqb_eq in Hk. subst k''.
      by apply String.eqb_neq in Hne as ->.
    + by rewrite IH.
Qed.

Lemma set_not_empty (k : string) (v : pyval) (d : Dict) : PyDict.set k v d <> [].
Proof. destruct d as [|[k' v'] d]; simpl; [done|]. by destruct (String.eqb k k'). Qed.

(* ===================================================================== *)
(** * The projection of formats and duration *)
(* ===================================================================== *)

Lemma formats_loop_filter (formats : list Dict) (acc : list pyval) :
  formats_loop formats acc
  = (acc ++ map (fun fmt => PDict (clean_format fmt))
              (List.filter is_full_video formats))%list.
Proof.
  revert acc. induction formats as [|fmt formats IH]; intros acc; simpl.
  - by rewrite app_nil_r.
  - change (PyDict.get "vcodec" PNone
              [("vcodec", PyDict.get "vcodec" (PStr "none") fmt);
               ("acodec", PyDict.get "acodec" (PStr "none") fmt)])
      with (PyDict.get "vcodec" (PStr "none") fmt).
    change (PyDict.get "acodec" PNone
              [("vcodec", PyDict.get "vcodec" (PStr "none") fmt);
               ("acodec", PyDict.get "acodec" (PStr "none") fmt)])
      with (PyDict.get "acodec" (PStr "none") fmt).
    unfold is_full_video at 1.
    destruct (is_storyboard fmt); simpl; [apply IH|].
    destruct (codec_present (PyDict.get "vcodec" (PStr "none") fmt)
              && codec_present (PyDict.get "acodec" (PStr "none") fmt)); simpl.
    + rewrite IH. by rewrite <- app_assoc.
    + apply IH.
Qed.

Lemma last_two_last_at_most {A} (l : list A) : last_two l = last_at_most 2 l.
Proof.
  unfold last_two, last_at_most. rewrite firstn_rev. by rewrite rev_involutive.
Qed.

Lemma last_two_map {A B} (f : A -> B) (l : list A) :
  last_two (map f l) = map f (last_two l).
Proof. unfold last_two. rewrite length_map. apply skipn_map. Qed.

Lemma formats_field_spec (formats : list Dict) :
  formats_field formats
  = map (fun fmt => PDict (clean_format fmt)) (spec_formats formats).
Proof.
  unfold formats_field, spec_formats.
  rewrite formats_loop_filter. simpl.
  by rewrite last_two_map, last_two_last_at_most.
Qed.

Lemma spec_formats_suffix (formats : list Dict) :
  List.length (spec_formats formats)
  = Nat.min 2 (List.length (List.filter is_full_video formats))
  /\ exists dropped,
       List.filter is_full_video formats = (dropped ++ spec_formats formats)%list.
Proof.
  unfold spec_formats. rewrite <- last_two_last_at_most. unfold last_two.
  split.
  - rewrite length_skipn. lia.
  - exists (firstn (List.length (List.filter is_full_video formats) - 2)
                   (List.filter is_full_video formats)).
    by rewrite firstn_skipn.
Qed.

Lemma eq_str_spec (v : pyval) (s : string) : eq_str v s = true <-> v = PStr s.
Proof.
  destruct v; simpl; try (split; [done | by intros [=]]).
  rewrite String.eqb_eq. split; [by intros -> | by intros [= ->]].
Qed.

Lemma codec_present_spec (k : string) (fmt : Dict) :
  codec_present (PyDict.get k (PStr "none") fmt) = true <-> names_codec k fmt.
Proof.
  unfold names_codec, PyDict.get, codec_present.
  destruct (PyDict.lookup k fmt) as [v|]; [|split; [done | by intros (v & [=] & _)]].
  rewrite andb_true_iff, negb_true_iff. split.
  - intros [Ht Hn]. exists v. split; [done|]. split; [done|].
    intros Heq. apply eq_str_spec in Heq. congruence.
  - intros (v' & [= <-] & Ht & Hn). split; [done|].
    destruct (eq_str v "none") eqn:Heq; [|done].
    by apply eq_str_spec in Heq.
Qed.

(** The test of the loop is the filter the specification words. *)
Lemma is_full_video_spec (fmt : Dict) :
  is_full_video fmt = true <-> audio_and_video fmt.
Proof.
  unfold is_full_video, audio_and_video.
  rewrite !andb_true_iff, negb_true_iff, !codec_present_spec.
  assert (Hs : is_storyboard fmt = false
               <-> PyDict.lookup "format_note" fmt <> Some (PStr "storyboard")).
  { unfold is_storyboard, PyDict.get.
    destruct (PyDict.lookup "format_note" fmt) as [v|]; [|done].
    destruct (eq_str v "storyboard") eqn:Heq.
    - apply eq_str_spec in Heq as ->. split; [done | by intros []].
    - split; [|done]. intros _ [= ->]. vm_compute in Heq. discriminate Heq. }
  rewrite Hs. tauto.
Qed.

(** A cleaned format has the nine keys with the format's own values. *)
Lemma clean_format_persists (fmt : Dict) : persisted_format fmt (clean_format fmt).
Proof.
  split; [reflexivity|].
  intros k Hk. unfold format_keys in Hk. cbn [In] in Hk.
  unfold clean_format, PyDict.get.
  repeat (destruct Hk as [<-|Hk]; [reflexivity|]). done.
Qed.

Lemma clean_formats_persist (kept : list Dict) :
  Forall2 persisted_format kept (map clean_format kept).
Proof.
  induction kept as [|fmt kept IH]; constructor; [|done].
  apply clean_format_persists.
Qed.

(* ===================================================================== *)
(** * The error classification of [fetch_from_ytdlp] *)
(* ===================================================================== *)

Section Classification.
Context {W : Type} (E : Env W).

Lemma try_block_extract_raises (video_url : string) (total_start : Q)
    (cookie : option string) (result timings : Dict) (st : State W)
    (e : Exc) (w : W) :
  ydl_extract_info E video_url (truthy_str cookie)
    (snd (perf_counter E (world st))) = (Exn e, w) ->
  try_block E video_url total_start cookie result timings st
  = (Val (result, timings, Exn e), after_failed_extract video_url cookie w st).
Proof.
  intros Hx. unfold try_block. unfold_monad.
  destruct (perf_counter E (world st)) as [t0 w0]. simpl in *.
  by rewrite Hx.
Qed.

(** One iteration of the loop in which [extract_info] raises [e] and the
    [except] clause decides to return. *)
Lemma attempt_returns_empty (video_url : string) (total_start : Q)
    (max_attempts attempt : nat) (rest : list nat) (result timings : Dict)
    (st : State W) (cookie : option string) (e : Exc) (w : W) :
  get_current_cookie (COOKIE_MANAGER st) = Val cookie ->
  ydl_extract_info E video_url (truthy_str cookie)
    (snd (perf_counter E (world st))) = (Exn e, w) ->
  on_exception attempt max_attempts e
    (after_failed_extract video_url cookie w st)
  = (Val ReturnEmpty, after_failed_extract video_url cookie w st) ->
  attempts_loop E video_url total_start max_attempts (attempt :: rest)
    result timings st
  = (Val [], after_failed_extract video_url cookie w st).
Proof.
  intros Hc Hx Hh. simpl.
  unfold bind at 1. unfold get_manager at 1.
  unfold bind at 1. unfold lift at 1. rewrite Hc.
  unfold bind at 1. rewrite (try_block_extract_raises _ _ _ _ _ _ _ _ Hx).
  unfold bind at 1. by rewrite Hh.
Qed.

(** C2. When the primary extraction raises an exception whose lowercased
    message contains one of the unavailable keywords, the attempt returns
    the empty result at once, on any attempt and with any attempts left:
    the cookie manager is as before (no rotation) and the only event of
    the attempt is that one extraction (no further attempt), whatever
    else the message contains. *)
Theorem unavailable_returns_empty (video_url : string) (total_start : Q)
    (max_attempts attempt : nat) (rest : list nat) (result timings : Dict)
    (st : State W) (cookie : option string) (e : Exc) (w : W) :
  get_current_cookie (COOKIE_MANAGER st) = Val cookie ->
  ydl_extract_info E video_url (truthy_str cookie)
    (snd (perf_counter E (world st))) = (Exn e, w) ->
  PyStr.any_in unavailable_indicators (PyStr.lower (exc_msg e)) = true ->
  attempts_loop E video_url total_start max_attempts (attempt :: rest)
    result timings st
  = (Val [], after_failed_extract video_url cookie w st).
Proof.
  intros Hc Hx Hu. apply attempt_returns_empty with (e := e); try done.
  unfold on_exception. by rewrite Hu.
Qed.

(** C3. When the primary extraction raises an exception that is neither
    unavailable nor a timeout nor blocking, the attempt returns the empty
    result without rotating the cookie and without another attempt, on
    any attempt number and however many attempts are left. *)
Theorem other_error_never_retries (video_url : string) (total_start : Q)
    (max_attempts attempt : nat) (rest : list nat) (result timings : Dict)
    (st : State W) (cookie : option string) (e : Exc) (w : W) :
  get_current_cookie (COOKIE_MANAGER st) = Val cookie ->
  ydl_extract_info E video_url (truthy_str cookie)
    (snd (perf_counter E (world st))) = (Exn e, w) ->
  PyStr.any_in unavailable_indicators (PyStr.lower (exc_msg e)) = false ->
  PyStr.any_in timeout_indicators (PyStr.lower (exc_msg e)) = false ->
  is_blocked_error e = false ->
  attempts_loop E video_url total_start max_attempts (attempt :: rest)
    result timings st
  = (Val [], after_failed_extract video_url cookie w st).
Proof.
  intros Hc Hx Hu Ht Hb. apply attempt_returns_empty with (e := e); try done.
  unfold on_exception. by rewrite Hu, Ht, Hb.
Qed.

End Classification.

Lemma unavailable_returns_empty_witness :
  attempts_loop (Scenario.raising Scenario.unavailable_403) "u" 0 2 [0; 1]
    [] timings0 Scenario.two_cookies
  = (Val [],
     mkState tt (mkManager ["a.txt"; "b.txt"] 0) None None
       [EvExtract "u" (Some "a.txt")]).
Proof.
  apply (unavailable_returns_empty (Scenario.raising Scenario.unavailable_403)
           "u" 0 2 0 [1] [] timings0 Scenario.two_cookies (Some "a.txt")
           Scenario.unavailable_403 tt);
    reflexivity.
Defined.

Lemma other_error_never_retries_witness :
  attempts_loop (Scenario.raising Scenario.other_error) "u" 0 2 [0; 1]
    [] timings0 Scenario.two_cookies
  = (Val [],
     mkState tt (mkManager ["a.txt"; "b.txt"] 0) None None
       [EvExtract "u" (Some "a.txt")]).
Proof.
  apply (other_error_never_retries (Scenario.raising Scenario.other_error)
           "u" 0 2 0 [1] [] timings0 Scenario.two_cookies (Some "a.txt")
           Scenario.other_error tt);
    reflexivity.
Defined.

(* ===================================================================== *)
(** * What a successful fetch returns *)
(* ===================================================================== *)

Lemma captions_loop_lookup (languages : list string) (auto_map : Dict)
    (auto_sec : Q) (result timings : Dict) (k : string) :
  k <> "automatic_captions" ->
  PyDict.lookup k (fst (captions_loop languages auto_map auto_sec result timings))
  = PyDict.lookup k result.
Proof.
  intros Hk. revert result timings.
  induction languages as [|lang languages IH]; intros result timings; [done|].
  simpl. rewrite IH.
  destruct (truthy _); [|done]. by rewrite lookup_set_ne.
Qed.

Lemma set_duration_lookup (duration : option Num) (result : Dict) :
  PyDict.lookup "duration_seconds" result = None ->
  PyDict.lookup "duration_seconds" (set_duration duration result)
  = duration_entry duration.
Proof.
  intros Hnone. unfold set_duration, duration_entry.
  destruct duration as [d|]; [|done].
  destruct (duration_truthy (Some d)); [|done]. apply lookup_set_eq.
Qed.

Lemma set_duration_lookup_other (duration : option Num) (result : Dict)
    (k : string) :
  k <> "duration_seconds" ->
  PyDict.lookup k (set_duration duration result) = PyDict.lookup k result.
Proof.
  intros Hk. unfold set_duration.
  destruct duration as [d|]; [|done].
  destruct (duration_truthy (Some d)); [|done]. by apply lookup_set_ne.
Qed.

Lemma project_info_projects (info : Info) (result timings : Dict) :
  PyDict.lookup "duration_seconds" result = None ->
  projects info (PyDict.set "timings_ytdlp" (PDict timings)
                   (project_info info result)).
Proof.
  intros Hnone. unfold projects, project_info. repeat split.
  - apply set_not_empty.
  - rewrite lookup_set_ne, set_duration_lookup_other, lookup_set_ne by done.
    apply lookup_set_eq.
  - rewrite lookup_set_ne, set_duration_lookup_other by done.
    apply lookup_set_eq.
  - rewrite lookup_set_ne by done. apply set_duration_lookup.
    by rewrite !lookup_set_ne.
Qed.

Section Success.
Context {W : Type} (E : Env W).

Lemma call_total_runs {A} (f : W -> A * W) (st : State W) :
  exists a w,
    call_total f st
    = (Val a, mkState w (COOKIE_MANAGER st) (lcpt st) (lcdt st) (trace st)).
Proof.
  unfold call_total, call. destruct (f (world st)) as [a w]. eauto.
Qed.

Lemma catch_runs {A} (c : M W A) (st : State W) :
  exists o st', catch c st = (Val o, st').
Proof. unfold catch. destruct (c st). eauto. Qed.

Lemma cleanup_runs (paths : list string) (st : State W) :
  exists st', _cleanup_paths E paths st = (Val tt, st').
Proof.
  revert st. induction paths as [|p paths IH]; intros st; simpl; [by eexists|].
  unfold bind at 1. unfold bind at 1.
  destruct (String.eqb p ""); unfold_monad; simpl; apply IH.
Qed.

Ltac run_total H lemma :=
  unfold bind at 1 in H;
  let a := fresh "a" in let w := fresh "w" in let Heq := fresh "Heq" in
  destruct lemma as (a & w & Heq); rewrite Heq in H; clear Heq;
  cbv beta iota in H.

Lemma after_info_spec (video_url : string) (total_start : Q) (info : Info)
    (result timings : Dict) (st st' : State W)
    (out : Outcome (Dict * Dict * Outcome Dict)) :
  after_info E video_url total_start info result timings st = (out, st') ->
  PyDict.lookup "duration_seconds" result = None ->
  exists result' timings' how,
    out = Val (result', timings', how)
    /\ match how with
       | Val r => projects info r
       | Exn _ => PyDict.lookup "duration_seconds" result' = None
       end.
Proof.
  intros Hrun Hnone. unfold after_info in Hrun.
  run_total Hrun (call_total_runs (perf_counter E) st).
  unfold bind at 1 in Hrun.
  match type of Hrun with
  | context [catch ?c ?s] =>
      destruct (catch_runs c s) as (o & s1 & Hcap); rewrite Hcap in Hrun;
      clear Hcap
  end.
  destruct o as [[[[auto_map tmpdir] auto_sec] saw]|e].
  - destruct (captions_loop _ auto_map auto_sec _ timings) as [result1 timings1]
      eqn:Hloop.
    unfold bind at 1 in Hrun.
    destruct (cleanup_runs [tmpdir] s1) as (s2 & Hclean).
    rewrite Hclean in Hrun. clear Hclean.
    run_total Hrun (call_total_runs (perf_counter E) s2).
    run_total Hrun (call_total_runs (perf_counter E)
                      (mkState w0 (COOKIE_MANAGER s2) (lcpt s2) (lcdt s2) (trace s2))).
    unfold ret in Hrun. injection Hrun as <- <-.
    do 3 eexists. split; [done|]. apply project_info_projects.
    match type of Hloop with
    | captions_loop ?l ?a ?s ?r ?t = _ =>
        pose proof (captions_loop_lookup l a s r t "duration_seconds"
                      ltac:(done)) as Hl
    end.
    rewrite Hloop in Hl. cbn [fst] in Hl. rewrite Hl.
    by rewrite !lookup_set_ne.
  - unfold ret in Hrun. injection Hrun as <- <-.
    do 3 eexists. split; [done|]. by rewrite !lookup_set_ne.
Qed.

Lemma try_block_spec (video_url : string) (total_start : Q)
    (cookie : option string) (result timings : Dict) (st st' : State W)
    (out : Outcome (Dict * Dict * Outcome Dict)) :
  try_block E video_url total_start cookie result timings st = (out, st') ->
  PyDict.lookup "duration_seconds" result = None ->
  exists result' timings' how,
    out = Val (result', timings', how)
    /\ match how with
       | Val r =>
           r = []
           \/ exists info w w',
                ydl_extract_info E video_url (truthy_str cookie) w
                = (Val (Some info), w')
                /\ projects info r
       | Exn _ => PyDict.lookup "duration_seconds" result' = None
       end.
Proof.
  intros Hrun Hnone. unfold try_block in Hrun.
  run_total Hrun (call_total_runs (perf_counter E) st).
  unfold bind at 1 in Hrun. unfold emit at 1 in Hrun. cbv beta iota in Hrun.
  unfold bind at 1 in Hrun. unfold catch at 1, call at 1 in Hrun.
  cbn [world COOKIE_MANAGER lcpt lcdt trace] in Hrun.
  destruct (ydl_extract_info E video_url (truthy_str cookie) w)
    as [[[info|]|e] w1] eqn:Hx; cbv beta iota in Hrun.
  - match type of Hrun with
    | bind _ _ ?s = _ => run_total Hrun (call_total_runs (perf_counter E) s)
    end.
    apply after_info_spec in Hrun as (result' & timings' & how & -> & Hhow);
      [|done].
    exists result', timings', how. split; [done|].
    destruct how as [r|e]; [|done]. right. eauto.
  - match type of Hrun with
    | bind _ _ ?s = _ => run_total Hrun (call_total_runs (perf_counter E) s)
    end.
    unfold ret in Hrun. injection Hrun as <- <-.
    do 3 eexists. split; [done|]. by left.
  - unfold ret in Hrun. injection Hrun as <- <-.
    do 3 eexists. split; [done|]. done.
Qed.

Lemma attempts_loop_spec (video_url : string) (total_start : Q)
    (max_attempts : nat) (attempts : list nat) (result timings : Dict)
    (st st' : State W) (r : Dict) :
  attempts_loop E video_url total_start max_attempts attempts result timings st
  = (Val r, st') ->
  PyDict.lookup "duration_seconds" result = None ->
  r = []
  \/ exists info cookie w w',
       ydl_extract_info E video_url cookie w = (Val (Some info), w')
       /\ projects info r.
Proof.
  revert result timings st.
  induction attempts as [|attempt rest IH]; intros result timings st Hrun Hnone.
  - left. simpl in Hrun. unfold ret in Hrun. congruence.
  - simpl in Hrun.
    unfold bind at 1 in Hrun. unfold get_manager at 1 in Hrun.
    unfold bind at 1 in Hrun. unfold lift at 1 in Hrun.
    destruct (get_current_cookie (COOKIE_MANAGER st)) as [cookie|e]; [|done].
    unfold bind at 1 in Hrun.
    destruct (try_block E video_url total_start cookie result timings st)
      as [out s1] eqn:Htry.
    apply try_block_spec in Htry as (result' & timings' & how & -> & Hhow);
      [|done].
    destruct how as [r'|e].
    + unfold ret in Hrun. injection Hrun as -> ->.
      destruct Hhow as [->|(info & w & w' & Hx & Hp)]; [by left|].
      right. eauto 6.
    + unfold bind at 1 in Hrun.
      destruct (on_exception attempt max_attempts e s1) as [[[]|e'] s2]; [| |done].
      * left. unfold ret in Hrun. congruence.
      * by apply IH in Hrun.
Qed.

(** A non-empty result of [fetch_from_ytdlp] is the projection of a
    record that [extract_info] returned for this URL. *)
Lemma fetch_from_ytdlp_projects (video_url : string) (st st' : State W)
    (r : Dict) :
  fetch_from_ytdlp E video_url st = (Val r, st') ->
  r <> [] ->
  exists info cookie w w',
    ydl_extract_info E video_url cookie w = (Val (Some info), w')
    /\ projects info r.
Proof.
  intros Hrun Hne. unfold fetch_from_ytdlp in Hrun.
  run_total Hrun (call_total_runs (perf_counter E) st).
  unfold bind at 1 in Hrun. unfold get_manager at 1 in Hrun.
  apply attempts_loop_spec in Hrun as [->|H]; done.
Qed.

End Success.

Section Projection.
Context {W : Type} (E : Env W).

(** C6. The [formats] field of a fetched record holds, each cleaned to
    its nine persisted keys with the format's own values, the last two at
    most of the formats that are not storyboards and have both codecs
    present and different from 'none': a suffix of the filtered list, in
    the original order. *)
Theorem formats_are_filtered_suffix (video_url : string) (st st' : State W)
    (r : Dict) :
  fetch_from_ytdlp E video_url st = (Val r, st') ->
  r <> [] ->
  exists info cookie w w',
    ydl_extract_info E video_url cookie w = (Val (Some info), w')
    /\ exists kept dropped entries,
         PyDict.lookup "formats" r = Some (PList (map PDict entries))
         /\ Forall2 persisted_format kept entries
         /\ kept = spec_formats (info_formats info)
         /\ List.filter is_full_video (info_formats info)
            = (dropped ++ kept)%list
         /\ List.length kept
            = Nat.min 2 (List.length (List.filter is_full_video (info_formats info)))
         /\ (forall fmt, is_full_video fmt = true <-> audio_and_video fmt)
         /\ entries = map clean_format kept.
Proof.
  intros Hrun Hne.
  destruct (fetch_from_ytdlp_projects E _ _ _ _ Hrun Hne)
    as (info & cookie & w & w' & Hx & _ & Hf & _ & _).
  exists info, cookie, w, w'. split; [done|].
  destruct (spec_formats_suffix (info_formats info)) as (Hlen & dropped & Hsuf).
  exists (spec_formats (info_formats info)), dropped,
    (map clean_format (spec_formats (info_formats info))).
  split; [by rewrite Hf, formats_field_spec, map_map|].
  split; [apply clean_formats_persist|].
  repeat split; try done; by apply is_full_video_spec.
Qed.

(** C7 (amended). A fetched record has the integer field
    [duration_seconds] exactly when the metadata reports a duration that
    is not zero; it is omitted when the duration is unknown, and also
    when it is zero. When present it is the reported duration truncated
    towards zero. *)
Theorem duration_seconds_when_nonzero (video_url : string) (st st' : State W)
    (r : Dict) :
  fetch_from_ytdlp E video_url st = (Val r, st') ->
  r <> [] ->
  exists info cookie w w',
    ydl_extract_info E video_url cookie w = (Val (Some info), w')
    /\ (is_Some (PyDict.lookup "duration_seconds" r) <->
        exists d, info_duration info = Some d
                  /\ duration_truthy (Some d) = true)
    /\ (forall d, info_duration info = Some d ->
                  duration_truthy (Some d) = true ->
                  PyDict.lookup "duration_seconds" r
                  = Some (PInt (int_of_num d))).
Proof.
  intros Hrun Hne.
  destruct (fetch_from_ytdlp_projects E _ _ _ _ Hrun Hne)
    as (info & cookie & w & w' & Hx & _ & _ & _ & Hd).
  exists info, cookie, w, w'. split; [done|].
  rewrite Hd. unfold duration_entry.
  destruct (info_duration info) as [d|].
  - destruct (duration_truthy (Some d)) eqn:Ht; split.
    + split; [by exists d | by eexists].
    + by intros d' [= <-] _.
    + split; [by intros [? [=]] | by intros (d' & [= <-] & ?); congruence].
    + intros d' [= <-]. congruence.
  - split; [|done]. split; [by intros [? [=]] | by intros (d & [=] & _)].
Qed.

End Projection.

Lemma formats_are_filtered_suffix_witness :
  exists r : Dict,
    PyDict.lookup "formats" r
    = Some (PList [ PDict (Scenario.persisted_of "18" "avc1.42001E" "mp4a.40.2");
                    PDict (Scenario.persisted_of "22" "avc1.64001F" "mp4a.40.2") ])
    /\ exists info cookie w w',
         ydl_extract_info
           (Scenario.one_video (Scenario.info_with Scenario.five_formats None))
           "u" cookie w = (Val (Some info), w')
         /\ exists kept dropped entries,
              PyDict.lookup "formats" r = Some (PList (map PDict entries))
              /\ Forall2 persisted_format kept entries
              /\ kept = spec_formats (info_formats info)
              /\ List.filter is_full_video (info_formats info)
                 = (dropped ++ kept)%list
              /\ List.length kept
                 = Nat.min 2 (List.length
                                (List.filter is_full_video (info_formats info)))
              /\ (forall fmt, is_full_video fmt = true <-> audio_and_video fmt)
              /\ entries = map clean_format kept.
Proof.
  eexists. split; cycle 1.
  - eapply (formats_are_filtered_suffix
              (Scenario.one_video (Scenario.info_with Scenario.five_formats None))
              "u" Scenario.no_cookies).
    + vm_compute. reflexivity.
    + discriminate.
  - vm_compute. reflexivity.
Defined.

(** C7, as stated, fails: a reported duration of zero is known, and the
    record carries no [duration_seconds]. *)
Lemma duration_zero_is_omitted :
  exists r st',
    fetch_from_ytdlp
      (Scenario.one_video (Scenario.info_with [] (Some (NInt 0))))
      "u" Scenario.no_cookies = (Val r, st')
    /\ r <> []
    /\ PyDict.lookup "duration_seconds" r = None.
Proof.
  do 2 eexists. split; [vm_compute; reflexivity|]. split; [discriminate|].
  vm_compute. reflexivity.
Qed.

Lemma duration_seconds_when_nonzero_witness :
  exists r : Dict,
    PyDict.lookup "duration_seconds" r = Some (PInt 125)
    /\ exists info cookie w w',
         ydl_extract_info
           (Scenario.one_video
              (Scenario.info_with [] (Some (NFloat (1257 # 10)))))
           "u" cookie w = (Val (Some info), w')
         /\ (is_Some (PyDict.lookup "duration_seconds" r) <->
             exists d, info_duration info = Some d
                       /\ duration_truthy (Some d) = true)
         /\ (forall d, info_duration info = Some d ->
                       duration_truthy (Some d) = true ->
                       PyDict.lookup "duration_seconds" r
                       = Some (PInt (int_of_num d))).
Proof.
  eexists. split; cycle 1.
  - eapply (duration_seconds_when_nonzero
              (Scenario.one_video
                 (Scenario.info_with [] (Some (NFloat (1257 # 10)))))
              "u" Scenario.no_cookies).
    + vm_compute. reflexivity.
    + discriminate.
  - vm_compute. reflexivity.
Defined.

(* ===================================================================== *)
(** * The naming loop of [get_next_data_file_path] terminates *)
(* ===================================================================== *)

Lemma mem_In (x : string) (xs : list string) :
  PyStr.mem x xs = true <-> In x xs.
Proof.
  unfold PyStr.mem. rewrite existsb_exists. split.
  - intros (y & Hy & ->%String.eqb_eq). done.
  - intros H. exists x. split; [done | apply String.eqb_refl].
Qed.

Lemma append_inj_l (p a b : string) : p ++ a = p ++ b -> a = b.
Proof. induction p as [|c p IH]; simpl; [done|]. intros [= H]. auto. Qed.

Lemma append_inj_len (a b s t : string) :
  String.length a = String.length b -> a ++ s = b ++ t -> a = b.
Proof.
  revert b. induction a as [|c a IH]; intros [|c' b]; simpl; try done.
  intros [= Hlen] [= -> H]. f_equal. by apply IH.
Qed.

Lemma string_length_append (a b : string) :
  String.length (a ++ b) = String.length a + String.length b.
Proof. induction a as [|c a IH]; simpl; [done|]. by rewrite IH. Qed.

Lemma append_inj_r (a b s : string) : a ++ s = b ++ s -> a = b.
Proof.
  intros H. apply (append_inj_len a b s s); [|done].
  apply (f_equal String.length) in H. rewrite !string_length_append in H. lia.
Qed.

Lemma of_nat_inj (n m : nat) : PyStr.of_nat n = PyStr.of_nat m -> n = m.
Proof.
  unfold PyStr.of_nat. intros H.
  apply DecimalNat.Unsigned.to_uint_inj.
  apply (f_equal NilEmpty.uint_of_string) in H.
  rewrite !NilEmpty.usu in H. congruence.
Qed.

Lemma data_filename_inj (date_str : string) (c1 c2 : nat) :
  data_filename date_str c1 = data_filename date_str c2 -> c1 = c2.
Proof.
  unfold data_filename.
  destruct (Nat.eqb_spec c1 1) as [->|H1], (Nat.eqb_spec c2 1) as [->|H2];
    try done; intros H;
    apply append_inj_l in H; apply append_inj_l in H.
  - discriminate H.
  - discriminate H.
  - apply append_inj_l with (p := "_") in H.
    by apply append_inj_r, of_nat_inj in H.
Qed.

Lemma first_free_path_None (fuel : nat) (existing : list string)
    (date_str : string) (counter : nat) :
  first_free_path fuel existing date_str counter = None ->
  forall i, i < fuel ->
    In (in_tmp_dir (data_filename date_str (counter + i))) existing.
Proof.
  revert counter. induction fuel as [|fuel IH]; intros counter Hnone i Hi; [lia|].
  simpl in Hnone.
  destruct (PyStr.mem _ existing) eqn:Hmem; [|done].
  destruct i as [|i].
  - rewrite Nat.add_0_r. by apply mem_In.
  - replace (counter + S i) with (S counter + i) by lia.
    apply IH; [done | lia].
Qed.

Lemma first_free_path_Some (fuel : nat) (existing : list string)
    (date_str : string) (counter : nat) (p : string) :
  first_free_path fuel existing date_str counter = Some p ->
  PyStr.mem p existing = false.
Proof.
  revert counter. induction fuel as [|fuel IH]; intros counter; simpl; [done|].
  destruct (PyStr.mem (in_tmp_dir (data_filename date_str counter)) existing)
    eqn:Hmem; [apply IH|].
  by intros [= <-].
Qed.

(** With one more unit of fuel than there are paths, the naming loop finds
    a free path: the names of different counters are different. *)
Lemma first_free_path_total (existing : list string) (date_str : string)
    (counter : nat) :
  exists p,
    first_free_path (S (List.length existing)) existing date_str counter = Some p.
Proof.
  destruct (first_free_path _ existing date_str counter) as [p|] eqn:Hf;
    [by exists p|].
  exfalso.
  pose proof (first_free_path_None _ _ _ _ Hf) as Hall.
  set (names := (fun i => in_tmp_dir (data_filename date_str (counter + i)))
                  <$> seq 0 (S (List.length existing))).
  assert (Hnd : NoDup names).
  { apply NoDup_fmap_2_strong; [|apply NoDup_seq].
    intros i j _ _ Hij. unfold in_tmp_dir in Hij.
    apply append_inj_l, append_inj_l, data_filename_inj in Hij. lia. }
  assert (Hsub : names ⊆+ existing).
  { apply NoDup_submseteq; [done|].
    intros x (i & -> & Hi)%list_elem_of_fmap.
    apply list_elem_of_In, Hall. apply elem_of_seq in Hi. lia. }
  apply submseteq_length in Hsub.
  unfold names in Hsub. rewrite length_fmap, length_seq in Hsub. lia.
Qed.

(* ===================================================================== *)
(** * The size of the active shard *)
(* ===================================================================== *)

Lemma count_videos_set (k : string) (v : pyval) (d : Dict) :
  count_videos (PyDict.set k v d) <= S (count_videos d).
Proof.
  unfold count_videos. induction d as [|[k' v'] d IH]; simpl.
  - destruct (negb _ && _); simpl; lia.
  - destruct (String.eqb k k') eqn:Hk; simpl.
    + destruct (negb (String.eqb k "_metadata") && is_dict v),
               (negb (String.eqb k' "_metadata") && is_dict v'); simpl; lia.
    + destruct (negb (String.eqb k' "_metadata") && is_dict v'); simpl; lia.
Qed.

Lemma count_videos_set_skipped (k : string) (v : pyval) (d : Dict) :
  String.eqb k "_metadata" = true ->
  count_videos (PyDict.set k v d) = count_videos d.
Proof.
  intros Hm. unfold count_videos.
  induction d as [|[k' v'] d IH]; simpl.
  - by rewrite Hm.
  - destruct (String.eqb k k') eqn:Hk; simpl.
    + apply String.eqb_eq in Hk. subst k'. by rewrite Hm.
    + destruct (negb (String.eqb k' "_metadata") && is_dict v'); simpl;
        by rewrite IH.
Qed.

Lemma count_videos_set_metadata (v : pyval) (d : Dict) :
  count_videos (PyDict.set "_metadata" v d) = count_videos d.
Proof. by apply count_videos_set_skipped. Qed.

Section Shards.
Context {W : Type} (E : Env W).

Lemma save_data_file_keeps_count (file_path : string) (d : Dict)
    (st : State W) :
  exists d' st',
    save_data_file E file_path (PDict d) st = (Val (PDict d'), st')
    /\ count_videos d' = count_videos d.
Proof.
  unfold save_data_file.
  set (d1 := if PyDict.has "_metadata" d then d
             else PyDict.set "_metadata" (PDict []) d).
  assert (Hd1 : count_videos d1 = count_videos d).
  { subst d1. destruct (PyDict.has _ d); [done|]. apply count_videos_set_metadata. }
  unfold bind at 1.
  match goal with
  | |- context [catch ?c st] => destruct (catch_runs c st) as (o & s1 & ->)
  end.
  destruct o as [metadata|e].
  - unfold bind at 1. unfold try_except.
    destruct (write_and_gate E file_path _ s1) as [[[]|e] s2]; unfold ret;
      do 2 eexists; (split; [done|]); by rewrite count_videos_set_metadata.
  - unfold ret. by do 2 eexists.
Qed.

Lemma try_last_file_Some (last_file p : string) (st st' : State W) :
  try_last_file E last_file st = (Val (Some p), st') ->
  exists d,
    read_json E p (world st') = Some (PDict d)
    /\ count_videos d < DATA_FILE_SIZE.
Proof.
  unfold try_last_file, do_upload. unfold_monad. simpl.
  destruct (run_wget E _ (world st)) as [[[]|e] w1]; [|done]. simpl.
  destruct (read_json E _ w1) as [data|] eqn:Hread; [|done].
  destruct (video_count data) as [n|e] eqn:Hcount; [|done].
  destruct (n <? DATA_FILE_SIZE)%nat eqn:Hlt.
  - intros [= <- <-]. simpl.
    destruct data as [| | | | | |d]; try done. injection Hcount as <-.
    exists d. split; [done|]. by apply Nat.ltb_lt.
  - simpl. destruct (upload_file E _ _ w1) as [[[]|e] w2]; [|done]. simpl.
    destruct (os_remove E _ w2) as [[[]|e] w3]; done.
Qed.

(** The rule by which the next active shard is chosen: the file named by
    [get_next_data_file_path], read by [load_data_file], is either a
    fresh shard or a dictionary with fewer than [DATA_FILE_SIZE] video
    entries (the most recent remote data file). *)
Lemma next_shard_spec (st st1 st2 : State W) (file : string) (data : pyval) :
  get_next_data_file_path E st = (Val file, st1) ->
  load_data_file E file st1 = (Val data, st2) ->
  (exists created_at, data = fresh_shard created_at)
  \/ (exists d, data = PDict d /\ count_videos d < DATA_FILE_SIZE).
Proof.
  unfold get_next_data_file_path, get_existing_data_files.
  unfold bind at 1. unfold bind at 1.
  destruct (call (list_repo_files E) st) as [[l|e] s0]; [|done].
  unfold ret at 1. unfold bind at 1.
  set (existing_files := PyStr.sorted _).
  assert (Hload_fresh : forall s s' created,
             load_data_file E file s = (Val created, s') ->
             PyStr.mem file (existing_paths E (world s)) = false ->
             exists created_at, created = fresh_shard created_at).
  { intros s s' created. unfold load_data_file, path_exists. unfold_monad.
    intros Hl Hm. rewrite Hm in Hl. simpl in Hl.
    destruct (now_isoformat E (world s)) as [now w]. injection Hl as <- _.
    by exists now. }
  assert (Hload_same : forall s s' loaded d,
             load_data_file E file s = (Val loaded, s') ->
             read_json E file (world s) = Some (PDict d) ->
             (exists created_at, loaded = fresh_shard created_at)
             \/ loaded = PDict d).
  { intros s s' loaded d. unfold load_data_file, path_exists. unfold_monad.
    intros Hl Hr.
    destruct (PyStr.mem file (existing_paths E (world s))); simpl in Hl.
    - rewrite Hr in Hl. injection Hl as <- _. by right.
    - destruct (now_isoformat E (world s)) as [now w]. injection Hl as <- _.
      left. by exists now. }
  assert (Hnaming : forall s,
             (date_str <~ call_total (now_date E) ;;
              existing <~ ask (existing_paths E) ;;
              match first_free_path (S (List.length existing)) existing date_str 1 with
              | Some p => ret p
              | None => raise (mkExc "RuntimeError" "naming loop out of fuel")
              end) s = (Val file, st1) ->
             PyStr.mem file (existing_paths E (world st1)) = false).
  { intros s. unfold_monad. destruct (now_date E (world s)) as [date w].
    cbn [world COOKIE_MANAGER lcpt lcdt trace].
    destruct (first_free_path _ _ date 1) as [p|] eqn:Hf; [|done].
    intros [= <- <-]. simpl. by apply first_free_path_Some in Hf. }
  destruct (List.last (map Some existing_files) None) as [last_file|].
  - unfold try_except.
    destruct (try_last_file E last_file s0) as [[[p|]|e] s1] eqn:Htry.
    + unfold ret. intros [= <- <-] Hload.
      apply try_last_file_Some in Htry as (d & Hread & Hlt).
      destruct (Hload_same _ _ _ _ Hload Hread) as [Hfresh| ->]; [by left|].
      right. by exists d.
    + unfold ret at 1. intros Hname Hload. left.
      eapply Hload_fresh; [done|]. by eapply Hnaming.
    + unfold ret at 1. intros Hname Hload. left.
      eapply Hload_fresh; [done|]. by eapply Hnaming.
  - unfold ret at 1. intros Hname Hload. left.
    eapply Hload_fresh; [done|]. by eapply Hnaming.
Qed.

Lemma store_result_bound (video_id : string) (b b1 : Batch)
    (st st1 : State W) (n : nat) :
  store_result E video_id b st = (Val b1, st1) ->
  holds_at_most n (current_data b) ->
  holds_at_most (S n) (current_data b1).
Proof.
  intros Hrun (d & Hd & Hn). unfold store_result in Hrun.
  unfold bind at 1 in Hrun.
  destruct (fetch_from_ytdlp E _ st) as [[data|e] s] eqn:Hfetch; [|done].
  unfold bind at 1 in Hrun. rewrite Hd in Hrun.
  destruct data as [|item data].
  - unfold ret in Hrun. injection Hrun as <- _. simpl.
    exists d. split; [done | lia].
  - unfold lift, ret in Hrun. simpl in Hrun. injection Hrun as <- _. simpl.
    eexists. split; [done|].
    etrans; [apply count_videos_set | lia].
Qed.

Lemma checkpoint_count (b b' : Batch) (st st' : State W) (d : Dict) :
  checkpoint E b st = (Val b', st') ->
  current_data b = PDict d ->
  exists d', current_data b' = PDict d' /\ count_videos d' = count_videos d.
Proof.
  intros Hrun Hd. unfold checkpoint in Hrun.
  destruct (processed_count b mod 20 =? 0)%nat.
  - unfold bind at 1 in Hrun.
    destruct (save_progress E _ st) as [[[]|e] s1]; [|done].
    unfold bind at 1 in Hrun. rewrite Hd in Hrun.
    unfold lift at 1 in Hrun. cbn [video_count] in Hrun.
    unfold bind at 1 in Hrun.
    destruct (save_data_file_keeps_count (current_data_file b) d s1)
      as (d' & s2 & Hsave & Hcount).
    rewrite Hsave in Hrun. unfold ret in Hrun. injection Hrun as <- _.
    by exists d'.
  - unfold ret in Hrun. injection Hrun as <- _. by exists d.
Qed.

Lemma checkpoint_bound (b b' : Batch) (st st' : State W) (n : nat) :
  checkpoint E b st = (Val b', st') ->
  holds_at_most n (current_data b) ->
  holds_at_most n (current_data b').
Proof.
  intros Hrun (d & Hd & Hn).
  destruct (checkpoint_count _ _ _ _ _ Hrun Hd) as (d' & Hd' & Hcount).
  exists d'. split; [done | lia].
Qed.

(** What [rollover] leaves: the same batch when the shard is not full,
    otherwise a shard chosen by the reuse-or-create rule. *)
Lemma rollover_spec (b b' : Batch) (st st' : State W) (d : Dict) :
  rollover E b st = (Val b', st') ->
  current_data b = PDict d ->
  (count_videos d < DATA_FILE_SIZE /\ b' = b)
  \/ (DATA_FILE_SIZE <= count_videos d
      /\ ((exists created_at, current_data b' = fresh_shard created_at)
          \/ (exists d', current_data b' = PDict d'
                         /\ count_videos d' < DATA_FILE_SIZE))).
Proof.
  intros Hrun Hd. unfold rollover in Hrun.
  unfold bind at 1 in Hrun. rewrite Hd in Hrun.
  unfold lift at 1 in Hrun. cbn [video_count] in Hrun.
  destruct (Nat.leb_spec DATA_FILE_SIZE (count_videos d)) as [Hfull|Hroom].
  - right. split; [done|].
    unfold bind at 1 in Hrun.
    match type of Hrun with
    | context [match ?c st with _ => _ end] =>
        destruct (c st) as [[saved|e] s1]; [|done]
    end.
    unfold bind at 1 in Hrun.
    destruct (get_next_data_file_path E s1) as [[file|e] s2] eqn:Hnext; [|done].
    unfold bind at 1 in Hrun.
    destruct (load_data_file E file s2) as [[data|e] s3] eqn:Hload; [|done].
    unfold ret in Hrun. injection Hrun as <- _. simpl.
    by eapply next_shard_spec.
  - left. unfold ret in Hrun. injection Hrun as <- _. done.
Qed.

Lemma rollover_bound (b b' : Batch) (st st' : State W) :
  rollover E b st = (Val b', st') ->
  holds_at_most DATA_FILE_SIZE (current_data b) ->
  holds_at_most (DATA_FILE_SIZE - 1) (current_data b').
Proof.
  intros Hrun (d & Hd & Hn).
  destruct (rollover_spec _ _ _ _ _ Hrun Hd)
    as [[Hlt ->]|[_ [[ts Hf]|(d' & Hd' & Hlt)]]].
  - exists d. split; [done | lia].
  - rewrite Hf. eexists. split; [done|].
    change (0 <= DATA_FILE_SIZE - 1). lia.
  - exists d'. split; [done | lia].
Qed.

Lemma loop_points_bound (video_ids : list string) (b : Batch) (st : State W) :
  holds_at_most (DATA_FILE_SIZE - 1) (current_data b) ->
  Forall (fun p => holds_at_most DATA_FILE_SIZE (current_data p))
         (loop_points E video_ids b st).
Proof.
  assert (Hweak : forall data,
             holds_at_most (DATA_FILE_SIZE - 1) data ->
             holds_at_most DATA_FILE_SIZE data).
  { intros data (d & Hd & Hn). exists d. split; [done | lia]. }
  revert b st. induction video_ids as [|video_id rest IH]; intros b st Hb; simpl.
  - constructor; [by apply Hweak | constructor].
  - constructor; [by apply Hweak|].
    destruct (store_result E video_id b st) as [[b1|e] s1] eqn:Hstore;
      [|constructor].
    pose proof (store_result_bound _ _ _ _ _ _ Hstore Hb) as Hb1.
    replace (S (DATA_FILE_SIZE - 1)) with DATA_FILE_SIZE in Hb1 by done.
    constructor; [done|].
    destruct (checkpoint E b1 s1) as [[b2|e] s2] eqn:Hcheck; [|constructor].
    pose proof (checkpoint_bound _ _ _ _ _ Hcheck Hb1) as Hb2.
    constructor; [done|].
    destruct (rollover E b2 s2) as [[b3|e] s3] eqn:Hroll; [|constructor].
    apply IH. by eapply rollover_bound.
Qed.

End Shards.

(* ===================================================================== *)
(** * The full shard is written before the next one is opened *)
(* ===================================================================== *)

Section Growth.
Context {W : Type}.

Lemma grows_ret {A} (a : A) : grows (@ret W A a).
Proof. intros st o st' [= _ <-]. exists []. by rewrite app_nil_r. Qed.

Lemma grows_raise {A} (e : Exc) : grows (@raise W A e).
Proof. intros st o st' [= _ <-]. exists []. by rewrite app_nil_r. Qed.

Lemma grows_lift {A} (o : Outcome A) : grows (@lift W A o).
Proof. intros st o' st' [= _ <-]. exists []. by rewrite app_nil_r. Qed.

Lemma grows_emit (ev : Event) : grows (@emit W ev).
Proof. intros st o st' [= _ <-]. by exists [ev]. Qed.

Lemma grows_call {A} (f : W -> Outcome A * W) : grows (call f).
Proof.
  intros st o st'. unfold call. destruct (f (world st)) as [r w].
  intros [= _ <-]. exists []. by rewrite app_nil_r.
Qed.

Lemma grows_call_total {A} (f : W -> A * W) : grows (call_total f).
Proof. apply grows_call. Qed.

Lemma grows_ask {A} (f : W -> A) : grows (ask f).
Proof. intros st o st' [= _ <-]. exists []. by rewrite app_nil_r. Qed.

Lemma grows_bind {A B} (c : M W A) (k : A -> M W B) :
  grows c -> (forall a, grows (k a)) -> grows (bind c k).
Proof.
  intros Hc Hk st o st'. unfold bind.
  destruct (c st) as [[a|e] s1] eqn:Hrun.
  - intros Hrun2. destruct (Hc _ _ _ Hrun) as [r1 H1].
    destruct (Hk a _ _ _ Hrun2) as [r2 H2].
    exists (r1 ++ r2)%list. by rewrite H2, H1, app_assoc.
  - intros [= _ <-]. by eapply Hc.
Qed.

Lemma grows_try_except {A} (c : M W A) (h : Exc -> M W A) :
  grows c -> (forall e, grows (h e)) -> grows (try_except c h).
Proof.
  intros Hc Hh st o st'. unfold try_except.
  destruct (c st) as [[a|e] s1] eqn:Hrun.
  - intros [= _ <-]. by eapply Hc.
  - intros Hrun2. destruct (Hc _ _ _ Hrun) as [r1 H1].
    destruct (Hh e _ _ _ Hrun2) as [r2 H2].
    exists (r1 ++ r2)%list. by rewrite H2, H1, app_assoc.
Qed.

End Growth.

Create HintDb grows.
#[local] Hint Resolve grows_ret grows_raise grows_lift grows_emit grows_call
  grows_call_total grows_ask : grows.

Ltac grows_step :=
  first
    [ apply grows_bind; [|intros ?]
    | apply grows_try_except; [|intros ?]
    | solve [eauto with grows]
    | match goal with
      | |- grows (match ?x with _ => _ end) => destruct x
      | |- grows (if ?x then _ else _) => destruct x
      end ].

Section Flush.
Context {W : Type} (E : Env W).

Lemma grows_do_upload (path name : string) : grows (do_upload E path name).
Proof. unfold do_upload. repeat grows_step. Qed.

Lemma grows_get_next_data_file_path : grows (get_next_data_file_path E).
Proof.
  unfold get_next_data_file_path, get_existing_data_files, try_last_file.
  pose proof grows_do_upload.
  repeat grows_step.
Qed.

Lemma grows_load_data_file (file_path : string) :
  grows (load_data_file E file_path).
Proof. unfold load_data_file, path_exists. repeat grows_step. Qed.

Lemma grows_save_progress (processed : gset string) :
  grows (save_progress E processed).
Proof.
  intros st o st' Hrun.
  destruct (save_progress_trace E processed st) as (rest & Htr & _).
  rewrite Hrun in Htr. eauto.
Qed.

(** With a well-formed [_metadata] entry, [save_data_file] writes the
    shard it returns, and that is its only event. *)
Lemma save_data_file_writes (file_path : string) (d : Dict) (st : State W) :
  metadata_ok d ->
  exists content st',
    save_data_file E file_path (PDict d) st = (Val content, st')
    /\ trace st' = (trace st ++ [EvWrite file_path content])%list.
Proof.
  intros Hok. unfold save_data_file, write_and_gate, read_local, dump_json.
  unfold_monad.
  destruct (now_isoformat E (world st)) as [now w] eqn:Hnow.
  cbn [world COOKIE_MANAGER lcpt lcdt trace].
  assert (Hmeta : exists m,
             PyDict.get "_metadata" PNone
               (if PyDict.has "_metadata" d then d
                else PyDict.set "_metadata" (PDict []) d) = PDict m).
  { unfold metadata_ok in Hok. unfold PyDict.has, PyDict.get.
    destruct (PyDict.lookup "_metadata" d) as [v|] eqn:Hl.
    - rewrite Hl. destruct v; try done. eauto.
    - rewrite lookup_set_eq. eauto. }
  destruct Hmeta as [m ->]. cbn [py_setitem].
  cbn [world COOKIE_MANAGER lcpt lcdt trace].
  destruct (write_json E file_path _ w) as [[[]|e] w1];
    cbn [world COOKIE_MANAGER lcpt lcdt trace].
  - destruct (time_time E w1) as [t w2].
    cbn [world COOKIE_MANAGER lcpt lcdt trace]. by do 2 eexists.
  - by do 2 eexists.
Qed.

Lemma grows_save_data_file (file_path : string) (data : pyval) :
  grows (save_data_file E file_path data).
Proof.
  intros st o st' Hrun.
  destruct (save_data_file_never_uploads E file_path data st)
    as (_ & rest & Htr & _).
  rewrite Hrun in Htr. eauto.
Qed.

Lemma grows_rollover_tail (p : Batch) :
  grows (file <~ get_next_data_file_path E ;;
         data <~ load_data_file E file ;;
         ret (mkBatch (processed_ids p) (processed_count p) file data)).
Proof.
  pose proof grows_get_next_data_file_path.
  pose proof grows_load_data_file.
  repeat grows_step.
Qed.

Lemma grows_rollover (p : Batch) : grows (rollover E p).
Proof.
  unfold rollover.
  pose proof grows_save_data_file.
  pose proof grows_get_next_data_file_path.
  pose proof grows_load_data_file.
  repeat grows_step.
Qed.

(** In an iteration whose size check finds the bound reached, the shard
    was written to its data file after the store: by the checkpoint when
    the iteration is a multiple of the batch size, by the size check
    otherwise. *)
Lemma full_shard_is_flushed (p1 p2 p' : Batch) (s1 s2 s' : State W)
    (d : Dict) :
  checkpoint E p1 s1 = (Val p2, s2) ->
  rollover E p2 s2 = (Val p', s') ->
  current_data p1 = PDict d ->
  DATA_FILE_SIZE <= count_videos d ->
  metadata_ok d ->
  exists content,
    In (EvWrite (current_data_file p1) content) (new_events s1 s').
Proof.
  intros Hcheck Hroll Hd Hfull Hok. unfold new_events.
  unfold checkpoint in Hcheck.
  destruct (processed_count p1 mod 20 =? 0)%nat eqn:Hmod.
  - (* the checkpoint saves *)
    unfold bind at 1 in Hcheck.
    destruct (save_progress E _ s1) as [[[]|e] sa] eqn:Hprog; [|done].
    destruct (grows_save_progress _ _ _ _ Hprog) as [r1 Htr1].
    unfold bind at 1 in Hcheck. rewrite Hd in Hcheck.
    unfold lift at 1 in Hcheck. cbn [video_count] in Hcheck.
    unfold bind at 1 in Hcheck.
    destruct (save_data_file_writes (current_data_file p1) d sa Hok)
      as (content & sb & Hsave & Htr2).
    rewrite Hsave in Hcheck. unfold ret in Hcheck.
    injection Hcheck as <- <-.
    assert (Hgrow : exists r3, trace s' = (trace sb ++ r3)%list)
      by (by eapply grows_rollover).
    destruct Hgrow as [r3 Htr3].
    exists content. rewrite Htr3, Htr2, Htr1, <- !app_assoc, drop_app_length.
    apply in_or_app. right. apply in_or_app. left. by left.
  - (* the size check saves *)
    unfold ret in Hcheck. injection Hcheck as <- <-.
    unfold rollover in Hroll.
    unfold bind at 1 in Hroll. rewrite Hd in Hroll.
    unfold lift at 1 in Hroll. cbn [video_count] in Hroll.
    destruct (Nat.leb_spec DATA_FILE_SIZE (count_videos d)) as [_|Hlt]; [|lia].
    rewrite Hmod in Hroll. cbn [negb] in Hroll.
    unfold bind at 1 in Hroll.
    destruct (save_data_file_writes (current_data_file p1) d s1 Hok)
      as (content & sb & Hsave & Htr2).
    rewrite Hsave in Hroll.
    destruct (grows_rollover_tail p1 _ _ _ Hroll) as [r3 Htr3].
    exists content. rewrite Htr3, Htr2, <- !app_assoc, drop_app_length.
    apply in_or_app. left. by left.
Qed.

End Flush.

(* ===================================================================== *)
(** * The rule that chooses the next data file *)
(* ===================================================================== *)

Lemma list_last_Some {A} (l : list A) (x : A) :
  List.last (map Some l) None = Some x -> exists l', l = (l' ++ [x])%list.
Proof.
  induction l as [|a l IH]; [done|].
  destruct l as [|b l].
  - intros [= ->]. by exists [].
  - intros H. destruct (IH H) as [l' ->]. by exists (a :: l').
Qed.

Lemma list_last_None {A} (l : list A) :
  List.last (map Some l) None = None -> l = [].
Proof.
  induction l as [|a l IH]; [done|].
  destruct l as [|b l]; [done|].
  intros H. by specialize (IH H).
Qed.

Lemma le_refl (s : string) : PyStr.le s s.
Proof. by destruct (total PyStr.le s s). Qed.

(** The last element of a sorted list is its greatest. *)
Lemma sorted_last_greatest (l : list string) (x : string) :
  List.last (map Some (PyStr.sorted l)) None = Some x ->
  In x l /\ forall y, In y l -> PyStr.le y x.
Proof.
  intros Hlast. apply list_last_Some in Hlast as [l' Hl'].
  pose proof (sorted_StronglySorted l) as Hs. rewrite Hl' in Hs.
  assert (Hin : forall y, In y l <-> In y (l' ++ [x])%list).
  { intros y. rewrite <- Hl', <- !list_elem_of_In.
    by rewrite sorted_Permutation. }
  split.
  - apply Hin, in_or_app. right. by left.
  - intros y Hy. apply Hin, in_app_or in Hy as [Hy|[<-|[]]].
    + eapply StronglySorted_app_1_elem_of; [exact Hs| |].
      * by apply list_elem_of_In.
      * apply list_elem_of_In. by left.
    + apply le_refl.
Qed.

(** The naming loop returns the path of the least counter, from the one
    it starts with, whose path does not exist. *)
Lemma first_free_path_least (fuel : nat) (existing : list string)
    (date_str : string) (counter : nat) (p : string) :
  first_free_path fuel existing date_str counter = Some p ->
  exists n,
    counter <= n
    /\ p = in_tmp_dir (data_filename date_str n)
    /\ forall k, counter <= k < n ->
         In (in_tmp_dir (data_filename date_str k)) existing.
Proof.
  revert counter. induction fuel as [|fuel IH]; intros counter; [done|].
  cbn [first_free_path].
  destruct (PyStr.mem (in_tmp_dir (data_filename date_str counter)) existing)
    eqn:Hmem.
  - intros H. destruct (IH _ H) as (n & Hn & Hp & Hbelow).
    exists n. split; [lia|]. split; [done|].
    intros k Hk. destruct (decide (k = counter)) as [->|Hne].
    + by apply mem_In.
    + apply Hbelow. lia.
  - intros [= <-]. exists counter. split; [lia|]. split; [done|].
    intros k Hk. lia.
Qed.

Section NextFileRule.
Context {W : Type} (E : Env W).

Lemma try_last_file_path (last_file p : string) (st st' : State W) :
  try_last_file E last_file st = (Val (Some p), st') ->
  p = TMP_DIR ++ "/" ++ last_file.
Proof.
  unfold try_last_file, do_upload. unfold_monad. simpl.
  destruct (run_wget E _ (world st)) as [[[]|e] w1]; [|done]. simpl.
  destruct (read_json E _ w1) as [data|] eqn:Hread; [|done].
  destruct (video_count data) as [n|e] eqn:Hcount; [|done].
  destruct (n <? DATA_FILE_SIZE)%nat eqn:Hlt.
  - by intros [= <- <-].
  - simpl. destruct (upload_file E _ _ w1) as [[[]|e] w2]; [|done]. simpl.
    destruct (os_remove E _ w2) as [[[]|e] w3]; done.
Qed.

(** The naming loop always returns, with a path that does not exist. *)
Lemma naming_loop_spec (s st' : State W) (o : Outcome string) :
  (date_str <~ call_total (now_date E) ;;
   existing <~ ask (existing_paths E) ;;
   match first_free_path (S (List.length existing)) existing date_str 1 with
   | Some p => ret p
   | None => raise (mkExc "RuntimeError" "naming loop out of fuel")
   end) s = (o, st') ->
  exists p, o = Val p /\ names_free_path E st' p.
Proof.
  unfold_monad. destruct (now_date E (world s)) as [date w] eqn:Hdate.
  cbn [world COOKIE_MANAGER lcpt lcdt trace].
  destruct (first_free_path_total (existing_paths E w) date 1) as [p Hp].
  rewrite Hp. intros [= <- <-]. exists p. split; [done|].
  destruct (first_free_path_least _ _ _ _ _ Hp) as (n & Hn & Hpn & Hbelow).
  exists date, n, (world s). cbn [world]. split; [done|].
  split; [done|]. split; [done|]. split; [|done].
  apply first_free_path_Some in Hp. intros Hin.
  apply mem_In in Hin. congruence.
Qed.

(** How [get_next_data_file_path] ends: with the exception of the
    listing, or with a path of one of the two kinds. *)
Lemma get_next_data_file_path_cases (st st' : State W) (o : Outcome string) :
  get_next_data_file_path E st = (o, st') ->
  match o with
  | Exn e => exists w, list_repo_files E (world st) = (Exn e, w)
                       /\ st' = with_world w st
  | Val p => reuses_last_file E st st' p \/ names_free_path E st' p
  end.
Proof.
  unfold get_next_data_file_path, get_existing_data_files.
  unfold bind at 1. unfold bind at 1. unfold call at 1.
  destruct (list_repo_files E (world st)) as [[l|e] w] eqn:Hlist;
    [|intros [= <- <-]; by exists w].
  unfold ret at 1. unfold bind at 1.
  set (existing_files := PyStr.sorted _).
  destruct (List.last (map Some existing_files) None) as [last_file|]
    eqn:Hlast.
  - unfold try_except.
    destruct (try_last_file E last_file _) as [[[p|]|e] s1] eqn:Htry.
    + unfold ret. intros [= <- <-]. left.
      pose proof (try_last_file_path _ _ _ _ Htry) as Hp.
      apply try_last_file_Some in Htry as (d & Hread & Hlt).
      apply sorted_last_greatest in Hlast as [Hin Hmax].
      apply filter_In in Hin as [Hin Hdata].
      exists last_file, d, l, w. do 4 (split; [done|]). split; [|done].
      intros f Hf Hfd. apply Hmax, filter_In. done.
    + unfold ret at 1. intros Hrun.
      apply naming_loop_spec in Hrun as (p & -> & Hfree). by right.
    + unfold ret at 1. intros Hrun.
      apply naming_loop_spec in Hrun as (p & -> & Hfree). by right.
  - unfold ret at 1. intros Hrun.
    apply naming_loop_spec in Hrun as (p & -> & Hfree). by right.
Qed.


(** How [load_data_file] returns: with the content of the file, when it
    exists and can be read, and with a fresh shard otherwise. *)
Lemma load_data_file_cases (file_path : string) (st st' : State W)
    (data : pyval) :
  load_data_file E file_path st = (Val data, st') ->
  (In file_path (existing_paths E (world st))
   /\ read_json E file_path (world st) = Some data
   /\ st' = st)
  \/ (exists created_at,
        data = PDict [ ("_metadata", PDict [ ("created_at", PStr created_at) ]) ]
        /\ now_isoformat E (world st) = (created_at, world st')
        /\ (~ In file_path (existing_paths E (world st))
            \/ read_json E file_path (world st) = None)).
Proof.
  unfold load_data_file, path_exists. unfold_monad.
  destruct (PyStr.mem file_path (existing_paths E (world st))) eqn:Hmem;
    cbn [negb].
  - apply mem_In in Hmem.
    destruct (read_json E file_path (world st)) as [content|] eqn:Hread.
    + intros [= <- <-]. by left.
    + destruct (now_isoformat E (world st)) as [now w] eqn:Hnow.
      intros [= <- <-]. right. exists now. cbn [world]. auto.
  - destruct (now_isoformat E (world st)) as [now w] eqn:Hnow.
    intros [= <- <-]. right. exists now. cbn [world].
    split; [done|]. split; [done|]. left. intros Hin.
    apply mem_In in Hin. congruence.
Qed.

(** What [save_data_file] writes for a shard it can stamp: the shard it
    returns, with the entries of the shard it was given. *)
Lemma save_data_file_written (file_path : string) (d : Dict) (st : State W) :
  metadata_ok d ->
  exists d1 st',
    save_data_file E file_path (PDict d) st = (Val (PDict d1), st')
    /\ trace st' = (trace st ++ [EvWrite file_path (PDict d1)])%list
    /\ (forall k, k <> "_metadata" ->
          PyDict.lookup k d1 = PyDict.lookup k d)
    /\ count_videos d1 = count_videos d.
Proof.
  intros Hok.
  destruct (save_data_file_writes E file_path d st Hok)
    as (content & st' & Hrun & Htr).
  destruct (save_data_file_keeps_count E file_path d st)
    as (d1 & st1 & Hrun1 & Hcount).
  rewrite Hrun in Hrun1. injection Hrun1 as -> <-.
  exists d1, st'. split; [done|]. split; [done|]. split; [|done].
  revert Hrun. unfold save_data_file, write_and_gate, read_local, dump_json.
  unfold_monad.
  destruct (now_isoformat E (world st)) as [now w].
  cbn [world COOKIE_MANAGER lcpt lcdt trace].
  set (d0 := if PyDict.has "_metadata" d then d
             else PyDict.set "_metadata" (PDict []) d).
  assert (Hother : forall k, k <> "_metadata" ->
                     PyDict.lookup k d0 = PyDict.lookup k d).
  { subst d0. intros k Hk. destruct (PyDict.has "_metadata" d); [done|].
    by apply lookup_set_ne. }
  destruct (py_setitem "updated_at" (PStr now) (PyDict.get "_metadata" PNone d0))
    as [metadata|e]; cbn [world COOKIE_MANAGER lcpt lcdt trace].
  - destruct (write_json E file_path _ w) as [[[]|e] w1];
      cbn [world COOKIE_MANAGER lcpt lcdt trace].
    + destruct (time_time E w1) as [t w2].
      cbn [world COOKIE_MANAGER lcpt lcdt trace].
      intros [= <- _] k Hk. rewrite lookup_set_ne by done. by apply Hother.
    + intros [= <- _] k Hk. rewrite lookup_set_ne by done. by apply Hother.
  - intros [= <- _]. exact Hother.
Qed.

(** In an iteration whose size check finds the bound reached, what was
    written to the data file after the store is the shard, stamped. *)
Lemma full_shard_flush_content (p1 p2 p' : Batch) (s1 s2 s' : State W)
    (d : Dict) :
  checkpoint E p1 s1 = (Val p2, s2) ->
  rollover E p2 s2 = (Val p', s') ->
  current_data p1 = PDict d ->
  DATA_FILE_SIZE <= count_videos d ->
  metadata_ok d ->
  exists d1,
    In (EvWrite (current_data_file p1) (PDict d1)) (new_events s1 s')
    /\ (forall k, k <> "_metadata" ->
          PyDict.lookup k d1 = PyDict.lookup k d)
    /\ count_videos d1 = count_videos d.
Proof.
  intros Hcheck Hroll Hd Hfull Hok. unfold new_events.
  unfold checkpoint in Hcheck.
  destruct (processed_count p1 mod 20 =? 0)%nat eqn:Hmod.
  - unfold bind at 1 in Hcheck.
    destruct (save_progress E _ s1) as [[[]|e] sa] eqn:Hprog; [|done].
    destruct (grows_save_progress E _ _ _ _ Hprog) as [r1 Htr1].
    unfold bind at 1 in Hcheck. rewrite Hd in Hcheck.
    unfold lift at 1 in Hcheck. cbn [video_count] in Hcheck.
    unfold bind at 1 in Hcheck.
    destruct (save_data_file_written (current_data_file p1) d sa Hok)
      as (d1 & sb & Hsave & Htr2 & Hsame & Hcount).
    rewrite Hsave in Hcheck. unfold ret in Hcheck.
    injection Hcheck as <- <-.
    assert (Hgrow : exists r3, trace s' = (trace sb ++ r3)%list)
      by (by eapply grows_rollover).
    destruct Hgrow as [r3 Htr3].
    exists d1. split; [|done].
    rewrite Htr3, Htr2, Htr1, <- !app_assoc, drop_app_length.
    apply in_or_app. right. apply in_or_app. left. by left.
  - unfold ret in Hcheck. injection Hcheck as <- <-.
    unfold rollover in Hroll.
    unfold bind at 1 in Hroll. rewrite Hd in Hroll.
    unfold lift at 1 in Hroll. cbn [video_count] in Hroll.
    destruct (Nat.leb_spec DATA_FILE_SIZE (count_videos d)) as [_|Hlt]; [|lia].
    rewrite Hmod in Hroll. cbn [negb] in Hroll.
    unfold bind at 1 in Hroll.
    destruct (save_data_file_written (current_data_file p1) d s1 Hok)
      as (d1 & sb & Hsave & Htr2 & Hsame & Hcount).
    rewrite Hsave in Hroll.
    destruct (grows_rollover_tail E p1 _ _ _ Hroll) as [r3 Htr3].
    exists d1. split; [|done].
    rewrite Htr3, Htr2, <- !app_assoc, drop_app_length.
    apply in_or_app. left. by left.
Qed.

(** The save that the size check makes always returns. *)
Lemma flush_runs (p : Batch) (s : State W) (d : Dict) :
  current_data p = PDict d ->
  exists saved,
    (if negb (processed_count p mod 20 =? 0)%nat
     then save_data_file E (current_data_file p) (current_data p)
     else ret (current_data p)) s = (Val saved, flushed E p s).
Proof.
  intros Hd. unfold flushed.
  destruct (negb _).
  - rewrite Hd.
    destruct (save_data_file_keeps_count E (current_data_file p) d s)
      as (d' & s1 & -> & _).
    by eexists.
  - by eexists.
Qed.

(** How [rollover] ends on a shard that is a dictionary: nothing happens
    below the bound; at the bound the exception is that of the listing,
    and the next shard is a fresh one or the most recent remote data
    file. *)
Lemma rollover_cases (p : Batch) (s s' : State W) (d : Dict)
    (o : Outcome Batch) :
  rollover E p s = (o, s') ->
  current_data p = PDict d ->
  (count_videos d < DATA_FILE_SIZE /\ o = Val p /\ s' = s)
  \/ (DATA_FILE_SIZE <= count_videos d
      /\ match o with
         | Exn e =>
             exists w,
               list_repo_files E (world (flushed E p s)) = (Exn e, w)
               /\ s' = with_world w (flushed E p s)
         | Val p' =>
             processed_ids p' = processed_ids p
             /\ processed_count p' = processed_count p
             /\ ((exists created_at w,
                    current_data p'
                    = PDict [ ("_metadata",
                               PDict [ ("created_at", PStr created_at) ]) ]
                    /\ now_isoformat E w = (created_at, world s')
                    /\ (~ In (current_data_file p') (existing_paths E w)
                        \/ read_json E (current_data_file p') w = None))
                 \/ (exists d',
                       current_data p' = PDict d'
                       /\ count_videos d' < DATA_FILE_SIZE
                       /\ reuses_last_file E (flushed E p s) s'
                            (current_data_file p')
                       /\ read_json E (current_data_file p') (world s')
                          = Some (PDict d')))
         end).
Proof.
  intros Hrun Hd. unfold rollover in Hrun.
  unfold bind at 1 in Hrun. unfold lift at 1 in Hrun.
  rewrite Hd in Hrun at 1. cbn [video_count] in Hrun.
  destruct (Nat.leb_spec DATA_FILE_SIZE (count_videos d)) as [Hfull|Hroom].
  2: { left. unfold ret in Hrun. by injection Hrun as <- <-. }
  right. split; [done|].
  unfold bind at 1 in Hrun.
  destruct (flush_runs p s d Hd) as [saved Hflush].
  rewrite Hflush in Hrun.
  unfold bind at 1 in Hrun.
  destruct (get_next_data_file_path E (flushed E p s)) as [[file|e] sn]
    eqn:Hnext.
  - unfold bind at 1 in Hrun.
    destruct (load_data_file E file sn) as [[data|e] sl] eqn:Hload.
    2: { unfold load_data_file, path_exists in Hload. unfold_monad.
         destruct (negb _); [by destruct (now_isoformat E (world sn))|].
         destruct (read_json E file (world sn)); [done|].
         by destruct (now_isoformat E (world sn)). }
    unfold ret in Hrun. injection Hrun as <- <-.
    cbn [processed_ids processed_count current_data current_data_file].
    do 2 (split; [done|]).
    apply get_next_data_file_path_cases in Hnext as [Hreuse|Hfree].
    + apply load_data_file_cases in Hload
        as [(Hin & Hread & ->)|(created & -> & Hnow & Hwhy)].
      * right.
        destruct Hreuse as (last_file & d' & l & w & Hp & Hlist & Hl & Hdf
                            & Hmax & Hr & Hlt).
        rewrite Hread in Hr. injection Hr as ->.
        exists d'. split; [done|]. split; [done|]. split; [|done].
        by exists last_file, d', l, w.
      * left. by exists created, (world sn).
    + apply load_data_file_cases in Hload
        as [(Hin & Hread & ->)|(created & -> & Hnow & Hwhy)].
      * destruct Hfree as (date_str & n & w & _ & _ & _ & Hnot & _). done.
      * left. by exists created, (world sn).
  - injection Hrun as <- <-.
    apply get_next_data_file_path_cases in Hnext as (w & Hlist & ->).
    by exists w.
Qed.

End NextFileRule.

Section Bound.
Context {W : Type} (E : Env W).

(** C8 (amended). Started on a shard with fewer than 500 video entries,
    the active shard holds at most 500 video entries ([_metadata] not
    counted) at every point of the loop. In an iteration whose size check
    finds 500 or more, the shard has been written to its data file (its
    [_metadata] entry being absent or a dictionary): what was written
    has the entries of the shard, [_metadata] apart. The next active
    shard is chosen by the reuse-or-create rule. Either it is a fresh
    shard, with a [_metadata] entry that holds the time of its creation
    and nothing else, its data file being absent or unreadable; or it is
    the content of the local copy of the most recent remote data file,
    the one that sorts last among the data files the store lists after
    the flush, and it holds fewer than 500 video entries. *)
Theorem shard_bound_and_rollover (video_ids : list string) (b : Batch)
    (st : State W) :
  holds_at_most (DATA_FILE_SIZE - 1) (current_data b) ->
  Forall (fun p => holds_at_most DATA_FILE_SIZE (current_data p))
         (loop_points E video_ids b st)
  /\ (forall p1 p2 p' s1 s2 s' d,
         checkpoint E p1 s1 = (Val p2, s2) ->
         rollover E p2 s2 = (Val p', s') ->
         current_data p1 = PDict d ->
         DATA_FILE_SIZE <= count_videos d ->
         (metadata_ok d ->
          exists d1,
            In (EvWrite (current_data_file p1) (PDict d1)) (new_events s1 s')
            /\ (forall k, k <> "_metadata" ->
                  PyDict.lookup k d1 = PyDict.lookup k d)
            /\ count_videos d1 = count_videos d)
         /\ ((exists created_at w,
                current_data p'
                = PDict [ ("_metadata",
                           PDict [ ("created_at", PStr created_at) ]) ]
                /\ now_isoformat E w = (created_at, world s')
                /\ (~ In (current_data_file p') (existing_paths E w)
                    \/ read_json E (current_data_file p') w = None))
             \/ (exists d',
                   current_data p' = PDict d'
                   /\ count_videos d' < DATA_FILE_SIZE
                   /\ reuses_last_file E (flushed E p2 s2) s'
                        (current_data_file p')
                   /\ read_json E (current_data_file p') (world s')
                      = Some (PDict d')))).
Proof.
  intros Hb. split; [by apply loop_points_bound|].
  intros p1 p2 p' s1 s2 s' d Hcheck Hroll Hd Hfull. split.
  - intros Hok. by eapply full_shard_flush_content.
  - destruct (checkpoint_count _ _ _ _ _ _ Hcheck Hd) as (d2 & Hd2 & Hcount).
    destruct (rollover_cases _ _ _ _ _ _ Hroll Hd2)
      as [(Hlt & _)|(_ & _ & _ & Hnext)]; [lia | done].
Qed.

End Bound.

(** C8, as stated, fails: with the bound reached, the rule reuses the
    most recent remote data file, and the new active shard starts with
    the video entry that file holds. *)
Lemma rollover_reuses_partial_shard :
  exists b' st',
    rollover (Examples.disk_env Scenario.no_video 0) Scenario.full_batch
      Scenario.store_with_partial_shard = (Val b', st')
    /\ video_count (current_data Scenario.full_batch) = Val DATA_FILE_SIZE
    /\ current_data b' = Scenario.partial_remote_shard
    /\ video_count (current_data b') = Val 1.
Proof.
  do 2 eexists. split; [vm_compute; reflexivity|].
  split; [by vm_compute|]. split; by vm_compute.
Qed.

Lemma shard_bound_and_rollover_witness :
  let E := Examples.disk_env
             (Scenario.always_video (Scenario.info_with [] None)) 0 in
  Forall (fun p => holds_at_most DATA_FILE_SIZE (current_data p))
         (loop_points E ["abcd1234efg"] Scenario.almost_full_batch
            Scenario.store_with_partial_shard)
  /\ (forall p1 p2 p' s1 s2 s' d,
         checkpoint E p1 s1 = (Val p2, s2) ->
         rollover E p2 s2 = (Val p', s') ->
         current_data p1 = PDict d ->
         DATA_FILE_SIZE <= count_videos d ->
         (metadata_ok d ->
          exists d1,
            In (EvWrite (current_data_file p1) (PDict d1)) (new_events s1 s')
            /\ (forall k, k <> "_metadata" ->
                  PyDict.lookup k d1 = PyDict.lookup k d)
            /\ count_videos d1 = count_videos d)
         /\ ((exists created_at w,
                current_data p'
                = PDict [ ("_metadata",
                           PDict [ ("created_at", PStr created_at) ]) ]
                /\ now_isoformat E w = (created_at, world s')
                /\ (~ In (current_data_file p') (existing_paths E w)
                    \/ read_json E (current_data_file p') w = None))
             \/ (exists d',
                   current_data p' = PDict d'
                   /\ count_videos d' < DATA_FILE_SIZE
                   /\ reuses_last_file E (flushed E p2 s2) s'
                        (current_data_file p')
                   /\ read_json E (current_data_file p') (world s')
                      = Some (PDict d')))).
Proof.
  apply (shard_bound_and_rollover
           (Examples.disk_env
              (Scenario.always_video (Scenario.info_with [] None)) 0)
           ["abcd1234efg"] Scenario.almost_full_batch
           Scenario.store_with_partial_shard).
  eexists. split; [reflexivity|]. apply Nat.leb_le. vm_compute. reflexivity.
Defined.

(* ===================================================================== *)
(** * The caption call inside [fetch_from_ytdlp] *)
(* ===================================================================== *)

(** C5 (the code departs from it). The metadata extraction succeeds and
    the caption download leaves an English file whose JSON content is an
    array. Parsing it raises [AttributeError] out of
    [_download_subtitles_via_api]; the [except] clause of the fetch
    classifies it as an other error and returns the empty result, and
    [_cleanup_paths] is never called: the trace has no [EvCleanup]. *)
Theorem caption_parse_error_aborts_video :
  fetch_from_ytdlp
    (Scenario.array_caption_file (Scenario.info_with Scenario.five_formats None))
    "https://www.youtube.com/watch?v=abcd1234efg" Scenario.no_cookies
  = (Val [],
     mkState tt (mkManager [] 0) None None
       [ EvExtract "https://www.youtube.com/watch?v=abcd1234efg" None;
         EvDownloadSubs "https://www.youtube.com/watch?v=abcd1234efg" None ]).
Proof. vm_compute. reflexivity. Qed.

(** The path the helper does provide for: an exception of the download
    itself is swallowed, the record is returned with no caption text, and
    the temporary directory is cleaned. *)
Lemma caption_download_error_degrades :
  exists r st',
    fetch_from_ytdlp
      (Scenario.download_fails (Scenario.info_with Scenario.five_formats None))
      "u" Scenario.no_cookies = (Val r, st')
    /\ PyDict.lookup "automatic_captions" r = Some (PDict [])
    /\ In (EvCleanup SUBS_TMPDIR) (trace st').
Proof.
  do 2 eexists. split; [vm_compute; reflexivity|].
  split; [by vm_compute|]. vm_compute. tauto.
Qed.

(* ===================================================================== *)
(** * Further properties: the cookie manager *)
(* ===================================================================== *)

Lemma endswith_spec (suffix s : string) :
  PyStr.endswith suffix s = true <-> exists p, s = p ++ suffix.
Proof.
  induction s as [|c s IH]; simpl.
  - rewrite orb_false_r, String.eqb_eq. split.
    + intros ->. by exists "".
    + intros [[|c p] H]; simpl in H; [done | discriminate].
  - rewrite orb_true_iff, String.eqb_eq, IH. split.
    + intros [->|[p ->]]; [by exists "" | by exists (String c p)].
    + intros [[|c' p] H]; simpl in H; [by left|].
      injection H as -> ->. right. by exists p.
Qed.

Lemma startswith_spec (p s : string) :
  PyStr.startswith p s = true <-> exists t, s = p ++ t.
Proof.
  revert s. induction p as [|a p IH]; intros s; simpl.
  - split; [by exists s | done].
  - destruct s as [|b s]; [split; [done | by intros [t [=]]]|].
    rewrite andb_true_iff, Ascii.eqb_eq, IH. split.
    + intros [-> [t ->]]. by exists t.
    + intros [t [= -> ->]]. split; [done | by exists t].
Qed.

Lemma rotate_to_next_valid (m : CookieRotationManager) :
  valid_manager (fst (rotate_to_next m))
  /\ exists c, snd (rotate_to_next m) = Val c.
Proof.
  unfold rotate_to_next, valid_manager, cookie_at.
  destruct (cookie_files m) as [|f files] eqn:Hf; simpl.
  - split; [by left | by eexists].
  - set (i := (current_index m + 1) mod S (List.length files)).
    assert (Hi : i < List.length (f :: files))
      by (apply Nat.mod_upper_bound; done).
    destruct (lookup_lt_is_Some_2 (f :: files) i Hi) as [c Hc].
    unfold i in Hc. simpl in Hc |- *. rewrite Hc. simpl.
    split; [right; exact Hi | by eexists].
Qed.

Lemma get_current_cookie_valid (m : CookieRotationManager) :
  valid_manager m -> exists c, get_current_cookie m = Val c.
Proof.
  unfold valid_manager, get_current_cookie, cookie_at.
  intros [->|Hlt]; [by eexists|].
  destruct (cookie_files m) as [|f files] eqn:Hf; [by eexists|].
  destruct (lookup_lt_is_Some_2 (f :: files) (current_index m) Hlt) as [c Hc].
  rewrite Hc. by eexists.
Qed.

(** X1. With the cursor inside the credential list (or the list empty),
    any number of rotations keeps it there, and [get_current_cookie]
    returns without an [IndexError]; it returns a credential exactly when
    the list is not empty. *)
Theorem rotations_keep_cursor_valid (m : CookieRotationManager) (n : nat) :
  valid_manager m ->
  valid_manager (rotate_times n m)
  /\ exists c, get_current_cookie (rotate_times n m) = Val c
               /\ (c = None <-> cookie_files m = []).
Proof.
  intros Hv.
  assert (Hvn : valid_manager (rotate_times n m)).
  { induction n as [|n IH]; [done|].
    change (rotate_times (S n) m) with (fst (rotate_to_next (rotate_times n m))).
    apply rotate_to_next_valid. }
  split; [done|].
  destruct (get_current_cookie_valid _ Hvn) as [c Hc].
  exists c. split; [done|].
  unfold get_current_cookie in Hc. rewrite rotate_times_files in Hc.
  destruct (cookie_files m); [by injection Hc as <-|].
  destruct (cookie_at _); [|done]. injection Hc as <-. done.
Qed.

Lemma rotations_keep_cursor_valid_witness :
  valid_manager (rotate_times 5 (mkManager ["a.txt"; "b.txt"] 1)).
Proof.
  apply (rotations_keep_cursor_valid (mkManager ["a.txt"; "b.txt"] 1) 5).
  right. simpl. lia.
Defined.

(** X2. [_load_cookie_files] keeps exactly the directory entries that end
    in ".txt", as paths in ascending order; a missing directory gives no
    credential, and the manager it initialises has a valid cursor. *)
Theorem load_cookie_files_sorted_txt (path_of : string -> string)
    (listing : option (list string)) :
  let files := _load_cookie_files path_of listing in
  StronglySorted PyStr.le files
  /\ (forall p, p ∈ files <->
        exists names f, listing = Some names /\ f ∈ names
                        /\ (exists stem, f = stem ++ ".txt") /\ p = path_of f)
  /\ (listing = None -> files = [])
  /\ valid_manager (new_manager path_of listing)
  /\ exists c, get_current_cookie (new_manager path_of listing) = Val c.
Proof.
  intros files. subst files.
  assert (Hvalid : valid_manager (new_manager path_of listing)).
  { unfold valid_manager, new_manager. simpl.
    destruct (_load_cookie_files path_of listing); [by left | right; simpl; lia]. }
  split; [|split; [|split; [|split]]].
  - destruct listing as [names|]; simpl; [apply sorted_StronglySorted | constructor].
  - intros p. destruct listing as [names|]; simpl.
    + rewrite sorted_Permutation, list_elem_of_fmap. split.
      * intros (f & -> & Hf). apply list_elem_of_In, filter_In in Hf as [Hin He].
        exists names, f. split; [done|]. split; [by apply list_elem_of_In|].
        split; [by apply endswith_spec | done].
      * intros (names' & f & [= <-] & Hin & He & ->).
        exists f. split; [done|]. apply list_elem_of_In, filter_In.
        split; [by apply list_elem_of_In | by apply endswith_spec].
    + split; [by intros ?%elem_of_nil | by intros (? & ? & [=] & _)].
  - by intros ->.
  - done.
  - by apply get_current_cookie_valid.
Qed.

(* ===================================================================== *)
(** * Further properties: utils/utils.py *)
(* ===================================================================== *)

Lemma text_parts_of_returns (items : list pyval) :
  returns (text_parts_of items) = forallb is_dict items.
Proof.
  induction items as [|s items IH]; [done|]. simpl.
  destruct s; simpl; try done.
  destruct (text_parts_of items); simpl in *; by rewrite <- IH.
Qed.

Lemma join_of_text_parts (items parts : list pyval) (i : nat) :
  text_parts_of items = Val parts ->
  returns (join_empty i parts) = forallb readable_seg items.
Proof.
  revert parts i. induction items as [|s items IH]; intros parts i.
  - intros [= <-]. done.
  - simpl. destruct s as [| | | | | |d]; simpl; try done.
    destruct (text_parts_of items) as [rest|e]; simpl; [|done].
    intros [= <-]. unfold py_or.
    destruct (truthy (PyDict.get "utf8" PNone d)) eqn:Hu; simpl.
    + rewrite Hu.
      destruct (PyDict.get "utf8" PNone d) as [| | | |u| |]; simpl; try done.
      specialize (IH rest (S i) eq_refl).
      destruct (join_empty (S i) rest); simpl in *; by rewrite <- IH.
    + by apply IH.
Qed.

Lemma chars_not_dicts (s : string) :
  s <> "" ->
  returns (text_parts_of
             (map (fun c => PStr (String c "")) (list_ascii_of_string s)))
  = false.
Proof. destruct s; [done|]. done. Qed.

Lemma keys_not_dicts (d : Dict) :
  d <> [] ->
  returns (text_parts_of (map (fun kv => PStr (fst kv)) d)) = false.
Proof. destruct d; [done|]. done. Qed.

Lemma chunks_of_returns (events : list pyval) :
  returns (chunks_of events) = forallb readable_event events.
Proof.
  induction events as [|ev events IH]; [done|].
  cbn [chunks_of forallb].
  destruct ev as [| | | | | |d]; try done.
  cbn [py_get obind readable_event].
  generalize (PyDict.get "segs" PNone d). intros v.
  unfold py_or. destruct (truthy v) eqn:Hv; cbn [truthy negb orb andb];
    [rewrite Hv; cbn [negb] | exact IH].
  destruct v as [| | | |s|items|keys]; try done.
  - (* a non-empty string: its characters have no [get] *)
    cbn [py_iter obind].
    assert (Hne : s <> "") by (by intros ->).
    pose proof (chars_not_dicts s Hne) as Hc.
    by destruct (text_parts_of _).
  - (* a list *)
    cbn [py_iter obind].
    pose proof (text_parts_of_returns items) as Hdicts.
    destruct (text_parts_of items) as [parts|e] eqn:Hparts; cbn [obind].
    + pose proof (join_of_text_parts items parts 0 Hparts) as Hjoin.
      destruct parts as [|p parts].
      * cbn [join_empty returns] in Hjoin. by rewrite <- Hjoin.
      * rewrite <- Hjoin.
        destruct (join_empty 0 (p :: parts)); cbn [obind returns andb]; [|done].
        rewrite <- IH. by destruct (chunks_of events).
    + assert (Hnot : forallb readable_seg items = false); [|by rewrite Hnot].
      apply not_true_is_false. intros Hall.
      assert (forallb is_dict items = true); [|simpl in Hdicts; congruence].
      apply forallb_forall. intros x Hx.
      pose proof (proj1 (forallb_forall _ _) Hall x Hx) as Hr.
      by destruct x.
  - (* a non-empty dictionary: its keys have no [get] *)
    cbn [py_iter obind].
    assert (Hne : keys <> []) by (by intros ->).
    pose proof (keys_not_dicts keys Hne) as Hc.
    by destruct (text_parts_of _).
Qed.

(** X3. [_parse_json3_to_text] returns the empty string for a file that
    cannot be read, and for a decoded document it returns a text exactly
    when the document is an object whose [events], [segs] and [utf8]
    entries have the expected shapes; on any other document it raises. *)
Theorem parse_json3_returns_iff_readable (content : option pyval) :
  (content = None -> _parse_json3_to_text content = Val "")
  /\ (forall data, content = Some data ->
        returns (_parse_json3_to_text content) = readable_json3 data).
Proof.
  split; [by intros ->|]. intros data ->. simpl.
  destruct data as [| | | | | |d]; simpl; try done.
  unfold py_or.
  destruct (truthy (PyDict.get "events" PNone d)) eqn:Hev; simpl; [|done].
  destruct (PyDict.get "events" PNone d) as [| | | |s|evs|keys]; simpl in *;
    try done.
  - destruct s as [|c s]; [done|]. done.
  - rewrite <- chunks_of_returns. by destruct (chunks_of evs).
  - destruct keys as [|[k v] keys]; [done|]. done.
Qed.

Lemma collapse_single_blanks (after_space : bool) (s : string) :
  single_blanks after_space (collapse_spaces after_space s) = true.
Proof.
  revert after_space. induction s as [|c s IH]; intros after_space; [done|].
  simpl. destruct (is_space c) eqn:Hc.
  - destruct after_space; [apply IH|]. simpl. apply IH.
  - simpl. rewrite Hc. apply IH.
Qed.

Lemma lstrip_single_blanks (after_space : bool) (s : string) :
  single_blanks after_space s = true ->
  single_blanks true (lstrip s) = true.
Proof.
  destruct s as [|c s]; [done|]. simpl.
  destruct (is_space c) eqn:Hc.
  - intros [[_ _]%andb_prop Hrest]%andb_prop.
    destruct s as [|c' s]; [done|]. simpl in *.
    destruct (is_space c') eqn:Hc'.
    + by rewrite andb_false_r in Hrest.
    + simpl. by rewrite Hc'.
  - intros H. simpl. by rewrite Hc.
Qed.

Lemma rstrip_single_blanks (after_space : bool) (s : string) :
  single_blanks after_space s = true ->
  single_blanks after_space (rstrip s) = true.
Proof.
  revert after_space. induction s as [|c s IH]; intros after_space; [done|].
  simpl. destruct (is_space c) eqn:Hc; simpl.
  - intros [Hhead Hrest]%andb_prop.
    destruct (String.eqb (rstrip s) ""); [done|]. simpl.
    rewrite Hc, Hhead. by apply IH.
  - intros Hrest. rewrite Hc. by apply IH.
Qed.

Lemma rstrip_last_not_space (s : string) : last_is_space (rstrip s) = false.
Proof.
  induction s as [|c s IH]; [done|]. simpl.
  destruct (String.eqb_spec (rstrip s) "") as [He|Hne].
  - rewrite He. rewrite andb_true_r.
    destruct (is_space c) eqn:Hc; [done|]. simpl. done.
  - rewrite andb_false_r. simpl.
    destruct (rstrip s); [done | exact IH].
Qed.

(** X4. A text returned by [_parse_json3_to_text] is white-space
    normalised: every white-space character in it is a single blank
    between two other characters, and it neither starts nor ends with
    white space. *)
Theorem parse_json3_text_is_normalized (content : option pyval) (text : string) :
  _parse_json3_to_text content = Val text -> normalized text = true.
Proof.
  assert (Hnorm : forall s, normalized (strip (collapse_spaces false s)) = true).
  { intros s. unfold normalized, strip.
    rewrite rstrip_last_not_space, andb_true_r.
    apply rstrip_single_blanks, (lstrip_single_blanks false),
      collapse_single_blanks. }
  destruct content as [data|]; simpl; [|by intros [= <-]].
  destruct (py_get "events" data) as [ev|e]; simpl; [|done].
  destruct (py_iter _) as [events|e]; simpl; [|done].
  destruct (chunks_of events) as [chunks|e]; simpl; [|done].
  intros [= <-]. apply Hnorm.
Qed.

Lemma parse_json3_text_is_normalized_witness :
  normalized "Hello world again" = true.
Proof.
  apply (parse_json3_text_is_normalized
           (Some (PDict [ ("events",
                           PList [ PDict [ ("segs",
                                            PList [ PDict [ ("utf8", PStr "  Hello") ];
                                                    PDict [ ("utf8", PStr "  world ") ] ]) ];
                                   PDict [ ("tStartMs", PInt 5) ];
                                   PDict [ ("segs",
                                            PList [ PDict [ ("utf8", PStr "again ") ] ]) ] ]) ]))).
  vm_compute. reflexivity.
Defined.

Lemma has_lookup (k : string) (d : Dict) :
  PyDict.has k d = true <-> exists v, PyDict.lookup k d = Some v.
Proof.
  unfold PyDict.has. destruct (PyDict.lookup k d); split; eauto; try done.
  by intros [? [=]].
Qed.

Lemma lookup_set (k k' : string) (v : pyval) (d : Dict) :
  PyDict.lookup k (PyDict.set k' v d)
  = if String.eqb k k' then Some v else PyDict.lookup k d.
Proof.
  destruct (String.eqb_spec k k') as [->|Hne];
    [apply lookup_set_eq | by apply lookup_set_ne].
Qed.

Lemma classic_in (x : string) (l : list string) : In x l \/ ~ In x l.
Proof. destruct (in_dec string_dec x l); auto. Qed.

Section Captions.
Context {W : Type} (E : Env W).

Lemma text_found_glob (tmpdir lang : string) (w : W) (v : pyval) :
  text_found E tmpdir lang w v -> glob_json3 E tmpdir lang w <> [].
Proof. intros (f & o & t & Hg & _). congruence. Qed.

Lemma collect_lang_texts_spec (tmpdir : string) (languages : list string)
    (acc m : Dict) (st st' : State W) :
  collect_lang_texts E tmpdir languages acc st = (Val m, st') ->
  st' = st
  /\ forall lang v,
       PyDict.lookup lang m = Some v <->
       (In lang languages /\ text_found E tmpdir lang (world st) v)
       \/ ((~ In lang languages \/ glob_json3 E tmpdir lang (world st) = [])
           /\ PyDict.lookup lang acc = Some v).
Proof.
  revert acc. induction languages as [|l languages IH]; intros acc.
  - intros [= <- <-]. split; [done|]. intros lang v. simpl. tauto.
  - simpl. unfold bind at 1, ask at 1.
    destruct (glob_json3 E tmpdir l (world st)) as [|first others] eqn:Hglob.
    + intros Hrun. destruct (IH _ Hrun) as [-> Hm]. split; [done|].
      intros lang v. rewrite Hm.
      pose proof (text_found_glob tmpdir lang (world st) v) as Hfg.
      destruct (classic_in lang languages) as [HA|HA];
        destruct (string_dec l lang) as [HB|HB];
        try (subst lang; rewrite Hglob in Hfg); tauto.
    + unfold bind at 1, ask at 1. unfold bind at 1, lift at 1.
      destruct (_parse_json3_to_text (read_json E first (world st)))
        as [text|e] eqn:Hparse; [|done].
      intros Hrun. destruct (IH _ Hrun) as [-> Hm]. split; [done|].
      intros lang v. rewrite Hm, lookup_set.
      pose proof (text_found_glob tmpdir lang (world st) v) as Hfg.
      destruct (String.eqb_spec lang l) as [->|HB].
      * assert (HT : text_found E tmpdir l (world st) v <-> Some (PStr text) = Some v).
        { split.
          - intros (f & o & t & Hg & Hp & ->).
            rewrite Hglob in Hg. injection Hg as <- <-.
            rewrite Hparse in Hp. by injection Hp as <-.
          - intros [= <-]. by exists first, others, text. }
        assert (HG : glob_json3 E tmpdir l (world st) <> []) by congruence.
        destruct (classic_in l languages) as [HA|HA]; tauto.
      * assert (l <> lang) by congruence.
        destruct (classic_in lang languages) as [HA|HA]; tauto.
Qed.

(** What a returning call of the helper leaves. *)
Lemma download_subtitles_spec (url : string) (languages : list string)
    (manual : bool) (cookies_file : option string) (st st' : State W)
    (m : Dict) (tmpdir : string) (elapsed : Q) (saw_429 : bool) :
  _download_subtitles_via_api E url languages manual cookies_file st
  = (Val (m, tmpdir, elapsed, saw_429), st') ->
  let download :=
    ydl_download_subs E url languages manual (truthy_str cookies_file)
      (snd (perf_counter E (world st))) in
  tmpdir = SUBS_TMPDIR
  /\ saw_429 = existsb logs_429 (snd (fst download))
  /\ trace st' = (trace st ++ [EvDownloadSubs url (truthy_str cookies_file)])%list
  /\ forall lang v,
       PyDict.lookup lang m = Some v <->
       In lang languages /\ text_found E SUBS_TMPDIR lang (snd download) v.
Proof.
  unfold _download_subtitles_via_api.
  unfold bind at 1, call_total at 1, call at 1.
  destruct (perf_counter E (world st)) as [t0 w0]. cbn [snd].
  unfold bind at 1, emit at 1. unfold bind at 1.
  cbn [world COOKIE_MANAGER lcpt lcdt trace].
  destruct (ydl_download_subs E url languages manual (truthy_str cookies_file) w0)
    as [[r msgs] w1]. cbn [fst snd].
  unfold bind at 1.
  destruct (collect_lang_texts E SUBS_TMPDIR languages [] _)
    as [[texts|e] s1] eqn:Hcollect; [|done].
  apply collect_lang_texts_spec in Hcollect as [-> Hm].
  unfold bind at 1, call_total at 1, call at 1.
  cbn [world COOKIE_MANAGER lcpt lcdt trace].
  destruct (perf_counter E w1) as [t1 w2]. unfold ret.
  intros [= <- <- _ <- <-]. cbn [trace].
  split; [done|]. split; [done|]. split; [done|].
  intros lang v. rewrite Hm. cbn [world]. split.
  - intros [Hfound|[_ Hacc]]; [done | done].
  - intros Hfound. by left.
Qed.

(** X5. When [_download_subtitles_via_api] returns, the directory it
    names is the fixed temporary directory, its only event is the one
    download, the rate-limit flag tells whether a logged error mentions
    429 or "Too Many Requests", and the mapping has an entry exactly for
    each requested language with a file in the directory after the
    download: the parsed text of the first such file, a string. Whether
    the download itself raised plays no part. *)
Theorem download_subtitles_result (url : string) (languages : list string)
    (manual : bool) (cookies_file : option string) (st st' : State W)
    (m : Dict) (tmpdir : string) (elapsed : Q) (saw_429 : bool) :
  _download_subtitles_via_api E url languages manual cookies_file st
  = (Val (m, tmpdir, elapsed, saw_429), st') ->
  let download :=
    ydl_download_subs E url languages manual (truthy_str cookies_file)
      (snd (perf_counter E (world st))) in
  tmpdir = SUBS_TMPDIR
  /\ saw_429 = existsb logs_429 (snd (fst download))
  /\ trace st' = (trace st ++ [EvDownloadSubs url (truthy_str cookies_file)])%list
  /\ (forall lang v,
        PyDict.lookup lang m = Some v <->
        In lang languages /\ text_found E SUBS_TMPDIR lang (snd download) v)
  /\ (forall lang v, PyDict.lookup lang m = Some v -> is_str v = true).
Proof.
  intros Hrun download.
  destruct (download_subtitles_spec _ _ _ _ _ _ _ _ _ _ Hrun)
    as (Hdir & Hsaw & Htr & Hm).
  split; [done|]. split; [done|]. split; [done|]. split; [exact Hm|].
  intros lang v Hl. apply Hm in Hl as [_ (f & o & t & _ & _ & ->)]. done.
Qed.

End Captions.

Lemma download_subtitles_result_witness :
  exists m,
    PyDict.lookup "en" m = Some (PStr "hi there")
    /\ forall lang v,
         PyDict.lookup lang m = Some v <->
         In lang ["en"; "ru"]
         /\ text_found Scenario2.english_captions SUBS_TMPDIR lang tt v.
Proof.
  eexists. split; cycle 1.
  - eapply (download_subtitles_result Scenario2.english_captions "u"
              ["en"; "ru"] false None Scenario.no_cookies).
    vm_compute. reflexivity.
  - vm_compute. reflexivity.
Defined.

(* ===================================================================== *)
(** * Events and state components of computations *)
(* ===================================================================== *)

Section Frames.
Context {W : Type}.

Lemma emits_nothing {A} (P : Event -> Prop) (c : M W A) :
  (forall st o st', c st = (o, st') -> trace st' = trace st) -> emits P c.
Proof.
  intros H st o st' Hrun. exists []. rewrite app_nil_r.
  split; [by eapply H | constructor].
Qed.

Lemma emits_ret {A} P (a : A) : emits P (@ret W A a).
Proof. apply emits_nothing. by intros st o st' [= _ <-]. Qed.

Lemma emits_raise {A} P (e : Exc) : emits P (@raise W A e).
Proof. apply emits_nothing. by intros st o st' [= _ <-]. Qed.

Lemma emits_lift {A} P (o : Outcome A) : emits P (@lift W A o).
Proof. apply emits_nothing. by intros st o' st' [= _ <-]. Qed.

Lemma emits_ask {A} P (f : W -> A) : emits P (ask f).
Proof. apply emits_nothing. by intros st o st' [= _ <-]. Qed.

Lemma emits_call {A} P (f : W -> Outcome A * W) : emits P (call f).
Proof.
  apply emits_nothing. intros st o st'. unfold call.
  destruct (f (world st)). by intros [= _ <-].
Qed.

Lemma emits_call_total {A} P (f : W -> A * W) : emits P (call_total f).
Proof. apply emits_call. Qed.

Lemma emits_get_manager P : emits P (@get_manager W).
Proof. apply emits_nothing. by intros st o st' [= _ <-]. Qed.

Lemma emits_set_manager P m : emits P (@set_manager W m).
Proof. apply emits_nothing. by intros st o st' [= _ <-]. Qed.

Lemma emits_modify_world P f : emits P (@modify_world W f).
Proof. apply emits_nothing. by intros st o st' [= _ <-]. Qed.

Lemma emits_get_lcpt P : emits P (@get_lcpt W).
Proof. apply emits_nothing. by intros st o st' [= _ <-]. Qed.

Lemma emits_set_lcpt P t : emits P (@set_lcpt W t).
Proof. apply emits_nothing. by intros st o st' [= _ <-]. Qed.

Lemma emits_emit (P : Event -> Prop) (ev : Event) : P ev -> emits P (@emit W ev).
Proof.
  intros HP st o st' [= _ <-]. exists [ev]. split; [done|]. by constructor.
Qed.

Lemma emits_bind {A B} P (c : M W A) (k : A -> M W B) :
  emits P c -> (forall a, emits P (k a)) -> emits P (bind c k).
Proof.
  intros Hc Hk st o st'. unfold bind.
  destruct (c st) as [[a|e] s1] eqn:Hrun.
  - intros Hrun2. destruct (Hc _ _ _ Hrun) as (r1 & H1 & HP1).
    destruct (Hk a _ _ _ Hrun2) as (r2 & H2 & HP2).
    exists (r1 ++ r2)%list. split; [by rewrite H2, H1, app_assoc|].
    by apply Forall_app.
  - intros [= _ <-]. by eapply Hc.
Qed.

Lemma emits_try_except {A} P (c : M W A) (h : Exc -> M W A) :
  emits P c -> (forall e, emits P (h e)) -> emits P (try_except c h).
Proof.
  intros Hc Hh st o st'. unfold try_except.
  destruct (c st) as [[a|e] s1] eqn:Hrun.
  - intros [= _ <-]. by eapply Hc.
  - intros Hrun2. destruct (Hc _ _ _ Hrun) as (r1 & H1 & HP1).
    destruct (Hh e _ _ _ Hrun2) as (r2 & H2 & HP2).
    exists (r1 ++ r2)%list. split; [by rewrite H2, H1, app_assoc|].
    by apply Forall_app.
Qed.

Lemma emits_catch {A} P (c : M W A) : emits P c -> emits P (catch c).
Proof.
  intros Hc st o st'. unfold catch.
  destruct (c st) as [r s1] eqn:Hrun. intros [= _ <-]. by eapply Hc.
Qed.

Lemma emits_weaken {A} (P Q : Event -> Prop) (c : M W A) :
  (forall ev, P ev -> Q ev) -> emits P c -> emits Q c.
Proof.
  intros HPQ Hc st o st' Hrun. destruct (Hc _ _ _ Hrun) as (r & H & HP).
  exists r. split; [done|]. by eapply Forall_impl.
Qed.

(** State components. *)

Lemma preserves_ret {A X} (proj : State W -> X) (a : A) :
  preserves proj (@ret W A a).
Proof. by intros st o st' [= _ <-]. Qed.

Lemma preserves_raise {A X} (proj : State W -> X) (e : Exc) :
  preserves proj (@raise W A e).
Proof. by intros st o st' [= _ <-]. Qed.

Lemma preserves_lift {A X} (proj : State W -> X) (o : Outcome A) :
  preserves proj (@lift W A o).
Proof. by intros st o' st' [= _ <-]. Qed.

Lemma preserves_ask {A X} (proj : State W -> X) (f : W -> A) :
  preserves proj (ask f).
Proof. by intros st o st' [= _ <-]. Qed.

Lemma preserves_get_manager {X} (proj : State W -> X) :
  preserves proj (@get_manager W).
Proof. by intros st o st' [= _ <-]. Qed.

Lemma preserves_get_lcpt {X} (proj : State W -> X) :
  preserves proj (@get_lcpt W).
Proof. by intros st o st' [= _ <-]. Qed.

Lemma preserves_bind {A B X} (proj : State W -> X) (c : M W A)
    (k : A -> M W B) :
  preserves proj c -> (forall a, preserves proj (k a)) ->
  preserves proj (bind c k).
Proof.
  intros Hc Hk st o st'. unfold bind.
  destruct (c st) as [[a|e] s1] eqn:Hrun.
  - intros Hrun2. rewrite (Hk a _ _ _ Hrun2). by eapply Hc.
  - intros [= _ <-]. by eapply Hc.
Qed.

Lemma preserves_try_except {A X} (proj : State W -> X) (c : M W A)
    (h : Exc -> M W A) :
  preserves proj c -> (forall e, preserves proj (h e)) ->
  preserves proj (try_except c h).
Proof.
  intros Hc Hh st o st'. unfold try_except.
  destruct (c st) as [[a|e] s1] eqn:Hrun.
  - intros [= _ <-]. by eapply Hc.
  - intros Hrun2. rewrite (Hh e _ _ _ Hrun2). by eapply Hc.
Qed.

Lemma preserves_catch {A X} (proj : State W -> X) (c : M W A) :
  preserves proj c -> preserves proj (catch c).
Proof.
  intros Hc st o st'. unfold catch.
  destruct (c st) as [r s1] eqn:Hrun. intros [= _ <-]. by eapply Hc.
Qed.

(** The manager is touched by [set_manager] only. *)

Lemma manager_emit (ev : Event) : preserves COOKIE_MANAGER (@emit W ev).
Proof. by intros st o st' [= _ <-]. Qed.

Lemma manager_call {A} (f : W -> Outcome A * W) :
  preserves COOKIE_MANAGER (call f).
Proof.
  intros st o st'. unfold call. destruct (f (world st)). by intros [= _ <-].
Qed.

Lemma manager_call_total {A} (f : W -> A * W) :
  preserves COOKIE_MANAGER (call_total f).
Proof. apply manager_call. Qed.

Lemma manager_modify_world (f : W -> W) :
  preserves COOKIE_MANAGER (modify_world f).
Proof. by intros st o st' [= _ <-]. Qed.

Lemma manager_set_lcpt (t : Q) : preserves COOKIE_MANAGER (@set_lcpt W t).
Proof. by intros st o st' [= _ <-]. Qed.

End Frames.

Create HintDb emits.
#[local] Hint Resolve emits_ret emits_raise emits_lift emits_ask emits_call
  emits_call_total emits_get_manager emits_set_manager emits_modify_world
  emits_get_lcpt emits_set_lcpt : emits.

Create HintDb manager.
#[local] Hint Resolve preserves_ret preserves_raise preserves_lift
  preserves_ask preserves_get_manager preserves_get_lcpt manager_emit
  manager_call manager_call_total manager_modify_world manager_set_lcpt
  : manager.

Ltac emits_step :=
  first
    [ solve [eauto with emits]
    | solve [apply emits_emit; done]
    | apply emits_bind; [|intros ?]
    | apply emits_try_except; [|intros ?]
    | apply emits_catch
    | match goal with
      | |- emits _ (match ?x with _ => _ end) => destruct x
      | |- emits _ (if ?x then _ else _) => destruct x
      | |- emits _ (let '(_, _) := ?x in _) => destruct x
      end ].

Ltac manager_step :=
  first
    [ solve [eauto with manager]
    | apply preserves_bind; [|intros ?]
    | apply preserves_try_except; [|intros ?]
    | apply preserves_catch
    | match goal with
      | |- preserves _ (match ?x with _ => _ end) => destruct x
      | |- preserves _ (if ?x then _ else _) => destruct x
      | |- preserves _ (let '(_, _) := ?x in _) => destruct x
      end ].

Section Totality.
Context {W : Type}.

Lemma never_raises_ret {A} (a : A) : never_raises (@ret W A a).
Proof. intros st. by eexists _, _. Qed.

Lemma never_raises_emit (ev : Event) : never_raises (@emit W ev).
Proof. intros st. by eexists _, _. Qed.

Lemma never_raises_ask {A} (f : W -> A) : never_raises (ask f).
Proof. intros st. by eexists _, _. Qed.

Lemma never_raises_call_total {A} (f : W -> A * W) :
  never_raises (call_total f).
Proof.
  intros st. unfold call_total, call. destruct (f (world st)). by eexists _, _.
Qed.

Lemma never_raises_get_manager : never_raises (@get_manager W).
Proof. intros st. by eexists _, _. Qed.

Lemma never_raises_set_manager m : never_raises (@set_manager W m).
Proof. intros st. by eexists _, _. Qed.

Lemma never_raises_modify_world f : never_raises (@modify_world W f).
Proof. intros st. by eexists _, _. Qed.

Lemma never_raises_get_lcpt : never_raises (@get_lcpt W).
Proof. intros st. by eexists _, _. Qed.

Lemma never_raises_set_lcpt t : never_raises (@set_lcpt W t).
Proof. intros st. by eexists _, _. Qed.

Lemma never_raises_catch {A} (c : M W A) : never_raises (catch c).
Proof. intros st. unfold catch. destruct (c st). by eexists _, _. Qed.

Lemma never_raises_bind {A B} (c : M W A) (k : A -> M W B) :
  never_raises c -> (forall a, never_raises (k a)) -> never_raises (bind c k).
Proof.
  intros Hc Hk st. unfold bind.
  destruct (Hc st) as (a & s1 & ->). apply Hk.
Qed.

Lemma never_raises_try_except {A} (c : M W A) (h : Exc -> M W A) :
  (forall e, never_raises (h e)) -> never_raises (try_except c h).
Proof.
  intros Hh st. unfold try_except.
  destruct (c st) as [[a|e] s1]; [by eexists _, _ | apply Hh].
Qed.

End Totality.

Create HintDb total.
#[local] Hint Resolve never_raises_ret never_raises_emit never_raises_ask
  never_raises_call_total never_raises_get_manager never_raises_set_manager
  never_raises_modify_world never_raises_get_lcpt never_raises_set_lcpt
  never_raises_catch : total.

Ltac total_step :=
  first
    [ solve [eauto with total]
    | apply never_raises_try_except; intros ?
    | apply never_raises_bind; [|intros ?]
    | match goal with
      | |- never_raises (match ?x with _ => _ end) => destruct x
      | |- never_raises (if ?x then _ else _) => destruct x
      | |- never_raises (let '(_, _) := ?x in _) => destruct x
      end ].

(* ===================================================================== *)
(** * Further properties: core/yt_dlp_fetcher.py *)
(* ===================================================================== *)

Section FetchFrames.
Context {W : Type} (E : Env W).

Lemma emits_cleanup_paths (P : Event -> Prop) (paths : list string) :
  (forall p, P (EvCleanup p)) -> emits P (_cleanup_paths E paths).
Proof.
  intros HP. induction paths as [|p paths IH]; simpl; repeat emits_step.
Qed.

Lemma manager_cleanup_paths (paths : list string) :
  preserves COOKIE_MANAGER (_cleanup_paths E paths).
Proof. induction paths as [|p paths IH]; simpl; repeat manager_step. Qed.

Lemma emits_collect_lang_texts (P : Event -> Prop) (tmpdir : string)
    (languages : list string) (acc : Dict) :
  emits P (collect_lang_texts E tmpdir languages acc).
Proof.
  revert acc. induction languages as [|l languages IH]; intros acc; simpl;
    repeat emits_step.
Qed.

Lemma manager_collect_lang_texts (tmpdir : string) (languages : list string)
    (acc : Dict) :
  preserves COOKIE_MANAGER (collect_lang_texts E tmpdir languages acc).
Proof.
  revert acc. induction languages as [|l languages IH]; intros acc; simpl;
    repeat manager_step.
Qed.

Lemma emits_download_subtitles (P : Event -> Prop) (url : string)
    (languages : list string) (manual : bool) (cookies_file : option string) :
  (forall u c, P (EvDownloadSubs u c)) ->
  emits P (_download_subtitles_via_api E url languages manual cookies_file).
Proof.
  intros HP. unfold _download_subtitles_via_api.
  pose proof (emits_collect_lang_texts P).
  apply emits_bind; [eauto with emits | intros t0].
  apply emits_bind; [by apply emits_emit | intros _].
  apply emits_bind; [|intros msgs; repeat emits_step].
  apply emits_nothing. intros st o st'.
  destruct (ydl_download_subs E _ _ _ _ _) as [[r msgs] w]. by intros [= _ <-].
Qed.

Lemma manager_download_subtitles (url : string) (languages : list string)
    (manual : bool) (cookies_file : option string) :
  preserves COOKIE_MANAGER
    (_download_subtitles_via_api E url languages manual cookies_file).
Proof.
  unfold _download_subtitles_via_api.
  pose proof manager_collect_lang_texts.
  apply preserves_bind; [eauto with manager | intros t0].
  apply preserves_bind; [eauto with manager | intros _].
  apply preserves_bind; [|intros msgs; repeat manager_step].
  intros st o st'.
  destruct (ydl_download_subs E _ _ _ _ _) as [[r msgs] w]. by intros [= _ <-].
Qed.

Lemma emits_after_info (video_url : string) (total_start : Q) (info : Info)
    (result timings : Dict) :
  emits not_extract (after_info E video_url total_start info result timings).
Proof.
  unfold after_info.
  pose proof (emits_download_subtitles not_extract) as Hd.
  pose proof (emits_cleanup_paths not_extract) as Hc.
  apply emits_bind; [eauto with emits | intros t].
  apply emits_bind.
  - apply emits_catch.
    apply emits_bind; [eauto with emits | intros m].
    apply emits_bind; [eauto with emits | intros c]. by apply Hd.
  - intros [[[[auto_map tmpdir] auto_sec] saw]|e]; [|eauto with emits].
    destruct (captions_loop _ _ _ _ _) as [r1 t1].
    apply emits_bind; [by apply Hc | intros _]. repeat emits_step.
Qed.

Lemma manager_after_info (video_url : string) (total_start : Q) (info : Info)
    (result timings : Dict) :
  preserves COOKIE_MANAGER
    (after_info E video_url total_start info result timings).
Proof.
  unfold after_info.
  pose proof manager_download_subtitles as Hd.
  pose proof manager_cleanup_paths as Hc.
  apply preserves_bind; [eauto with manager | intros t].
  apply preserves_bind.
  - apply preserves_catch.
    apply preserves_bind; [eauto with manager | intros m].
    apply preserves_bind; [eauto with manager | intros c]. apply Hd.
  - intros [[[[auto_map tmpdir] auto_sec] saw]|e]; [|eauto with manager].
    destruct (captions_loop _ _ _ _ _) as [r1 t1].
    apply preserves_bind; [by apply Hc | intros _]. repeat manager_step.
Qed.

Lemma manager_try_block (video_url : string) (total_start : Q)
    (cookie : option string) (result timings : Dict) :
  preserves COOKIE_MANAGER
    (try_block E video_url total_start cookie result timings).
Proof.
  unfold try_block. pose proof manager_after_info. repeat manager_step.
Qed.

(** One attempt calls [extract_info] once, first of all. *)
Lemma try_block_trace (video_url : string) (total_start : Q)
    (cookie : option string) (result timings : Dict) (st st' : State W)
    (o : Outcome (Dict * Dict * Outcome Dict)) :
  try_block E video_url total_start cookie result timings st = (o, st') ->
  exists rest,
    trace st' = (trace st ++ EvExtract video_url (truthy_str cookie) :: rest)%list
    /\ Forall not_extract rest.
Proof.
  unfold try_block.
  unfold bind at 1, call_total at 1, call at 1.
  destruct (perf_counter E (world st)) as [t0 w0].
  unfold bind at 1, emit at 1. cbn [world COOKIE_MANAGER lcpt lcdt trace].
  intros Hrun.
  match type of Hrun with
  | bind ?c ?k ?s = _ =>
      assert (Hrest : emits not_extract (bind c k))
  end.
  { pose proof emits_after_info. repeat emits_step. }
  destruct (Hrest _ _ _ Hrun) as (rest & Htr & Hall).
  exists rest. cbn [trace] in Htr. by rewrite Htr, <- app_assoc.
Qed.

Lemma on_exception_spec (attempt max_attempts : nat) (e : Exc) (st : State W) :
  exists action m,
    on_exception attempt max_attempts e st
    = (Val action,
       mkState (world st) m (lcpt st) (lcdt st) (trace st))
    /\ cookie_files m = cookie_files (COOKIE_MANAGER st)
    /\ (valid_manager (COOKIE_MANAGER st) -> valid_manager m)
    /\ (action = Continue -> attempt < max_attempts - 1).
Proof.
  assert (Hsame : mkState (world st) (COOKIE_MANAGER st) (lcpt st) (lcdt st)
                    (trace st) = st) by (by destruct st).
  unfold on_exception.
  destruct (PyStr.any_in unavailable_indicators _);
    [exists ReturnEmpty, (COOKIE_MANAGER st); by rewrite Hsame|].
  destruct ((_ || _) && _) eqn:Hcond;
    [|exists ReturnEmpty, (COOKIE_MANAGER st); by rewrite Hsame].
  apply andb_prop in Hcond as [_ Hlt%Nat.ltb_lt].
  unfold bind at 1, get_manager at 1.
  pose proof (rotate_to_next_valid (COOKIE_MANAGER st)) as [Hv [c Hc]].
  pose proof (rotate_to_next_files (COOKIE_MANAGER st)) as Hf.
  destruct (rotate_to_next (COOKIE_MANAGER st)) as [m' next]. simpl in *.
  subst next. unfold bind, set_manager, lift, ret. simpl.
  destruct (truthy_str c); eexists _, m'; (split; [done|]); done.
Qed.

End FetchFrames.

Lemma count_extracts_app (l1 l2 : list Event) :
  count_extracts (l1 ++ l2) = count_extracts l1 + count_extracts l2.
Proof. unfold count_extracts. by rewrite List.filter_app, length_app. Qed.

Lemma count_extracts_none (l : list Event) :
  Forall not_extract l -> count_extracts l = 0.
Proof.
  unfold count_extracts. induction 1 as [|ev l Hev _ IH]; [done|].
  simpl. unfold not_extract in Hev. by rewrite Hev.
Qed.

Section Attempts.
Context {W : Type} (E : Env W).

Lemma attempts_loop_extracts (video_url : string) (total_start : Q)
    (max_attempts : nat) (attempts : list nat) (result timings : Dict)
    (st st' : State W) (o : Outcome Dict) :
  attempts_loop E video_url total_start max_attempts attempts result timings st
  = (o, st') ->
  exists evs,
    trace st' = (trace st ++ evs)%list
    /\ count_extracts evs <= List.length attempts.
Proof.
  revert result timings st.
  induction attempts as [|attempt rest IH]; intros result timings st Hrun.
  - injection Hrun as _ <-. exists []. by rewrite app_nil_r.
  - simpl in Hrun.
    unfold bind at 1, get_manager at 1 in Hrun.
    unfold bind at 1, lift at 1 in Hrun.
    destruct (get_current_cookie (COOKIE_MANAGER st)) as [cookie|e].
    2: { injection Hrun as _ <-. exists []. rewrite app_nil_r.
         split; [done | unfold count_extracts; simpl; lia]. }
    unfold bind at 1 in Hrun.
    destruct (try_block E video_url total_start cookie result timings st)
      as [out s1] eqn:Htry.
    destruct (try_block_trace E _ _ _ _ _ _ _ _ Htry) as (r1 & Htr1 & Hr1).
    assert (Hone : count_extracts (EvExtract video_url (truthy_str cookie) :: r1) = 1)
      by (change (S (count_extracts r1) = 1); by rewrite count_extracts_none).
    destruct out as [[[result' timings'] how]|e].
    2: { injection Hrun as _ <-. eexists. split; [done|]. rewrite Hone. simpl. lia. }
    destruct how as [r|e].
    { injection Hrun as _ <-. eexists. split; [done|]. rewrite Hone. simpl. lia. }
    unfold bind at 1 in Hrun.
    destruct (on_exception_spec attempt max_attempts e s1)
      as (action & m & Hexc & _).
    rewrite Hexc in Hrun.
    destruct action.
    + injection Hrun as _ <-. eexists. split; [done|]. rewrite Hone. simpl. lia.
    + apply IH in Hrun as (evs & Htr & Hcount). cbn [trace] in Htr.
      exists ((EvExtract video_url (truthy_str cookie) :: r1) ++ evs)%list.
      split; [by rewrite Htr, Htr1, <- app_assoc|].
      rewrite count_extracts_app, Hone. simpl. lia.
Qed.

(** X6. One call of [fetch_from_ytdlp] calls [extract_info] at most
    max(1, number of credentials) times, whatever the extractor answers. *)
Theorem fetch_attempts_bounded (video_url : string) (st st' : State W)
    (o : Outcome Dict) :
  fetch_from_ytdlp E video_url st = (o, st') ->
  count_extracts (new_events st st')
  <= Nat.max 1 (List.length (cookie_files (COOKIE_MANAGER st))).
Proof.
  unfold fetch_from_ytdlp, new_events.
  unfold bind at 1, call_total at 1, call at 1.
  destruct (perf_counter E (world st)) as [t0 w0].
  unfold bind at 1, get_manager at 1. cbn [COOKIE_MANAGER].
  intros Hrun. apply attempts_loop_extracts in Hrun as (evs & Htr & Hcount).
  cbn [trace] in Htr. rewrite Htr, drop_app_length.
  rewrite length_seq in Hcount. unfold max_attempts_of in Hcount.
  destruct (cookie_files (COOKIE_MANAGER st)); simpl in *; lia.
Qed.

(** X7. When the extraction raises an error that is a timeout or is
    blocking, and not an unavailable one, on an attempt that is not the
    last, the manager moves to the next credential and the loop goes on
    with the remaining attempts from there, the partial result
    untouched. *)
Theorem blocked_error_rotates_and_retries (video_url : string)
    (total_start : Q) (max_attempts attempt : nat) (rest : list nat)
    (result timings : Dict) (st : State W) (cookie : option string)
    (e : Exc) (w : W) :
  get_current_cookie (COOKIE_MANAGER st) = Val cookie ->
  ydl_extract_info E video_url (truthy_str cookie)
    (snd (perf_counter E (world st))) = (Exn e, w) ->
  PyStr.any_in unavailable_indicators (PyStr.lower (exc_msg e)) = false ->
  PyStr.any_in timeout_indicators (PyStr.lower (exc_msg e))
  || is_blocked_error e = true ->
  attempt < max_attempts - 1 ->
  (exists c, snd (rotate_to_next (COOKIE_MANAGER st)) = Val (Some c) /\ c <> "") ->
  attempts_loop E video_url total_start max_attempts (attempt :: rest)
    result timings st
  = attempts_loop E video_url total_start max_attempts rest result timings
      (mkState w (fst (rotate_to_next (COOKIE_MANAGER st))) (lcpt st) (lcdt st)
         (trace st ++ [EvExtract video_url (truthy_str cookie)])).
Proof.
  intros Hc Hx Hu Hretry Hlt (c & Hnext & Hne).
  cbn [attempts_loop].
  unfold bind at 1, get_manager at 1.
  unfold bind at 1, lift at 1. rewrite Hc.
  unfold bind at 1. rewrite (try_block_extract_raises _ _ _ _ _ _ _ _ _ Hx).
  unfold bind at 1. unfold on_exception. rewrite Hu, Hretry.
  apply Nat.ltb_lt in Hlt. rewrite Hlt. cbn [andb].
  unfold bind at 1, get_manager at 1. cbn [after_failed_extract COOKIE_MANAGER].
  destruct (rotate_to_next (COOKIE_MANAGER st)) as [m' next]. simpl in Hnext.
  subst next. unfold bind, set_manager, lift. cbn.
  apply String.eqb_neq in Hne. by rewrite Hne.
Qed.

(** X8. On the last attempt an exception of the extraction ends the
    fetch with the empty result, whatever its kind: the credential is
    not rotated and nothing else is tried. *)
Theorem last_attempt_returns_empty (video_url : string) (total_start : Q)
    (max_attempts attempt : nat) (rest : list nat) (result timings : Dict)
    (st : State W) (cookie : option string) (e : Exc) (w : W) :
  get_current_cookie (COOKIE_MANAGER st) = Val cookie ->
  ydl_extract_info E video_url (truthy_str cookie)
    (snd (perf_counter E (world st))) = (Exn e, w) ->
  max_attempts - 1 <= attempt ->
  attempts_loop E video_url total_start max_attempts (attempt :: rest)
    result timings st
  = (Val [], after_failed_extract video_url cookie w st).
Proof.
  intros Hc Hx Hlast. apply attempt_returns_empty with (e := e); try done.
  unfold on_exception.
  destruct (PyStr.any_in unavailable_indicators _); [done|].
  apply Nat.ltb_ge in Hlast. rewrite Hlast. by rewrite andb_false_r.
Qed.

End Attempts.

Lemma fetch_attempts_bounded_witness :
  exists o st',
    fetch_from_ytdlp (Scenario.raising Scenario3.forbidden) "u"
      Scenario.two_cookies = (o, st')
    /\ count_extracts (new_events Scenario.two_cookies st') <= 2.
Proof.
  eexists _, _. split; [vm_compute; reflexivity|].
  eapply (fetch_attempts_bounded (Scenario.raising Scenario3.forbidden) "u"
            Scenario.two_cookies).
  vm_compute. reflexivity.
Defined.

Lemma blocked_error_rotates_and_retries_witness :
  let E := Scenario3.blocked_with_first (Scenario.info_with [] None) in
  attempts_loop E "u" 0 2 [0; 1] [] timings0 Scenario.two_cookies
  = attempts_loop E "u" 0 2 [1] [] timings0
      (mkState tt (mkManager ["a.txt"; "b.txt"] 1) None None
         [EvExtract "u" (Some "a.txt")]).
Proof.
  apply (blocked_error_rotates_and_retries
           (Scenario3.blocked_with_first (Scenario.info_with [] None))
           "u" 0 2 0 [1] [] timings0 Scenario.two_cookies (Some "a.txt")
           Scenario3.forbidden tt); try reflexivity.
  - simpl. lia.
  - exists "b.txt". split; [reflexivity | discriminate].
Defined.

Lemma last_attempt_returns_empty_witness :
  attempts_loop (Scenario.raising Scenario3.forbidden) "u" 0 2 [1]
    [] timings0 Scenario.two_cookies
  = (Val [],
     mkState tt (mkManager ["a.txt"; "b.txt"] 0) None None
       [EvExtract "u" (Some "a.txt")]).
Proof.
  apply (last_attempt_returns_empty (Scenario.raising Scenario3.forbidden)
           "u" 0 2 1 [] [] timings0 Scenario.two_cookies (Some "a.txt")
           Scenario3.forbidden tt); reflexivity.
Defined.

Section FetchTotal.
Context {W : Type} (E : Env W).

Lemma never_raises_cleanup_paths (paths : list string) :
  never_raises (_cleanup_paths E paths).
Proof. induction paths as [|p paths IH]; simpl; repeat total_step. Qed.

Lemma never_raises_after_info (video_url : string) (total_start : Q)
    (info : Info) (result timings : Dict) :
  never_raises (after_info E video_url total_start info result timings).
Proof.
  unfold after_info. pose proof never_raises_cleanup_paths.
  apply never_raises_bind; [eauto with total | intros t].
  apply never_raises_bind; [eauto with total|].
  intros [[[[auto_map tmpdir] auto_sec] saw]|e]; [|eauto with total].
  destruct (captions_loop _ _ _ _ _) as [r1 t1]. repeat total_step.
Qed.

Lemma never_raises_try_block (video_url : string) (total_start : Q)
    (cookie : option string) (result timings : Dict) :
  never_raises (try_block E video_url total_start cookie result timings).
Proof.
  unfold try_block. pose proof never_raises_after_info. repeat total_step.
Qed.

Lemma attempts_loop_runs (video_url : string) (total_start : Q)
    (max_attempts : nat) (attempts : list nat) (result timings : Dict)
    (st : State W) :
  valid_manager (COOKIE_MANAGER st) ->
  exists r st',
    attempts_loop E video_url total_start max_attempts attempts result timings st
    = (Val r, st')
    /\ valid_manager (COOKIE_MANAGER st')
    /\ cookie_files (COOKIE_MANAGER st') = cookie_files (COOKIE_MANAGER st).
Proof.
  revert result timings st.
  induction attempts as [|attempt rest IH]; intros result timings st Hv.
  - by eexists _, _.
  - cbn [attempts_loop].
    unfold bind at 1, get_manager at 1.
    unfold bind at 1, lift at 1.
    destruct (get_current_cookie_valid _ Hv) as [cookie ->].
    unfold bind at 1.
    destruct (never_raises_try_block video_url total_start cookie result
                timings st) as ([[result' timings'] how] & s1 & Htry).
    rewrite Htry.
    pose proof (manager_try_block E _ _ _ _ _ _ _ _ Htry) as Hm.
    destruct how as [r|e]; [eexists _, _; by rewrite Hm|].
    unfold bind at 1.
    destruct (on_exception_spec attempt max_attempts e s1)
      as (action & m & -> & Hfiles & Hvalid & _).
    rewrite Hm in Hfiles, Hvalid.
    destruct action.
    + eexists _, _. split; [done|]. cbn [COOKIE_MANAGER]. auto.
    + edestruct IH as (r & st' & Hrun & Hv' & Hf').
      2: { eexists _, _. split; [exact Hrun|]. split; [done|].
           rewrite Hf'. cbn [COOKIE_MANAGER]. done. }
      cbn [COOKIE_MANAGER]. auto.
Qed.

(** X9. With the manager's cursor inside its credential list (or the list
    empty), [fetch_from_ytdlp] never raises: every exception of the
    extraction or of the caption call ends in a returned dictionary. The
    credential list is the same afterwards and the cursor is still
    inside it. *)
Theorem fetch_never_raises (video_url : string) (st : State W) :
  valid_manager (COOKIE_MANAGER st) ->
  exists r st',
    fetch_from_ytdlp E video_url st = (Val r, st')
    /\ valid_manager (COOKIE_MANAGER st')
    /\ cookie_files (COOKIE_MANAGER st') = cookie_files (COOKIE_MANAGER st).
Proof.
  intros Hv. unfold fetch_from_ytdlp.
  unfold bind at 1, call_total at 1, call at 1.
  destruct (perf_counter E (world st)) as [t0 w0].
  unfold bind at 1, get_manager at 1. cbn [COOKIE_MANAGER].
  match goal with
  | |- context [attempts_loop _ _ _ _ _ _ _ ?s] =>
      destruct (attempts_loop_runs video_url t0 (max_attempts_of (COOKIE_MANAGER st))
                  (seq 0 (max_attempts_of (COOKIE_MANAGER st))) [] timings0 s Hv)
        as (r & st' & Hrun & Hv' & Hf)
  end.
  by exists r, st'.
Qed.

End FetchTotal.

Lemma fetch_never_raises_witness :
  exists r st',
    fetch_from_ytdlp (Scenario.raising Scenario3.forbidden) "u"
      Scenario.two_cookies = (Val r, st')
    /\ valid_manager (COOKIE_MANAGER st')
    /\ cookie_files (COOKIE_MANAGER st')
       = cookie_files (COOKIE_MANAGER Scenario.two_cookies).
Proof.
  apply (fetch_never_raises (Scenario.raising Scenario3.forbidden) "u"
           Scenario.two_cookies).
  right. simpl. lia.
Defined.

(* ===================================================================== *)
(** * Further properties: the record a fetch returns *)
(* ===================================================================== *)

Lemma keys_set (k : string) (v : pyval) (d : Dict) :
  map fst (PyDict.set k v d)
  = if PyStr.mem k (map fst d) then map fst d else (map fst d ++ [k])%list.
Proof.
  induction d as [|[k' v'] d IH]; simpl; [done|].
  destruct (String.eqb k k') eqn:Hk; simpl.
  - apply String.eqb_eq in Hk. by subst.
  - rewrite IH. unfold PyStr.mem. by destruct (existsb _ _).
Qed.

Lemma keys_set_present (k : string) (v : pyval) (d : Dict) :
  PyStr.mem k (map fst d) = true -> map fst (PyDict.set k v d) = map fst d.
Proof. intros H. by rewrite keys_set, H. Qed.

Lemma lookup_get (k : string) (d : Dict) (v default : pyval) :
  PyDict.lookup k d = Some v -> PyDict.get k default d = v.
Proof. unfold PyDict.get. by intros ->. Qed.

Lemma captions_loop_keys (languages : list string) (auto_map : Dict)
    (auto_sec : Q) (result timings : Dict) :
  PyStr.mem "automatic_captions" (map fst result) = true ->
  map fst (fst (captions_loop languages auto_map auto_sec result timings))
  = map fst result.
Proof.
  revert result timings.
  induction languages as [|lang languages IH]; intros result timings Hin;
    [done|].
  cbn [captions_loop]. destruct (truthy _).
  - rewrite IH; rewrite keys_set_present; done.
  - by rewrite IH.
Qed.

Lemma captions_loop_en_ru (auto_map : Dict) (auto_sec : Q)
    (result timings : Dict) :
  PyDict.lookup "automatic_captions" result = Some (PDict []) ->
  PyDict.lookup "automatic_captions"
    (fst (captions_loop ["en"; "ru"] auto_map auto_sec result timings))
  = Some (PDict (captions_expected auto_map)).
Proof.
  intros Hempty. cbn [captions_loop]. unfold captions_expected.
  fold (caption_text auto_map "en"). fold (caption_text auto_map "ru").
  destruct (truthy (caption_text auto_map "en")) eqn:Hen;
    destruct (truthy (caption_text auto_map "ru")) eqn:Hru; cbn [fst].
  - rewrite lookup_set_eq.
    rewrite (lookup_get _ _ _ _ (lookup_set_eq _ _ _)).
    by rewrite (lookup_get _ _ _ _ Hempty).
  - rewrite lookup_set_eq. by rewrite (lookup_get _ _ _ _ Hempty).
  - rewrite lookup_set_eq. by rewrite (lookup_get _ _ _ _ Hempty).
  - done.
Qed.

Lemma base_fields_keys (u a : pyval) (result : Dict) :
  carried result ->
  map fst (PyDict.set "automatic_captions" (PDict [])
             (PyDict.set "subtitles" (PDict [])
                (PyDict.set "age_limit" a
                   (PyDict.set "webpage_url" u result))))
  = base_keys.
Proof.
  intros [->|Hkeys]; [done|].
  rewrite !keys_set, Hkeys. done.
Qed.

Lemma project_info_keys (info : Info) (result : Dict) :
  map fst result = base_keys ->
  map fst (project_info info result)
  = (base_keys ++ [ "chapters"; "formats"; "thumbnails_ytdlp" ]
     ++ (if duration_truthy (info_duration info)
         then [ "duration_seconds" ] else []))%list.
Proof.
  intros Hkeys. unfold project_info, set_duration.
  assert (H3 : map fst
                 (PyDict.set "thumbnails_ytdlp"
                    (PList (thumbnails_field (info_thumbnails info)))
                    (PyDict.set "formats"
                       (PList (formats_field (info_formats info)))
                       (PyDict.set "chapters" (info_chapters info) result)))
               = (base_keys ++ [ "chapters"; "formats"; "thumbnails_ytdlp" ])%list).
  { rewrite !keys_set, Hkeys. done. }
  destruct (info_duration info) as [d|]; [|by rewrite H3, app_nil_r].
  destruct (duration_truthy (Some d)); [|by rewrite H3, app_nil_r].
  rewrite keys_set, H3. done.
Qed.

Lemma project_info_lookup_other (info : Info) (result : Dict) (k : string) :
  k <> "chapters" -> k <> "formats" -> k <> "thumbnails_ytdlp" ->
  k <> "duration_seconds" ->
  PyDict.lookup k (project_info info result) = PyDict.lookup k result.
Proof.
  intros H1 H2 H3 H4. unfold project_info.
  rewrite set_duration_lookup_other by done.
  by rewrite !lookup_set_ne.
Qed.

Lemma project_info_chapters (info : Info) (result : Dict) :
  PyDict.lookup "chapters" (project_info info result)
  = Some (info_chapters info).
Proof.
  unfold project_info. rewrite set_duration_lookup_other by done.
  rewrite !lookup_set_ne by done. apply lookup_set_eq.
Qed.

Section Record.
Context {W : Type} (E : Env W).

Lemma after_info_success (video_url : string) (total_start : Q) (info : Info)
    (result timings result' timings' : Dict) (how : Outcome Dict)
    (st st' : State W) :
  after_info E video_url total_start info result timings st
  = (Val (result', timings', how), st') ->
  carried result ->
  match how with
  | Val r =>
      exists tail,
        trace st' = (trace st ++ tail)%list
        /\ fetched_record E video_url info r tail
  | Exn _ => carried result'
  end.
Proof.
  intros Hrun Hcar. unfold after_info in Hrun.
  unfold bind at 1, call_total at 1, call at 1 in Hrun.
  destruct (perf_counter E (world st)) as [t1 w1].
  unfold bind at 1, catch at 1 in Hrun.
  unfold bind at 1, get_manager at 1 in Hrun.
  unfold bind at 1, lift at 1 in Hrun.
  cbn [world COOKIE_MANAGER lcpt lcdt trace] in Hrun.
  pose proof (base_fields_keys (opt_str (info_webpage_url info))
                (info_age_limit info) result Hcar) as Hbase.
  destruct (get_current_cookie (COOKIE_MANAGER st)) as [cookie_file|e].
  2: { injection Hrun as <- _ <- _. by right. }
  match type of Hrun with
  | context [_download_subtitles_via_api E ?u ?l ?m ?c ?s] =>
      destruct (_download_subtitles_via_api E u l m c s)
        as [[[[[auto_map tmpdir] auto_sec] saw]|e] s1] eqn:Hdl
  end.
  2: { injection Hrun as <- _ <- _. by right. }
  apply download_subtitles_spec in Hdl as (-> & _ & Htr1 & Hmap).
  cbn [world trace] in Htr1, Hmap.
  match type of Hrun with
  | context [captions_loop ?l ?a ?s ?r ?t] =>
      pose proof (captions_loop_keys l a s r t) as Hkeys1;
      pose proof (captions_loop_en_ru a s r t) as Hcaps;
      pose proof (fun k => captions_loop_lookup l a s r t k) as Hother;
      destruct (captions_loop l a s r t) as [result1 timings1]
  end.
  cbn [fst] in Hkeys1, Hcaps, Hother.
  rewrite Hbase in Hkeys1. specialize (Hkeys1 eq_refl).
  rewrite lookup_set_eq in Hcaps. specialize (Hcaps eq_refl).
  unfold bind at 1 in Hrun.
  cbn [_cleanup_paths] in Hrun.
  change (String.eqb SUBS_TMPDIR "") with false in Hrun.
  unfold bind at 1 in Hrun. unfold bind at 1 in Hrun.
  unfold bind at 1, emit at 1, modify_world at 1, ret at 1 in Hrun.
  cbn [world COOKIE_MANAGER lcpt lcdt trace] in Hrun.
  unfold bind at 1, call_total at 1, call at 1 in Hrun.
  cbn [world COOKIE_MANAGER lcpt lcdt trace] in Hrun.
  destruct (perf_counter E (remove_tree E SUBS_TMPDIR (world s1))) as [t2 w2].
  unfold call_total, call in Hrun.
  cbn [world COOKIE_MANAGER lcpt lcdt trace] in Hrun.
  destruct (perf_counter E w2) as [t3 w3].
  unfold ret in Hrun. injection Hrun as <- <- <- <-.
  eexists. split; [cbn [trace]; rewrite Htr1, <- app_assoc; done|].
  exists auto_map, cookie_file. eexists. split; [exact Hmap|]. split; [done|].
  split; [|split; [|split; [|split; [|split]]]].
  - rewrite keys_set, project_info_keys by done.
    unfold record_keys. by destruct (duration_truthy (info_duration info)).
  - rewrite lookup_set_ne, project_info_lookup_other, Hother by done.
    rewrite !lookup_set_ne by done. destruct Hcar as [->|Hk]; [done|].
    apply lookup_set_eq.
  - rewrite lookup_set_ne, project_info_lookup_other, Hother by done.
    rewrite !lookup_set_ne by done. apply lookup_set_eq.
  - rewrite lookup_set_ne, project_info_lookup_other, Hother by done.
    rewrite !lookup_set_ne by done. apply lookup_set_eq.
  - by rewrite lookup_set_ne, project_info_lookup_other, Hcaps.
  - rewrite lookup_set_ne by done. apply project_info_chapters.
Qed.

Lemma try_block_success (video_url : string) (total_start : Q)
    (cookie : option string) (result timings result' timings' : Dict)
    (how : Outcome Dict) (st st' : State W) :
  try_block E video_url total_start cookie result timings st
  = (Val (result', timings', how), st') ->
  carried result ->
  match how with
  | Val r =>
      r = []
      \/ exists info w w' tail,
           ydl_extract_info E video_url (truthy_str cookie) w
           = (Val (Some info), w')
           /\ trace st'
              = (trace st ++ EvExtract video_url (truthy_str cookie) :: tail)%list
           /\ fetched_record E video_url info r tail
  | Exn _ => carried result'
  end.
Proof.
  intros Hrun Hcar. unfold try_block in Hrun.
  unfold bind at 1, call_total at 1, call at 1 in Hrun.
  destruct (perf_counter E (world st)) as [t0 w0].
  unfold bind at 1, emit at 1 in Hrun.
  unfold bind at 1, catch at 1, call at 1 in Hrun.
  cbn [world COOKIE_MANAGER lcpt lcdt trace] in Hrun.
  destruct (ydl_extract_info E video_url (truthy_str cookie) w0)
    as [[[info|]|e] w1] eqn:Hx.
  - unfold bind at 1, call_total at 1, call at 1 in Hrun.
    cbn [world COOKIE_MANAGER lcpt lcdt trace] in Hrun.
    destruct (perf_counter E w1) as [t1 w2].
    apply after_info_success in Hrun; [|done].
    destruct how as [r|e]; [|done]. right.
    destruct Hrun as (tail & Htr & Hrec). cbn [trace] in Htr.
    exists info, w0, w1, tail. split; [done|]. split; [|done].
    by rewrite Htr, <- app_assoc.
  - unfold bind at 1, call_total at 1, call at 1 in Hrun.
    cbn [world COOKIE_MANAGER lcpt lcdt trace] in Hrun.
    destruct (perf_counter E w1) as [t1 w2].
    injection Hrun as <- _ <- _. by left.
  - injection Hrun as <- _ <- _. done.
Qed.

Lemma attempts_loop_success (video_url : string) (total_start : Q)
    (max_attempts : nat) (attempts : list nat) (result timings : Dict)
    (st st' : State W) (r : Dict) :
  attempts_loop E video_url total_start max_attempts attempts result timings st
  = (Val r, st') ->
  carried result ->
  r = []
  \/ exists info cookie w w' before tail,
       ydl_extract_info E video_url cookie w = (Val (Some info), w')
       /\ trace st'
          = (trace st ++ before ++ EvExtract video_url cookie :: tail)%list
       /\ fetched_record E video_url info r tail.
Proof.
  revert result timings st.
  induction attempts as [|attempt rest IH]; intros result timings st Hrun Hcar.
  - left. by injection Hrun as <- _.
  - cbn [attempts_loop] in Hrun.
    unfold bind at 1, get_manager at 1 in Hrun.
    unfold bind at 1, lift at 1 in Hrun.
    destruct (get_current_cookie (COOKIE_MANAGER st)) as [cookie|e]; [|done].
    unfold bind at 1 in Hrun.
    destruct (try_block E video_url total_start cookie result timings st)
      as [[[[result' timings'] how]|e] s1] eqn:Htry; [|done].
    pose proof (try_block_trace E _ _ _ _ _ _ _ _ Htry) as (r1 & Htr1 & _).
    apply try_block_success in Htry; [|done].
    destruct how as [r'|e].
    + injection Hrun as -> ->.
      destruct Htry as [->|(info & w & w' & tail & Hx & Htr & Hrec)];
        [by left|].
      right. exists info, (truthy_str cookie), w, w', [], tail. done.
    + unfold bind at 1 in Hrun.
      destruct (on_exception_spec attempt max_attempts e s1)
        as (action & m & Hexc & _).
      rewrite Hexc in Hrun. destruct action.
      * left. by injection Hrun as <- _.
      * apply IH in Hrun as [->|Hok]; [by left | | done].
        right.
        destruct Hok as (info & c & w & w' & before & tail & Hx & Htr & Hrec).
        cbn [trace] in Htr.
        exists info, c, w, w',
          ((EvExtract video_url (truthy_str cookie) :: r1) ++ before)%list, tail.
        split; [done|]. split; [|done].
        by rewrite Htr, Htr1, <- !app_assoc.
Qed.

(** A non-empty result of [fetch_from_ytdlp] is the record of its last
    attempt. *)
Lemma fetch_success_form (video_url : string) (st st' : State W) (r : Dict) :
  fetch_from_ytdlp E video_url st = (Val r, st') ->
  r <> [] ->
  exists info cookie w w' before tail,
    ydl_extract_info E video_url cookie w = (Val (Some info), w')
    /\ new_events st st' = (before ++ EvExtract video_url cookie :: tail)%list
    /\ fetched_record E video_url info r tail.
Proof.
  intros Hrun Hne. unfold fetch_from_ytdlp in Hrun.
  unfold bind at 1, call_total at 1, call at 1 in Hrun.
  destruct (perf_counter E (world st)) as [t0 w0].
  unfold bind at 1, get_manager at 1 in Hrun.
  apply attempts_loop_success in Hrun as [->|Hok]; [done | | by left].
  destruct Hok as (info & c & w & w' & before & tail & Hx & Htr & Hrec).
  cbn [trace] in Htr.
  exists info, c, w, w', before, tail. split; [done|]. split; [|done].
  unfold new_events. by rewrite Htr, drop_app_length.
Qed.

(** X10. A non-empty result of [fetch_from_ytdlp] is a complete record:
    its keys are, in this order, webpage_url, age_limit, subtitles,
    automatic_captions, chapters, formats, thumbnails_ytdlp,
    duration_seconds (when the duration is truthy) and timings_ytdlp;
    webpage_url, age_limit and chapters are those of the metadata and
    subtitles is the empty dictionary. Keys left by a failed earlier
    attempt never show. *)
Theorem fetched_record_is_complete (video_url : string) (st st' : State W)
    (r : Dict) :
  fetch_from_ytdlp E video_url st = (Val r, st') ->
  r <> [] ->
  exists info cookie w w',
    ydl_extract_info E video_url cookie w = (Val (Some info), w')
    /\ map fst r = record_keys (info_duration info)
    /\ PyDict.lookup "webpage_url" r = Some (opt_str (info_webpage_url info))
    /\ PyDict.lookup "age_limit" r = Some (info_age_limit info)
    /\ PyDict.lookup "chapters" r = Some (info_chapters info)
    /\ PyDict.lookup "subtitles" r = Some (PDict []).
Proof.
  intros Hrun Hne.
  destruct (fetch_success_form _ _ _ _ Hrun Hne)
    as (info & c & w & w' & before & tail & Hx & _ & Hrec).
  destruct Hrec as (am & cf & w2 & _ & _ & Hkeys & Hu & Ha & Hs & _ & Hc).
  by exists info, c, w, w'.
Qed.

(** X11. A fetch that returns a record has, as its last three events,
    the extraction that gave the metadata, one caption download and the
    cleaning of the caption directory: the directory is cleaned after
    every caption call that returns. *)
Theorem fetch_success_ends_with_cleanup (video_url : string)
    (st st' : State W) (r : Dict) :
  fetch_from_ytdlp E video_url st = (Val r, st') ->
  r <> [] ->
  exists before cookie url cookie_file,
    new_events st st'
    = (before ++ [ EvExtract video_url cookie;
                   EvDownloadSubs url cookie_file;
                   EvCleanup SUBS_TMPDIR ])%list.
Proof.
  intros Hrun Hne.
  destruct (fetch_success_form _ _ _ _ Hrun Hne)
    as (info & c & w & w' & before & tail & Hx & Htr & Hrec).
  destruct Hrec as (am & cf & w2 & _ & -> & _).
  by eexists before, c, _, _.
Qed.

(** X12. The [automatic_captions] entry of a fetched record holds, for
    "en" and for "ru" and for nothing else, the text parsed from the
    first caption file found for that language, when that text is not
    empty. *)
Theorem fetched_captions (video_url : string) (st st' : State W) (r : Dict) :
  fetch_from_ytdlp E video_url st = (Val r, st') ->
  r <> [] ->
  exists captions w,
    PyDict.lookup "automatic_captions" r = Some (PDict captions)
    /\ forall lang v,
         PyDict.lookup lang captions = Some v <->
         (lang = "en" \/ lang = "ru")
         /\ text_found E SUBS_TMPDIR lang w v
         /\ v <> PStr "".
Proof.
  intros Hrun Hne.
  destruct (fetch_success_form _ _ _ _ Hrun Hne)
    as (info & c & w & w' & before & tail & Hx & _ & Hrec).
  destruct Hrec as (am & cf & w2 & Hmap & _ & _ & _ & _ & _ & Hcaps & _).
  exists (captions_expected am), w2. split; [done|].
  assert (Htext : forall lang v,
             (lang = "en" \/ lang = "ru") ->
             (caption_text am lang = v /\ truthy v = true) <->
             (text_found E SUBS_TMPDIR lang w2 v /\ v <> PStr "")).
  { intros lang v Hlang. unfold caption_text. split.
    - intros [<- Ht]. destruct am as [|kv am']; [done|].
      unfold PyDict.get in *.
      destruct (PyDict.lookup lang (kv :: am')) as [v|] eqn:Hl; [|done].
      apply Hmap in Hl as [_ Hf]. split; [done|]. by intros ->.
    - intros [Hf Hnon].
      assert (Hl : PyDict.lookup lang am = Some v).
      { apply Hmap. split; [|done]. destruct Hlang as [->| ->]; simpl; tauto. }
      destruct am as [|kv am']; [done|].
      unfold PyDict.get. rewrite Hl. split; [done|].
      destruct Hf as (f & o & t & _ & _ & ->). simpl.
      destruct t; [done | done]. }
  intros lang v. unfold captions_expected.
  destruct (truthy (caption_text am "en")) eqn:Hen;
    destruct (truthy (caption_text am "ru")) eqn:Hru; simpl.
  all: destruct (String.eqb_spec lang "en") as [->|Hne1];
    [|destruct (String.eqb_spec lang "ru") as [->|Hne2]].
  all: split;
    [ intros Hl; try discriminate Hl; try injection Hl as <-
    | intros (Hlang & Hf & Hnon) ].
  all: try (split; [tauto|]; apply Htext; [tauto | done]).
  all: try (destruct Hlang; congruence).
  all: destruct (proj2 (Htext _ _ Hlang) (conj Hf Hnon)) as [Heq Ht];
    congruence.
Qed.

(** X13. The [thumbnails_ytdlp] entry of a fetched record lists, in their
    original order, all the thumbnails of the metadata whose preference
    equals -1, and no other. *)
Theorem fetched_thumbnails (video_url : string) (st st' : State W) (r : Dict) :
  fetch_from_ytdlp E video_url st = (Val r, st') ->
  r <> [] ->
  exists info cookie w w' kept,
    ydl_extract_info E video_url cookie w = (Val (Some info), w')
    /\ PyDict.lookup "thumbnails_ytdlp" r = Some (PList (map PDict kept))
    /\ sublist kept (info_thumbnails info)
    /\ forall thumb,
         thumb ∈ kept <->
         thumb ∈ info_thumbnails info
         /\ eq_int (PyDict.get "preference" PNone thumb) (-1) = true.
Proof.
  intros Hrun Hne.
  destruct (fetch_from_ytdlp_projects E _ _ _ _ Hrun Hne)
    as (info & c & w & w' & Hx & _ & _ & Ht & _).
  exists info, c, w, w'. eexists. split; [done|]. split; [exact Ht|].
  split.
  - clear. induction (info_thumbnails info) as [|thumb rest IH]; [constructor|].
    cbn [List.filter].
    destruct (eq_int _ _); [by apply sublist_skip | by apply sublist_cons].
  - intros thumb. rewrite !list_elem_of_In, filter_In. done.
Qed.

End Record.

Lemma fetched_record_is_complete_witness :
  exists r st',
    fetch_from_ytdlp Scenario2.english_captions "u" Scenario.no_cookies
    = (Val r, st')
    /\ exists info cookie w w',
         ydl_extract_info Scenario2.english_captions "u" cookie w
         = (Val (Some info), w')
         /\ map fst r = record_keys (info_duration info)
         /\ PyDict.lookup "webpage_url" r
            = Some (opt_str (info_webpage_url info))
         /\ PyDict.lookup "age_limit" r = Some (info_age_limit info)
         /\ PyDict.lookup "chapters" r = Some (info_chapters info)
         /\ PyDict.lookup "subtitles" r = Some (PDict []).
Proof.
  eexists _, _. split; [vm_compute; reflexivity|].
  eapply (fetched_record_is_complete Scenario2.english_captions "u"
            Scenario.no_cookies).
  - vm_compute. reflexivity.
  - discriminate.
Defined.

Lemma fetch_success_ends_with_cleanup_witness :
  exists r st',
    fetch_from_ytdlp Scenario2.english_captions "u" Scenario.no_cookies
    = (Val r, st')
    /\ exists before cookie url cookie_file,
         new_events Scenario.no_cookies st'
         = (before ++ [ EvExtract "u" cookie;
                        EvDownloadSubs url cookie_file;
                        EvCleanup SUBS_TMPDIR ])%list.
Proof.
  eexists _, _. split; [vm_compute; reflexivity|].
  eapply (fetch_success_ends_with_cleanup Scenario2.english_captions "u"
            Scenario.no_cookies).
  - vm_compute. reflexivity.
  - discriminate.
Defined.

Lemma fetched_captions_witness :
  exists r st',
    fetch_from_ytdlp Scenario2.english_captions "u" Scenario.no_cookies
    = (Val r, st')
    /\ exists captions w,
         PyDict.lookup "automatic_captions" r = Some (PDict captions)
         /\ forall lang v,
              PyDict.lookup lang captions = Some v <->
              (lang = "en" \/ lang = "ru")
              /\ text_found Scenario2.english_captions SUBS_TMPDIR lang w v
              /\ v <> PStr "".
Proof.
  eexists _, _. split; [vm_compute; reflexivity|].
  eapply (fetched_captions Scenario2.english_captions "u"
            Scenario.no_cookies).
  - vm_compute. reflexivity.
  - discriminate.
Defined.

Lemma fetched_thumbnails_witness :
  exists r st',
    fetch_from_ytdlp Scenario2.english_captions "u" Scenario.no_cookies
    = (Val r, st')
    /\ exists info cookie w w' kept,
         ydl_extract_info Scenario2.english_captions "u" cookie w
         = (Val (Some info), w')
         /\ PyDict.lookup "thumbnails_ytdlp" r = Some (PList (map PDict kept))
         /\ sublist kept (info_thumbnails info)
         /\ forall thumb,
              thumb ∈ kept <->
              thumb ∈ info_thumbnails info
              /\ eq_int (PyDict.get "preference" PNone thumb) (-1) = true.
Proof.
  eexists _, _. split; [vm_compute; reflexivity|].
  eapply (fetched_thumbnails Scenario2.english_captions "u"
            Scenario.no_cookies).
  - vm_compute. reflexivity.
  - discriminate.
Defined.

(* ===================================================================== *)
(** * Further properties: main_yt_dlp.py *)
(* ===================================================================== *)

Section SaveFiles.
Context {W : Type} (E : Env W).

(** X14. With a non-zero last-upload timestamp in place, a
    [save_progress] whose local write fails, or whose upload fails,
    returns normally and leaves the timestamp as it was: the next save
    past the gate tries the upload again. *)
Theorem save_progress_failure_keeps_stamp (processed : gset string)
    (st : State W) (l : Q) :
  lcpt st = Some l ->
  ~ (l == 0)%Q ->
  let payload := PDict (progress_payload processed) in
  let written := write_json E PROGRESS_PATH payload (world st) in
  let clock := time_time E (snd written) in
  (fst written <> Val tt
   \/ exists e w,
        upload_file E PROGRESS_PATH "progress.json" (snd clock) = (Exn e, w)) ->
  exists st',
    save_progress E processed st = (Val tt, st') /\ lcpt st' = Some l.
Proof.
  intros Hl Hnz payload written clock Hfail. subst payload written clock.
  assert (Hs : stamp_truthy (Some l) = true)
    by (apply stamp_truthy_spec; eauto).
  unfold save_progress, dump_json, do_upload. unfold_monad.
  cbn [world COOKIE_MANAGER lcpt lcdt trace].
  destruct (write_json E PROGRESS_PATH _ (world st)) as [[[]|e] w] eqn:Hw;
    cbn [world COOKIE_MANAGER lcpt lcdt trace fst snd] in *;
    [|by eexists].
  destruct (time_time E w) as [t w1];
    cbn [world COOKIE_MANAGER lcpt lcdt trace fst snd] in *.
  rewrite Hl, Hs.
  destruct (gate_open t l); [|by eexists].
  cbn [world COOKIE_MANAGER lcpt lcdt trace].
  destruct Hfail as [Hf|(e & w2 & ->)]; [done|].
  by eexists.
Qed.

(** X15. For a shard whose [_metadata] entry is absent or a dictionary,
    [save_data_file] returns the shard it has written, and writing it is
    its only event. In it [_metadata.updated_at] is the time read by the
    call, the other metadata entries are as before, and so is every
    other entry of the shard. *)
Theorem save_data_file_stamps_metadata (file_path : string) (d : Dict)
    (st : State W) :
  metadata_ok d ->
  exists d' m' st',
    save_data_file E file_path (PDict d) st = (Val (PDict d'), st')
    /\ new_events st st' = [EvWrite file_path (PDict d')]
    /\ PyDict.lookup "_metadata" d' = Some (PDict m')
    /\ PyDict.lookup "updated_at" m'
       = Some (PStr (fst (now_isoformat E (world st))))
    /\ (forall k, k <> "updated_at" ->
          PyDict.lookup k m' = PyDict.lookup k (metadata_of d))
    /\ (forall k, k <> "_metadata" ->
          PyDict.lookup k d' = PyDict.lookup k d).
Proof.
  intros Hok. unfold save_data_file, write_and_gate, read_local, dump_json.
  unfold_monad.
  destruct (now_isoformat E (world st)) as [now w] eqn:Hnow.
  cbn [world COOKIE_MANAGER lcpt lcdt trace fst].
  set (d1 := if PyDict.has "_metadata" d then d
             else PyDict.set "_metadata" (PDict []) d).
  assert (Hmeta : PyDict.get "_metadata" PNone d1 = PDict (metadata_of d)
                  /\ forall k, k <> "_metadata" ->
                       PyDict.lookup k d1 = PyDict.lookup k d).
  { subst d1. unfold metadata_ok in Hok.
    unfold PyDict.has, PyDict.get, metadata_of.
    destruct (PyDict.lookup "_metadata" d) as [v|] eqn:Hl.
    - rewrite Hl. by destruct v.
    - rewrite lookup_set_eq. split; [done|].
      intros k Hk. by apply lookup_set_ne. }
  destruct Hmeta as [-> Hother]. cbn [py_setitem].
  cbn [world COOKIE_MANAGER lcpt lcdt trace].
  set (m' := PyDict.set "updated_at" (PStr now) (metadata_of d)).
  set (d' := PyDict.set "_metadata" (PDict m') d1).
  assert (Hfacts :
            PyDict.lookup "_metadata" d' = Some (PDict m')
            /\ PyDict.lookup "updated_at" m' = Some (PStr now)
            /\ (forall k, k <> "updated_at" ->
                  PyDict.lookup k m' = PyDict.lookup k (metadata_of d))
            /\ (forall k, k <> "_metadata" ->
                  PyDict.lookup k d' = PyDict.lookup k d)).
  { subst d' m'. rewrite !lookup_set_eq. do 2 (split; [done|]). split.
    - intros k Hk. by apply lookup_set_ne.
    - intros k Hk. rewrite lookup_set_ne by done. by apply Hother. }
  exists d', m'.
  destruct (write_json E file_path _ w) as [[[]|e] w1];
    cbn [world COOKIE_MANAGER lcpt lcdt trace].
  - destruct (time_time E w1) as [t w2].
    cbn [world COOKIE_MANAGER lcpt lcdt trace].
    eexists. split; [done|]. split; [|done].
    unfold new_events. cbn [trace]. by rewrite drop_app_length.
  - eexists. split; [done|]. split; [|done].
    unfold new_events. cbn [trace]. by rewrite drop_app_length.
Qed.

(** X16. A shard that [save_data_file] cannot stamp is not written at
    all: when the value is not a dictionary, or its [_metadata] entry is
    present and is not a dictionary, the call returns normally, leaves
    the value as it is and has no event. *)
Theorem save_data_file_unstampable_writes_nothing (file_path : string)
    (data : pyval) (st : State W) :
  match data with
  | PDict d => exists v, PyDict.lookup "_metadata" d = Some v
                         /\ is_dict v = false
  | _ => True
  end ->
  exists st',
    save_data_file E file_path data st = (Val data, st')
    /\ trace st' = trace st.
Proof.
  intros Hbad. unfold save_data_file.
  destruct data as [| | | | | |d]; try (by eexists).
  destruct Hbad as (v & Hl & Hv).
  unfold PyDict.has, PyDict.get. rewrite Hl. unfold_monad.
  destruct (now_isoformat E (world st)) as [now w].
  rewrite Hl.
  destruct v; try discriminate Hv; cbn [py_setitem]; by eexists.
Qed.

End SaveFiles.

Lemma save_progress_failure_keeps_stamp_witness :
  exists st',
    save_progress (Scenario4.offline 1000) {["abcd1234efg"]}
      (Examples.start (mkManager [] 0) (Some 100%Q)) = (Val tt, st')
    /\ lcpt st' = Some 100%Q.
Proof.
  apply (save_progress_failure_keeps_stamp (Scenario4.offline 1000)
           {["abcd1234efg"]} (Examples.start (mkManager [] 0) (Some 100%Q))
           100%Q).
  - reflexivity.
  - discriminate.
  - right. by eexists _, _.
Defined.

Lemma save_data_file_stamps_metadata_witness :
  exists d' m' st',
    save_data_file (Examples.quiet_env 0) "tmp_dir/data_2024-01-01.json"
      (PDict [ ("abcd1234efg", PDict []) ]) (Examples.start (mkManager [] 0) None)
    = (Val (PDict d'), st')
    /\ new_events (Examples.start (mkManager [] 0) None) st'
       = [EvWrite "tmp_dir/data_2024-01-01.json" (PDict d')]
    /\ PyDict.lookup "_metadata" d' = Some (PDict m')
    /\ PyDict.lookup "updated_at" m' = Some (PStr "2024-01-01T00:00:00")
    /\ (forall k, k <> "updated_at" -> PyDict.lookup k m' = None)
    /\ (forall k, k <> "_metadata" ->
          PyDict.lookup k d' = PyDict.lookup k [ ("abcd1234efg", PDict []) ]).
Proof.
  apply (save_data_file_stamps_metadata (Examples.quiet_env 0)
           "tmp_dir/data_2024-01-01.json" [ ("abcd1234efg", PDict []) ]
           (Examples.start (mkManager [] 0) None)).
  exact I.
Defined.

Lemma save_data_file_unstampable_writes_nothing_witness :
  exists st',
    save_data_file (Examples.quiet_env 0) "tmp_dir/data_2024-01-01.json"
      (PDict Scenario4.shard_with_text_metadata)
      (Examples.start (mkManager [] 0) None)
    = (Val (PDict Scenario4.shard_with_text_metadata), st')
    /\ trace st' = trace (Examples.start (mkManager [] 0) None).
Proof.
  apply (save_data_file_unstampable_writes_nothing (Examples.quiet_env 0)
           "tmp_dir/data_2024-01-01.json"
           (PDict Scenario4.shard_with_text_metadata)
           (Examples.start (mkManager [] 0) None)).
  exists (PStr "2024-01-01"). split; reflexivity.
Defined.

(* --------------------------------------------------------------------- *)
(** ** The choice of the data file *)

Section NextFile.
Context {W : Type} (E : Env W).

(** X17. [get_existing_data_files] returns, in ascending order, exactly
    the listed files whose name starts with "data_" and ends with
    ".json"; when the listing raises, so does the call, with the same
    exception. *)
Theorem existing_data_files_sorted_filtered (st : State W) :
  (forall l w,
     list_repo_files E (world st) = (Val l, w) ->
     exists files,
       get_existing_data_files E st = (Val files, with_world w st)
       /\ StronglySorted PyStr.le files
       /\ forall f, f ∈ files <->
            f ∈ l /\ (exists rest, f = "data_" ++ rest)
            /\ (exists stem, f = stem ++ ".json"))
  /\ (forall e w,
        list_repo_files E (world st) = (Exn e, w) ->
        get_existing_data_files E st = (Exn e, with_world w st)).
Proof.
  unfold get_existing_data_files. unfold_monad. split.
  - intros l w ->. eexists. split; [done|].
    split; [apply sorted_StronglySorted|].
    intros f. rewrite sorted_Permutation, !list_elem_of_In, filter_In.
    by rewrite andb_true_iff, startswith_spec, endswith_spec.
  - by intros e w ->.
Qed.

(** X18. [get_next_data_file_path] raises exactly when the listing of the
    store raises, with that exception and before any other effect. A
    failure of the download, of reading the file, of the upload or of
    the removal never leaves the call, and the naming loop always
    ends. *)
Theorem next_data_file_path_raises_iff_listing_fails (st st' : State W)
    (e : Exc) :
  get_next_data_file_path E st = (Exn e, st') <->
  exists w, list_repo_files E (world st) = (Exn e, w) /\ st' = with_world w st.
Proof.
  split; [intros Hrun; exact (get_next_data_file_path_cases E _ _ _ Hrun)|].
  intros (w & Hlist & ->).
  unfold get_next_data_file_path, get_existing_data_files.
  unfold bind at 1. unfold bind at 1. unfold call at 1. by rewrite Hlist.
Qed.

(** X19. A path returned by [get_next_data_file_path] is either the local
    copy of the data file that sorts last among those the store lists,
    readable and holding fewer than [DATA_FILE_SIZE] videos, or the path
    for the current date, as [datetime.now()] gives it in this call,
    with the least counter whose path does not exist yet: a full shard
    or an existing file is never handed out as the next data file. *)
Theorem next_data_file_path_is_partial_or_free (st st' : State W)
    (p : string) :
  get_next_data_file_path E st = (Val p, st') ->
  (exists last_file d l w,
      p = TMP_DIR ++ "/" ++ last_file
      /\ list_repo_files E (world st) = (Val l, w)
      /\ In last_file l
      /\ is_data_file last_file = true
      /\ (forall f, In f l -> is_data_file f = true -> PyStr.le f last_file)
      /\ read_json E p (world st') = Some (PDict d)
      /\ count_videos d < DATA_FILE_SIZE)
  \/ (exists date_str n w,
        now_date E w = (date_str, world st')
        /\ 1 <= n
        /\ p = in_tmp_dir (data_filename date_str n)
        /\ ~ In p (existing_paths E (world st'))
        /\ forall k, 1 <= k < n ->
             In (in_tmp_dir (data_filename date_str k))
                (existing_paths E (world st'))).
Proof. intros Hrun. exact (get_next_data_file_path_cases E _ _ _ Hrun). Qed.

End NextFile.

(* --------------------------------------------------------------------- *)
(** ** The loop of [process_videos] *)

Section Process.
Context {W : Type} (E : Env W).

Lemma manager_save_progress (processed : gset string) :
  preserves COOKIE_MANAGER (save_progress E processed).
Proof.
  unfold save_progress, dump_json, do_upload. cbv zeta. repeat manager_step.
Qed.

Lemma manager_save_data_file (file_path : string) (data : pyval) :
  preserves COOKIE_MANAGER (save_data_file E file_path data).
Proof.
  unfold save_data_file, write_and_gate, read_local, dump_json, do_upload.
  cbv zeta. repeat manager_step.
Qed.

Lemma manager_get_next_data_file_path :
  preserves COOKIE_MANAGER (get_next_data_file_path E).
Proof.
  unfold get_next_data_file_path, get_existing_data_files, try_last_file,
    do_upload.
  cbv zeta. repeat manager_step.
Qed.

Lemma manager_load_data_file (file_path : string) :
  preserves COOKIE_MANAGER (load_data_file E file_path).
Proof. unfold load_data_file, path_exists. repeat manager_step. Qed.

Lemma save_progress_runs (processed : gset string) (st : State W) :
  exists st', save_progress E processed st = (Val tt, st').
Proof.
  unfold save_progress. unfold try_except.
  match goal with
  | |- context [match ?c st with _ => _ end] =>
      destruct (c st) as [[[]|e] s1]
  end; by eexists.
Qed.

Lemma load_data_file_runs (file_path : string) (st : State W) :
  exists data st', load_data_file E file_path st = (Val data, st').
Proof.
  unfold load_data_file, path_exists. unfold_monad.
  destruct (negb _).
  - destruct (now_isoformat E (world st)). by eexists _, _.
  - destruct (read_json E file_path (world st)); [by eexists _, _|].
    destruct (now_isoformat E (world st)). by eexists _, _.
Qed.

(** What the three stages of an iteration do to the bookkeeping. *)

Lemma store_result_marks (video_id : string) (b b1 : Batch)
    (st st1 : State W) :
  store_result E video_id b st = (Val b1, st1) ->
  processed_ids b1 = {[video_id]} ∪ processed_ids b
  /\ processed_count b1 = S (processed_count b)
  /\ current_data_file b1 = current_data_file b.
Proof.
  unfold store_result. unfold bind at 1.
  destruct (fetch_from_ytdlp E _ st) as [[data|e] s]; [|done].
  unfold bind at 1.
  destruct data as [|item data].
  - unfold ret. by intros [= <- _].
  - unfold lift, ret.
    destruct (py_setitem _ _ _) as [current|e]; [|done]. by intros [= <- _].
Qed.

Lemma checkpoint_keeps (b b2 : Batch) (st st2 : State W) :
  checkpoint E b st = (Val b2, st2) ->
  processed_ids b2 = processed_ids b
  /\ processed_count b2 = processed_count b
  /\ current_data_file b2 = current_data_file b.
Proof.
  unfold checkpoint.
  destruct (processed_count b mod 20 =? 0)%nat; [|by intros [= <- _]].
  unfold bind at 1.
  destruct (save_progress E _ st) as [[[]|e] s1]; [|done].
  unfold bind at 1. unfold lift at 1.
  destruct (video_count (current_data b)) as [n|e]; [|done].
  unfold bind at 1.
  destruct (save_data_file E _ _ s1) as [[current|e] s2]; [|done].
  unfold ret. by intros [= <- _].
Qed.

Lemma rollover_keeps (b b3 : Batch) (st st3 : State W) :
  rollover E b st = (Val b3, st3) ->
  processed_ids b3 = processed_ids b
  /\ processed_count b3 = processed_count b.
Proof.
  unfold rollover. unfold bind at 1. unfold lift at 1.
  destruct (video_count (current_data b)) as [n|e]; [|done].
  destruct (DATA_FILE_SIZE <=? n)%nat; [|by intros [= <- _]].
  unfold bind at 1.
  match goal with
  | |- context [match ?c st with _ => _ end] =>
      destruct (c st) as [[saved|e] s1]; [|done]
  end.
  unfold bind at 1.
  destruct (get_next_data_file_path E s1) as [[file|e] s2]; [|done].
  unfold bind at 1.
  destruct (load_data_file E file s2) as [[data|e] s3]; [|done].
  unfold ret. by intros [= <- _].
Qed.

Lemma process_loop_marks (video_ids : list string) (b b' : Batch)
    (st st' : State W) :
  process_loop E video_ids b st = (Val b', st') ->
  processed_ids b' = list_to_set video_ids ∪ processed_ids b
  /\ processed_count b' = List.length video_ids + processed_count b.
Proof.
  revert b st. induction video_ids as [|video_id rest IH]; intros b st.
  - intros [= <- _]. split; [|done].
    by rewrite list_to_set_nil, (left_id_L ∅ (∪)).
  - cbn [process_loop]. unfold bind at 1. unfold loop_body.
    unfold bind at 1.
    destruct (store_result E video_id b st) as [[b1|e] s1] eqn:H1; [|done].
    unfold bind at 1.
    destruct (checkpoint E b1 s1) as [[b2|e] s2] eqn:H2; [|done].
    destruct (rollover E b2 s2) as [[b3|e] s3] eqn:H3; [|done].
    intros Hrest. apply IH in Hrest as [Hids Hcount].
    apply store_result_marks in H1 as (Hi1 & Hc1 & _).
    apply checkpoint_keeps in H2 as (Hi2 & Hc2 & _).
    apply rollover_keeps in H3 as (Hi3 & Hc3).
    rewrite Hids, Hcount, Hi3, Hc3, Hi2, Hc2, Hi1, Hc1.
    split; [|simpl; lia].
    rewrite list_to_set_cons, (comm_L (∪) {[video_id]} (list_to_set rest)).
    by rewrite (assoc_L (∪)).
Qed.

(** X20. When [process_videos] returns, the set of processed ids is the
    one it was given together with every id of the list, whether the
    fetch of that video gave a record or the empty result, and the
    counter of the run is the length of the list. *)
Theorem process_videos_marks_every_video (video_ids : list string)
    (processed : gset string) (data_file : string) (data : pyval)
    (b' : Batch) (st st' : State W) :
  process_videos E video_ids processed data_file data st = (Val b', st') ->
  processed_ids b' = list_to_set video_ids ∪ processed
  /\ processed_count b' = List.length video_ids.
Proof.
  intros Hrun. apply process_loop_marks in Hrun as [Hids Hcount].
  cbn [processed_ids processed_count] in *. split; [done | lia].
Qed.

(** How each stage can end, for a shard that is a dictionary and a
    manager with a valid cursor. *)

Lemma fetch_runs (video_url : string) (st : State W) :
  valid_manager (COOKIE_MANAGER st) ->
  exists r s,
    fetch_from_ytdlp E video_url st = (Val r, s)
    /\ valid_manager (COOKIE_MANAGER s).
Proof.
  intros Hv. unfold fetch_from_ytdlp.
  unfold bind at 1, call_total at 1, call at 1.
  destruct (perf_counter E (world st)) as [t0 w0].
  unfold bind at 1, get_manager at 1. cbn [COOKIE_MANAGER].
  match goal with
  | |- context [attempts_loop _ _ _ _ _ _ _ ?s] =>
      destruct (attempts_loop_runs E video_url t0
                  (max_attempts_of (COOKIE_MANAGER st))
                  (seq 0 (max_attempts_of (COOKIE_MANAGER st))) []
                  timings0 s Hv)
        as (r & st' & Hrun & Hv' & _)
  end.
  by exists r, st'.
Qed.

Lemma store_result_runs (video_id : string) (b : Batch) (st : State W)
    (d : Dict) :
  valid_manager (COOKIE_MANAGER st) ->
  current_data b = PDict d ->
  exists b1 st1 d1,
    store_result E video_id b st = (Val b1, st1)
    /\ valid_manager (COOKIE_MANAGER st1)
    /\ current_data b1 = PDict d1.
Proof.
  intros Hv Hd. unfold store_result. unfold bind at 1.
  destruct (fetch_runs (video_id_to_url video_id) st Hv)
    as (r & s & -> & Hvs).
  unfold bind at 1. rewrite Hd.
  destruct r as [|item r]; unfold lift, ret; cbn [py_setitem];
    eexists _, _, _; split; try done.
Qed.

Lemma checkpoint_runs (b : Batch) (st : State W) (d : Dict) :
  current_data b = PDict d ->
  exists b2 st2 d2,
    checkpoint E b st = (Val b2, st2)
    /\ COOKIE_MANAGER st2 = COOKIE_MANAGER st
    /\ current_data b2 = PDict d2.
Proof.
  intros Hd. unfold checkpoint.
  destruct (processed_count b mod 20 =? 0)%nat; [|by eexists _, _, _].
  unfold bind at 1.
  destruct (save_progress_runs (processed_ids b) st) as [s1 Hsave].
  rewrite Hsave.
  unfold bind at 1. unfold lift at 1. rewrite Hd. cbn [video_count].
  unfold bind at 1.
  destruct (save_data_file_keeps_count E (current_data_file b) d s1)
    as (d' & s2 & Hdata & _).
  rewrite Hdata. unfold ret. eexists _, _, _. split; [done|].
  split; [|done].
  rewrite (manager_save_data_file _ _ _ _ _ Hdata).
  by rewrite (manager_save_progress _ _ _ _ Hsave).
Qed.

Lemma rollover_ends (b : Batch) (st st' : State W) (d : Dict)
    (o : Outcome Batch) :
  current_data b = PDict d ->
  rollover E b st = (o, st') ->
  COOKIE_MANAGER st' = COOKIE_MANAGER st
  /\ match o with
     | Val b' => exists d', current_data b' = PDict d'
     | Exn e => exists w w', list_repo_files E w = (Exn e, w')
     end.
Proof.
  intros Hd Hrun. split.
  - revert Hrun. generalize st o st'.
    change (preserves COOKIE_MANAGER (rollover E b)).
    unfold rollover.
    pose proof manager_save_data_file. pose proof manager_load_data_file.
    pose proof manager_get_next_data_file_path.
    repeat manager_step.
  - destruct o as [b'|e].
    + destruct (rollover_spec E _ _ _ _ _ Hrun Hd)
        as [[_ ->]|[_ [[ts Hf]|(d' & Hd' & _)]]]; eauto.
    + unfold rollover in Hrun. unfold bind at 1 in Hrun.
      rewrite Hd in Hrun. unfold lift at 1 in Hrun. cbn [video_count] in Hrun.
      destruct (DATA_FILE_SIZE <=? count_videos d)%nat; [|done].
      unfold bind at 1 in Hrun.
      assert (Hsaved : exists saved s1,
                 (if negb (processed_count b mod 20 =? 0)%nat
                  then save_data_file E (current_data_file b) (PDict d)
                  else ret (PDict d)) st = (Val saved, s1)).
      { destruct (negb _); [|by eexists _, _].
        destruct (save_data_file_keeps_count E (current_data_file b) d st)
          as (d' & s1 & Hs & _).
        by eexists _, _. }
      destruct Hsaved as (saved & s1 & Hsaved). rewrite Hsaved in Hrun.
      unfold bind at 1 in Hrun.
      destruct (get_next_data_file_path E s1) as [[file|e'] s2] eqn:Hnext.
      * unfold bind at 1 in Hrun.
        destruct (load_data_file_runs file s2) as (data & s3 & Hload).
        by rewrite Hload in Hrun.
      * injection Hrun as <- _.
        apply get_next_data_file_path_cases in Hnext as (w & Hlist & _).
        eauto.
Qed.

Lemma process_loop_stops (video_ids : list string) (b0 : Batch)
    (st st' : State W) (d0 : Dict) (e : Exc) :
  valid_manager (COOKIE_MANAGER st) ->
  current_data b0 = PDict d0 ->
  process_loop E video_ids b0 st = (Exn e, st') ->
  exists before video_id rest b b1 b2 s s1 s2 d w,
    video_ids = (before ++ video_id :: rest)%list
    /\ process_loop E before b0 st = (Val b, s)
    /\ store_result E video_id b s = (Val b1, s1)
    /\ checkpoint E b1 s1 = (Val b2, s2)
    /\ current_data b2 = PDict d
    /\ DATA_FILE_SIZE <= count_videos d
    /\ list_repo_files E (world (flushed E b2 s2)) = (Exn e, w)
    /\ st' = with_world w (flushed E b2 s2).
Proof.
  revert b0 st d0. induction video_ids as [|video_id rest IH];
    intros b0 st d0 Hv Hd; [done|].
  cbn [process_loop]. unfold bind at 1. unfold loop_body.
  unfold bind at 1.
  destruct (store_result_runs video_id b0 st d0 Hv Hd)
    as (b1 & s1 & d1 & H1 & Hv1 & Hd1).
  rewrite H1. unfold bind at 1.
  destruct (checkpoint_runs b1 s1 d1 Hd1) as (b2 & s2 & d2 & H2 & Hm2 & Hd2).
  rewrite H2.
  destruct (rollover E b2 s2) as [[b3|e3] s3] eqn:Hroll.
  - destruct (rollover_ends _ _ _ _ _ Hd2 Hroll) as [Hm3 [d3 Hd3]].
    intros Hrest.
    destruct (IH b3 s3 d3) as (before & vid & rest' & b & b1' & b2' & s & s1'
                               & s2' & d & w & -> & Hbefore & Hrest');
      [by rewrite Hm3, Hm2 | done | done |].
    exists (video_id :: before), vid, rest', b, b1', b2', s, s1', s2', d, w.
    split; [done|]. split; [|done].
    cbn [process_loop]. unfold bind at 1. unfold loop_body.
    unfold bind at 1. rewrite H1. unfold bind at 1. by rewrite H2, Hroll.
  - intros [= <- <-].
    destruct (rollover_cases E _ _ _ _ _ Hroll Hd2)
      as [(_ & [=] & _)|(Hfull & w & Hlist & Hst)].
    exists [], video_id, rest, b0, b1, b2, st, s1, s2, d2, w. done.
Qed.

(** X21. Started with a dictionary as shard and a cookie manager whose
    cursor is valid, [process_videos] can be stopped in one way only: on
    some video of the list, after the videos before it were processed
    and this one was stored and checkpointed, the size check finds the
    shard full, flushes it, and the listing of the store that
    [get_next_data_file_path] then makes raises; the exception of the
    run is that one, and the run ends in the state the listing left. No
    failure of the extraction, of the captions, of a local write, of an
    upload or of a download ends the run. *)
Theorem process_videos_stops_only_on_listing (video_ids : list string)
    (processed : gset string) (data_file : string) (d0 : Dict)
    (st st' : State W) (e : Exc) :
  valid_manager (COOKIE_MANAGER st) ->
  process_videos E video_ids processed data_file (PDict d0) st = (Exn e, st') ->
  exists before video_id rest b b1 b2 s s1 s2 d w,
    video_ids = (before ++ video_id :: rest)%list
    /\ process_videos E before processed data_file (PDict d0) st = (Val b, s)
    /\ store_result E video_id b s = (Val b1, s1)
    /\ checkpoint E b1 s1 = (Val b2, s2)
    /\ current_data b2 = PDict d
    /\ DATA_FILE_SIZE <= count_videos d
    /\ list_repo_files E (world (flushed E b2 s2)) = (Exn e, w)
    /\ st' = with_world w (flushed E b2 s2).
Proof.
  intros Hv Hrun. by eapply process_loop_stops in Hrun.
Qed.

End Process.

Lemma next_data_file_path_is_partial_or_free_witness :
  let E := Examples.disk_env Scenario.no_video 0 in
  exists st',
    get_next_data_file_path E Scenario5.today_taken
    = (Val "tmp_dir/data_2024-01-01_2.json", st')
    /\ (reuses_last_file E Scenario5.today_taken st'
          "tmp_dir/data_2024-01-01_2.json"
        \/ names_free_path E st' "tmp_dir/data_2024-01-01_2.json").
Proof.
  intros E. eexists. split; [vm_compute; reflexivity|].
  eapply (next_data_file_path_is_partial_or_free E Scenario5.today_taken).
  vm_compute. reflexivity.
Defined.

Lemma process_videos_marks_every_video_witness :
  exists b' st',
    process_videos (Examples.quiet_env 0) Scenario5.three_videos
      {["zzzzzzzzzzz"]} "tmp_dir/data_2024-01-01.json" (fresh_shard "now")
      (Examples.start (mkManager [] 0) None) = (Val b', st')
    /\ processed_ids b'
       = list_to_set Scenario5.three_videos ∪ {["zzzzzzzzzzz"]}
    /\ processed_count b' = 3.
Proof.
  destruct (process_videos (Examples.quiet_env 0) Scenario5.three_videos
              {["zzzzzzzzzzz"]} "tmp_dir/data_2024-01-01.json"
              (fresh_shard "now") (Examples.start (mkManager [] 0) None))
    as [[b'|e] st'] eqn:Hrun.
  - exists b', st'. split; [reflexivity|].
    exact (process_videos_marks_every_video _ _ _ _ _ _ _ _ Hrun).
  - vm_compute in Hrun. discriminate Hrun.
Defined.

Lemma process_videos_stops_only_on_listing_witness :
  let E := Scenario4.offline 0 in
  let st := Examples.start (mkManager [] 0) None in
  exists st',
    process_videos E ["abcd1234efg"] ∅ "tmp_dir/data_2024-01-01.json"
      (PDict Scenario5.full_entries) st
    = (Exn Scenario4.connection_error, st')
    /\ exists before video_id rest b b1 b2 s s1 s2 d w,
         ["abcd1234efg"] = (before ++ video_id :: rest)%list
         /\ process_videos E before ∅ "tmp_dir/data_2024-01-01.json"
              (PDict Scenario5.full_entries) st = (Val b, s)
         /\ store_result E video_id b s = (Val b1, s1)
         /\ checkpoint E b1 s1 = (Val b2, s2)
         /\ current_data b2 = PDict d
         /\ DATA_FILE_SIZE <= count_videos d
         /\ list_repo_files E (world (flushed E b2 s2))
            = (Exn Scenario4.connection_error, w)
         /\ st' = with_world w (flushed E b2 s2).
Proof.
  intros E st.
  destruct (process_videos E ["abcd1234efg"] ∅ "tmp_dir/data_2024-01-01.json"
              (PDict Scenario5.full_entries) st)
    as [[b'|e] st'] eqn:Hrun.
  - vm_compute in Hrun. discriminate Hrun.
  - assert (He : e = Scenario4.connection_error).
    { pose proof Hrun as Hval. vm_compute in Hval. by injection Hval. }
    subst e. exists st'. split; [reflexivity|].
    apply (process_videos_stops_only_on_listing E ["abcd1234efg"] ∅
             "tmp_dir/data_2024-01-01.json" Scenario5.full_entries st st'
             Scenario4.connection_error); [by left | exact Hrun].
Defined.

(* --------------------------------------------------------------------- *)
(** ** The events of a fetch *)

Section FetchEvents.
Context {W : Type} (E : Env W).

(** As [emits_bind], with the continuation only on values that the first
    computation can return. *)
Lemma emits_bind_val {A B} (P : Event -> Prop) (c : M W A) (k : A -> M W B) :
  emits P c ->
  (forall a, (exists st st', c st = (Val a, st')) -> emits P (k a)) ->
  emits P (bind c k).
Proof.
  intros Hc Hk st o st'. unfold bind.
  destruct (c st) as [[a|e] s1] eqn:Hrun.
  - intros Hrun2. destruct (Hc _ _ _ Hrun) as (r1 & H1 & HP1).
    destruct (Hk a (ex_intro _ st (ex_intro _ s1 Hrun)) _ _ _ Hrun2)
      as (r2 & H2 & HP2).
    exists (r1 ++ r2)%list. split; [by rewrite H2, H1, app_assoc|].
    by apply Forall_app.
  - intros [= _ <-]. by eapply Hc.
Qed.

Lemma emits_cleanup_listed (P : Event -> Prop) (paths : list string) :
  (forall p, In p paths -> P (EvCleanup p)) ->
  emits P (_cleanup_paths E paths).
Proof.
  induction paths as [|p paths IH]; intros HP; cbn [_cleanup_paths].
  - eauto with emits.
  - apply emits_bind; [|intros _; apply IH; intros q Hq; apply HP; by right].
    destruct (String.eqb p ""); [eauto with emits|].
    apply emits_bind; [|intros _; eauto with emits].
    apply emits_emit, HP. by left.
Qed.

Lemma emits_after_info_events (P : Event -> Prop) (video_url : string)
    (total_start : Q) (info : Info) (result timings : Dict) :
  (forall u c, P (EvDownloadSubs u c)) ->
  P (EvCleanup SUBS_TMPDIR) ->
  emits P (after_info E video_url total_start info result timings).
Proof.
  intros Hd Hc. unfold after_info.
  apply emits_bind; [eauto with emits | intros t].
  apply emits_bind_val.
  - apply emits_catch.
    apply emits_bind; [eauto with emits | intros m].
    apply emits_bind; [eauto with emits | intros c].
    by apply emits_download_subtitles.
  - intros [[[[auto_map tmpdir] auto_sec] saw]|e] (s & s' & Hrun);
      [|eauto with emits].
    assert (Htmp : tmpdir = SUBS_TMPDIR).
    { unfold catch in Hrun.
      unfold bind at 1, get_manager at 1 in Hrun.
      unfold bind at 1, lift at 1 in Hrun.
      destruct (get_current_cookie (COOKIE_MANAGER s)) as [cookie|e];
        [|done].
      destruct (_download_subtitles_via_api E _ _ _ _ s) as [r0 s0] eqn:Hdl.
      injection Hrun as -> _.
      by apply download_subtitles_spec in Hdl as [-> _]. }
    subst tmpdir.
    destruct (captions_loop _ _ _ _ _) as [r1 t1].
    apply emits_bind; [|intros _; repeat emits_step].
    apply emits_cleanup_listed. by intros p [<-|[]].
Qed.

Lemma emits_try_block_events (P : Event -> Prop) (video_url : string)
    (total_start : Q) (cookie : option string) (result timings : Dict) :
  (forall c, P (EvExtract video_url c)) ->
  (forall u c, P (EvDownloadSubs u c)) ->
  P (EvCleanup SUBS_TMPDIR) ->
  emits P (try_block E video_url total_start cookie result timings).
Proof.
  intros Hx Hd Hc. unfold try_block.
  apply emits_bind; [eauto with emits | intros t0].
  apply emits_bind; [by apply emits_emit | intros _].
  apply emits_bind; [apply emits_catch; eauto with emits|].
  intros [[info|]|e]; [| |eauto with emits].
  - apply emits_bind; [eauto with emits | intros t].
    by apply emits_after_info_events.
  - apply emits_bind; [eauto with emits | intros t]. eauto with emits.
Qed.

Lemma emits_on_exception (P : Event -> Prop) (attempt max_attempts : nat)
    (e : Exc) :
  emits P (@on_exception W attempt max_attempts e).
Proof.
  apply emits_nothing. intros st o st' Hrun.
  destruct (on_exception_spec attempt max_attempts e st)
    as (action & m & Heq & _).
  rewrite Heq in Hrun. by injection Hrun as _ <-.
Qed.

Lemma emits_attempts_loop (P : Event -> Prop) (video_url : string)
    (total_start : Q) (max_attempts : nat) (attempts : list nat)
    (result timings : Dict) :
  (forall c, P (EvExtract video_url c)) ->
  (forall u c, P (EvDownloadSubs u c)) ->
  P (EvCleanup SUBS_TMPDIR) ->
  emits P (attempts_loop E video_url total_start max_attempts attempts
             result timings).
Proof.
  intros Hx Hd Hc. revert result timings.
  induction attempts as [|attempt rest IH]; intros result timings;
    cbn [attempts_loop]; [eauto with emits|].
  apply emits_bind; [eauto with emits | intros m].
  apply emits_bind; [eauto with emits | intros cookie].
  apply emits_bind; [by apply emits_try_block_events|].
  intros [[result' timings'] [r|e]]; [eauto with emits|].
  apply emits_bind; [apply emits_on_exception|].
  intros [|]; [eauto with emits | apply IH].
Qed.

Lemma emits_fetch (P : Event -> Prop) (video_url : string) :
  (forall c, P (EvExtract video_url c)) ->
  (forall u c, P (EvDownloadSubs u c)) ->
  P (EvCleanup SUBS_TMPDIR) ->
  emits P (fetch_from_ytdlp E video_url).
Proof.
  intros Hx Hd Hc. unfold fetch_from_ytdlp.
  apply emits_bind; [eauto with emits | intros t0].
  apply emits_bind; [eauto with emits | intros m].
  by apply emits_attempts_loop.
Qed.

(** X22. However it ends, a fetch has no other effect than calls of
    [extract_info] on the given URL, caption downloads and the cleaning
    of the caption directory: it writes, uploads, removes and downloads
    no file of the pipeline, and cleans no other path. *)
Theorem fetch_touches_only_captions (video_url : string) (st st' : State W)
    (o : Outcome Dict) :
  fetch_from_ytdlp E video_url st = (o, st') ->
  Forall (fetch_event video_url) (new_events st st').
Proof.
  intros Hrun.
  destruct (emits_fetch (fetch_event video_url) video_url) with
    (st := st) (o := o) (st' := st') as (evs & Htr & Hall); try done.
  unfold new_events. by rewrite Htr, drop_app_length.
Qed.

End FetchEvents.

Lemma fetch_touches_only_captions_witness :
  exists r st',
    fetch_from_ytdlp Scenario2.english_captions "u" Scenario.no_cookies
    = (Val r, st')
    /\ Forall (fetch_event "u") (new_events Scenario.no_cookies st').
Proof.
  eexists _, _. split; [vm_compute; reflexivity|].
  eapply (fetch_touches_only_captions Scenario2.english_captions "u"
            Scenario.no_cookies).
  vm_compute. reflexivity.
Defined.

(* --------------------------------------------------------------------- *)
(** ** How often the progress file is written *)

Lemma count_progress_writes_app (l1 l2 : list Event) :
  count_progress_writes (l1 ++ l2)
  = count_progress_writes l1 + count_progress_writes l2.
Proof. unfold count_progress_writes. by rewrite List.filter_app, length_app. Qed.

Lemma count_progress_writes_none (l : list Event) :
  Forall not_progress_write l -> count_progress_writes l = 0.
Proof.
  unfold count_progress_writes. induction 1 as [|ev l Hev _ IH]; [done|].
  simpl. unfold not_progress_write in Hev. by rewrite Hev.
Qed.

Lemma in_tmp_dir_not_progress (name : string) :
  TMP_DIR ++ "/" ++ name <> PROGRESS_PATH.
Proof. discriminate. Qed.

Lemma div20_succ (c : nat) :
  S c / 20 = c / 20 + (if (S c mod 20 =? 0)%nat then 1 else 0).
Proof.
  pose proof (Nat.div_mod_eq c 20) as Hc.
  pose proof (Nat.div_mod_eq (S c) 20) as Hs.
  pose proof (Nat.mod_upper_bound c 20) as Hbc.
  pose proof (Nat.mod_upper_bound (S c) 20) as Hbs.
  revert Hc Hs Hbc Hbs.
  generalize (c / 20) (c mod 20) (S c / 20) (S c mod 20).
  intros q r q' r' Hc Hs Hbc Hbs.
  destruct (Nat.eqb_spec r' 0); lia.
Qed.

Section ProgressWrites.
Context {W : Type} (E : Env W).

Lemma emits_store_result (video_id : string) (b : Batch) :
  emits not_progress_write (store_result E video_id b).
Proof.
  unfold store_result.
  apply emits_bind; [by apply emits_fetch | intros data].
  repeat emits_step.
Qed.

Lemma emits_save_data_file (file_path : string) (data : pyval) :
  file_path <> PROGRESS_PATH ->
  emits not_progress_write (save_data_file E file_path data).
Proof.
  intros Hne.
  assert (Hw : forall content, not_progress_write (EvWrite file_path content)).
  { intros content. by apply String.eqb_neq. }
  unfold save_data_file, write_and_gate, read_local, dump_json, do_upload.
  cbv zeta. repeat emits_step.
Qed.

Lemma emits_get_next_data_file_path :
  emits not_progress_write (get_next_data_file_path E).
Proof.
  unfold get_next_data_file_path, get_existing_data_files, try_last_file,
    do_upload.
  cbv zeta. repeat emits_step.
Qed.

Lemma emits_load_data_file (file_path : string) :
  emits not_progress_write (load_data_file E file_path).
Proof. unfold load_data_file, path_exists. repeat emits_step. Qed.

Lemma emits_rollover (b : Batch) :
  current_data_file b <> PROGRESS_PATH ->
  emits not_progress_write (rollover E b).
Proof.
  intros Hne. unfold rollover.
  pose proof (emits_save_data_file (current_data_file b) (current_data b) Hne).
  pose proof emits_get_next_data_file_path.
  pose proof emits_load_data_file.
  repeat emits_step.
Qed.

(** The data file after [rollover] is the one before, or a file of the
    temporary directory. *)
Lemma rollover_file (b b' : Batch) (st st' : State W) :
  rollover E b st = (Val b', st') ->
  current_data_file b <> PROGRESS_PATH ->
  current_data_file b' <> PROGRESS_PATH.
Proof.
  unfold rollover. unfold bind at 1. unfold lift at 1.
  destruct (video_count (current_data b)) as [n|e]; [|done].
  destruct (DATA_FILE_SIZE <=? n)%nat; [|by intros [= <- _]].
  unfold bind at 1.
  match goal with
  | |- context [match ?c st with _ => _ end] =>
      destruct (c st) as [[saved|e] s1]; [|done]
  end.
  unfold bind at 1.
  destruct (get_next_data_file_path E s1) as [[file|e] s2] eqn:Hnext; [|done].
  unfold bind at 1.
  destruct (load_data_file E file s2) as [[data|e] s3]; [|done].
  unfold ret. intros [= <- _] _. cbn [current_data_file].
  apply get_next_data_file_path_cases in Hnext
    as [(last_file & d & l & w & -> & _)|(date_str & k & w & _ & _ & -> & _)];
    apply in_tmp_dir_not_progress.
Qed.

(** A checkpoint writes the progress file once when the counter is a
    multiple of 20, and not at all otherwise. *)
Lemma checkpoint_writes (b : Batch) (st st' : State W) (o : Outcome Batch) :
  current_data_file b <> PROGRESS_PATH ->
  checkpoint E b st = (o, st') ->
  exists evs,
    trace st' = (trace st ++ evs)%list
    /\ count_progress_writes evs
       = if (processed_count b mod 20 =? 0)%nat then 1 else 0.
Proof.
  intros Hne. unfold checkpoint.
  destruct (processed_count b mod 20 =? 0)%nat.
  2: { intros [= _ <-]. exists []. by rewrite app_nil_r. }
  unfold bind at 1.
  destruct (save_progress_trace E (processed_ids b) st) as (rest & Htr & Hrest).
  assert (Hcount : count_progress_writes
                     (EvWrite PROGRESS_PATH
                        (PDict (progress_payload (processed_ids b))) :: rest)
                   = 1).
  { by destruct Hrest as [-> | ->]. }
  destruct (save_progress E (processed_ids b) st) as [[[]|e] s1];
    cbn [snd] in Htr.
  - intros Hrun.
    match type of Hrun with
    | ?c s1 = _ => assert (Hq : emits not_progress_write c)
    end.
    { pose proof (emits_save_data_file (current_data_file b) (current_data b)
                    Hne).
      repeat emits_step. }
    destruct (Hq _ _ _ Hrun) as (evs2 & Htr2 & Hall).
    eexists. split; [by rewrite Htr2, Htr, <- app_assoc|].
    by rewrite count_progress_writes_app, Hcount,
      count_progress_writes_none.
  - intros [= _ <-]. eexists. split; [exact Htr | done].
Qed.

Lemma process_loop_writes (video_ids : list string) (b b' : Batch)
    (st st' : State W) :
  current_data_file b <> PROGRESS_PATH ->
  process_loop E video_ids b st = (Val b', st') ->
  exists evs,
    trace st' = (trace st ++ evs)%list
    /\ count_progress_writes evs + processed_count b / 20
       = (processed_count b + List.length video_ids) / 20.
Proof.
  revert b st. induction video_ids as [|video_id rest IH]; intros b st Hne.
  - intros [= _ <-]. exists []. rewrite app_nil_r. split; [done|].
    cbn [List.length]. by rewrite Nat.add_0_r.
  - cbn [process_loop]. unfold bind at 1. unfold loop_body.
    unfold bind at 1.
    destruct (store_result E video_id b st) as [[b1|e] s1] eqn:H1; [|done].
    unfold bind at 1.
    destruct (checkpoint E b1 s1) as [[b2|e] s2] eqn:H2; [|done].
    destruct (rollover E b2 s2) as [[b3|e] s3] eqn:H3; [|done].
    intros Hrest.
    destruct (store_result_marks E _ _ _ _ _ H1) as (_ & Hc1 & Hf1).
    destruct (checkpoint_keeps E _ _ _ _ H2) as (_ & Hc2 & Hf2).
    destruct (rollover_keeps E _ _ _ _ H3) as (_ & Hc3).
    assert (Hne1 : current_data_file b1 <> PROGRESS_PATH) by by rewrite Hf1.
    assert (Hne2 : current_data_file b2 <> PROGRESS_PATH) by by rewrite Hf2.
    pose proof (rollover_file _ _ _ _ H3 Hne2) as Hne3.
    destruct (emits_store_result video_id b _ _ _ H1) as (e1 & Ht1 & Hq1).
    destruct (checkpoint_writes _ _ _ _ Hne1 H2) as (e2 & Ht2 & Hn2).
    destruct (emits_rollover b2 Hne2 _ _ _ H3) as (e3 & Ht3 & Hq3).
    destruct (IH _ _ Hne3 Hrest) as (e4 & Ht4 & Hn4).
    exists (e1 ++ e2 ++ e3 ++ e4)%list.
    split; [by rewrite Ht4, Ht3, Ht2, Ht1, <- !app_assoc|].
    rewrite !count_progress_writes_app.
    rewrite (count_progress_writes_none e1), (count_progress_writes_none e3)
      by done.
    rewrite Hc3, Hc2, Hc1 in Hn4. rewrite Hc1 in Hn2.
    pose proof (div20_succ (processed_count b)) as Hdiv.
    cbn [List.length].
    replace (processed_count b + S (List.length rest))
      with (S (processed_count b) + List.length rest) by lia.
    lia.
Qed.

(** X23. In a run of [process_videos] that returns, on a data file other
    than the progress file, the progress file is written exactly once
    for every 20 videos of the list: [len(video_ids) // 20] times. *)
Theorem progress_written_every_20_videos (video_ids : list string)
    (processed : gset string) (data_file : string) (data : pyval)
    (b' : Batch) (st st' : State W) :
  data_file <> PROGRESS_PATH ->
  process_videos E video_ids processed data_file data st = (Val b', st') ->
  count_progress_writes (new_events st st') = List.length video_ids / 20.
Proof.
  intros Hne Hrun.
  apply process_loop_writes in Hrun as (evs & Htr & Hcount); [|done].
  cbn [processed_count] in Hcount.
  unfold new_events. rewrite Htr, drop_app_length.
  change (0 / 20) with 0 in Hcount.
  by rewrite Nat.add_0_r, Nat.add_0_l in Hcount.
Qed.

End ProgressWrites.

Lemma progress_written_every_20_videos_witness :
  exists b' st',
    process_videos (Examples.quiet_env 0) Scenario5.many_videos ∅
      "tmp_dir/data_2024-01-01.json" (fresh_shard "now")
      (Examples.start (mkManager [] 0) None) = (Val b', st')
    /\ count_progress_writes
         (new_events (Examples.start (mkManager [] 0) None) st')
       = 1.
Proof.
  destruct (process_videos (Examples.quiet_env 0) Scenario5.many_videos ∅
              "tmp_dir/data_2024-01-01.json" (fresh_shard "now")
              (Examples.start (mkManager [] 0) None))
    as [[b'|e] st'] eqn:Hrun.
  - exists b', st'. split; [reflexivity|].
    apply (progress_written_every_20_videos (Examples.quiet_env 0)
             Scenario5.many_videos ∅ "tmp_dir/data_2024-01-01.json"
             (fresh_shard "now") b' (Examples.start (mkManager [] 0) None)
             st'); [discriminate | exact Hrun].
  - vm_compute in Hrun. discriminate Hrun.
Defined.

(* --------------------------------------------------------------------- *)
(** ** A shard that is not a dictionary *)

Section BadShard.
Context {W : Type} (E : Env W).

(** X24. [process_videos] relies on the shard being a dictionary: with
    any other value, a valid cookie manager and at least one video, the
    run ends on the first video with a [TypeError] (storing the record)
    or an [AttributeError] (counting the entries), after the fetch of
    that video and nothing else: no progress and no data is written. *)
Theorem process_videos_needs_dict_shard (video_id : string)
    (rest : list string) (processed : gset string) (data_file : string)
    (data : pyval) (st : State W) :
  valid_manager (COOKIE_MANAGER st) ->
  is_dict data = false ->
  exists e st',
    process_videos E (video_id :: rest) processed data_file data st
    = (Exn e, st')
    /\ (exc_type e = "TypeError" \/ exc_type e = "AttributeError")
    /\ Forall (fetch_event (video_id_to_url video_id)) (new_events st st').
Proof.
  intros Hv Hdata.
  unfold process_videos. cbn [process_loop]. unfold bind at 1.
  unfold loop_body. unfold bind at 1. unfold store_result.
  unfold bind at 1.
  destruct (fetch_runs E (video_id_to_url video_id) st Hv)
    as (r & s & Hfetch & _).
  rewrite Hfetch.
  destruct (emits_fetch E (fetch_event (video_id_to_url video_id))
              (video_id_to_url video_id)) with
    (st := st) (o := Val r) (st' := s) as (evs & Htr & Hall); try done.
  assert (Hnew : Forall (fetch_event (video_id_to_url video_id))
                   (new_events st s)).
  { unfold new_events. by rewrite Htr, drop_app_length. }
  cbn [current_data processed_ids processed_count current_data_file].
  unfold bind at 1.
  destruct r as [|item r].
  - unfold ret at 1. unfold ret at 1. unfold bind at 1.
    unfold checkpoint. cbn [processed_count]. change (1 mod 20 =? 0)%nat with false.
    cbv iota. unfold ret at 1.
    unfold rollover. cbn [current_data]. unfold bind at 1, lift at 1.
    destruct data; try discriminate Hdata; cbn [video_count];
      eexists _, _; (split; [done|]); (split; [by right | done]).
  - unfold lift at 1.
    destruct data; try discriminate Hdata; cbn [py_setitem];
      eexists _, _; (split; [done|]); (split; [by left | done]).
Qed.

End BadShard.

Lemma process_videos_needs_dict_shard_witness :
  exists e st',
    process_videos (Examples.quiet_env 0) ["abcd1234efg"] ∅
      "tmp_dir/data_2024-01-01.json" (PList [])
      (Examples.start (mkManager [] 0) None) = (Exn e, st')
    /\ (exc_type e = "TypeError" \/ exc_type e = "AttributeError")
    /\ Forall (fetch_event (video_id_to_url "abcd1234efg"))
         (new_events (Examples.start (mkManager [] 0) None) st').
Proof.
  apply (process_videos_needs_dict_shard (Examples.quiet_env 0)
           "abcd1234efg" [] ∅ "tmp_dir/data_2024-01-01.json" (PList [])
           (Examples.start (mkManager [] 0) None)).
  - by left.
  - reflexivity.
Defined.
